(** * Control Centre front end (ui/app.js): state synchronisation and
      command dispatch, as a shallow embedding.

    The JavaScript module keeps two mutable singletons, [state] and
    [elements], three timer variables and talks to the backend through
    [invoke].  Everything runs on one event loop: a handler runs to its first
    [await], and the rest of it runs when the awaited backend call settles.
    Here a handler is a function on [World]; the part of an async function
    after an [await] is a constructor of [Cont], resumed by [resume] when the
    call it waits for is settled.  A settling call runs the rest of [invoke]
    and the rest of its caller in one step: nothing else can run between the
    two.  Timers carry their due time and are run by the [Timeout] action,
    which the event loop may take only once the timer is due. *)

From stdpp Require Import gmap strings list fin_maps.
From Stdlib Require Import ZArith Lia.

Local Open Scope Z_scope.

(** ** Backend interface *)

(** The command names passed to [invoke]; [command_name] gives the string of
    the source. *)
Inductive Command :=
  | get_all_states | get_volume | set_volume | toggle_mute | get_mute_status
  | get_brightness | set_brightness
  | get_wifi_status | set_wifi_enabled
  | get_bluetooth_status | set_bluetooth_enabled
  | get_night_light_status | set_night_light_enabled
  | suspend_system | close_window.

Definition command_name (c : Command) : string :=
  match c with
  | get_all_states => "get_all_states"
  | get_volume => "get_volume"
  | set_volume => "set_volume"
  | toggle_mute => "toggle_mute"
  | get_mute_status => "get_mute_status"
  | get_brightness => "get_brightness"
  | set_brightness => "set_brightness"
  | get_wifi_status => "get_wifi_status"
  | set_wifi_enabled => "set_wifi_enabled"
  | get_bluetooth_status => "get_bluetooth_status"
  | set_bluetooth_enabled => "set_bluetooth_enabled"
  | get_night_light_status => "get_night_light_status"
  | set_night_light_enabled => "set_night_light_enabled"
  | suspend_system => "suspend_system"
  | close_window => "close_window"
  end.

#[global] Instance Command_eq_dec : EqDecision Command.
Proof. solve_decision. Defined.

(** The argument objects of the source: [{}], [{ value }], [{ enabled }]. *)
Inductive Args :=
  | NoArgs
  | ArgValue (value : Z)
  | ArgEnabled (enabled : bool).

#[global] Instance Args_eq_dec : EqDecision Args.
Proof. solve_decision. Defined.

Record NetworkState := {
  wifi_enabled : bool;
  wifi_connected : bool;
  wifi_ssid : option string;
  bluetooth_enabled : bool;
  bluetooth_connected : bool
}.

Record AllStates := {
  all_volume : Z;
  all_muted : bool;
  all_brightness : Z;
  all_max_brightness : Z;
  all_network : NetworkState;
  all_night_light_enabled : bool
}.

(** The values a backend call resolves to. *)
Inductive Value :=
  | VNull
  | VBool (b : bool)
  | VNum (n : Z)
  | VNetwork (n : NetworkState)
  | VAllStates (a : AllStates).

(** How an awaited promise settles; errors are shown through string
    interpolation only, so they are strings. *)
Inductive Result :=
  | Resolved (v : Value)
  | Rejected (error : string).

(** [mockInvoke]: its [mockState] is rebuilt on every call, so the function
    is pure. *)
Definition mock_volume : Z := 50.
Definition mock_muted : bool := false.
Definition mock_brightness : Z := 75.
Definition mock_wifi : bool := true.
Definition mock_bluetooth : bool := false.
Definition mock_nightLight : bool := false.

Definition mock_network : NetworkState :=
  {| wifi_enabled := mock_wifi; wifi_connected := true;
     wifi_ssid := Some "MockNetwork"%string;
     bluetooth_enabled := mock_bluetooth; bluetooth_connected := false |}.

Definition arg_value (a : Args) : Value :=
  match a with ArgValue v => VNum v | _ => VNull end.

Definition arg_enabled (a : Args) : Value :=
  match a with ArgEnabled b => VBool b | _ => VNull end.

Definition mockInvoke (command : Command) (args : Args) : Value :=
  match command with
  | get_all_states =>
      VAllStates {| all_volume := mock_volume; all_muted := mock_muted;
                    all_brightness := mock_brightness; all_max_brightness := 100;
                    all_network := mock_network;
                    all_night_light_enabled := mock_nightLight |}
  | get_volume => VNum mock_volume
  | set_volume => arg_value args
  | toggle_mute => VBool (negb mock_muted)
  | get_mute_status => VBool mock_muted
  | get_brightness => VNum mock_brightness
  | set_brightness => arg_value args
  | get_wifi_status => VNetwork mock_network
  | set_wifi_enabled => arg_enabled args
  | get_bluetooth_status => VBool mock_bluetooth
  | set_bluetooth_enabled => arg_enabled args
  | get_night_light_status => VBool mock_nightLight
  | set_night_light_enabled => arg_enabled args
  | suspend_system => VNull
  | close_window => VNull
  end.

(** What [mockInvoke] writes to the console. *)
Definition mock_log (command : Command) : list string :=
  ("[MOCK] " ++ command_name command)%string
  :: match command with
     | suspend_system => ["[MOCK] System would suspend"%string]
     | close_window => ["[MOCK] Window would close"%string]
     | _ => []
     end.

(** ** The [state] singleton *)

Record State := {
  volume : Z;
  muted : bool;
  brightness : Z;
  wifiEnabled : bool;
  wifiConnected : bool;
  wifiSsid : option string;
  bluetoothEnabled : bool;
  nightLightEnabled : bool;
  isLoading : bool;
  pendingOperations : gset string
}.

Definition initial_state : State :=
  {| volume := 50; muted := false; brightness := 50;
     wifiEnabled := false; wifiConnected := false; wifiSsid := None;
     bluetoothEnabled := false; nightLightEnabled := false;
     isLoading := true; pendingOperations := ∅ |}.

Definition with_volume (v : Z) (s : State) : State :=
  {| volume := v; muted := muted s; brightness := brightness s;
     wifiEnabled := wifiEnabled s; wifiConnected := wifiConnected s;
     wifiSsid := wifiSsid s; bluetoothEnabled := bluetoothEnabled s;
     nightLightEnabled := nightLightEnabled s; isLoading := isLoading s;
     pendingOperations := pendingOperations s |}.

Definition with_muted (b : bool) (s : State) : State :=
  {| volume := volume s; muted := b; brightness := brightness s;
     wifiEnabled := wifiEnabled s; wifiConnected := wifiConnected s;
     wifiSsid := wifiSsid s; bluetoothEnabled := bluetoothEnabled s;
     nightLightEnabled := nightLightEnabled s; isLoading := isLoading s;
     pendingOperations := pendingOperations s |}.

Definition with_brightness (v : Z) (s : State) : State :=
  {| volume := volume s; muted := muted s; brightness := v;
     wifiEnabled := wifiEnabled s; wifiConnected := wifiConnected s;
     wifiSsid := wifiSsid s; bluetoothEnabled := bluetoothEnabled s;
     nightLightEnabled := nightLightEnabled s; isLoading := isLoading s;
     pendingOperations := pendingOperations s |}.

Definition with_wifiEnabled (b : bool) (s : State) : State :=
  {| volume := volume s; muted := muted s; brightness := brightness s;
     wifiEnabled := b; wifiConnected := wifiConnected s;
     wifiSsid := wifiSsid s; bluetoothEnabled := bluetoothEnabled s;
     nightLightEnabled := nightLightEnabled s; isLoading := isLoading s;
     pendingOperations := pendingOperations s |}.

Definition with_wifiConnected (b : bool) (s : State) : State :=
  {| volume := volume s; muted := muted s; brightness := brightness s;
     wifiEnabled := wifiEnabled s; wifiConnected := b;
     wifiSsid := wifiSsid s; bluetoothEnabled := bluetoothEnabled s;
     nightLightEnabled := nightLightEnabled s; isLoading := isLoading s;
     pendingOperations := pendingOperations s |}.

Definition with_wifiSsid (o : option string) (s : State) : State :=
  {| volume := volume s; muted := muted s; brightness := brightness s;
     wifiEnabled := wifiEnabled s; wifiConnected := wifiConnected s;
     wifiSsid := o; bluetoothEnabled := bluetoothEnabled s;
     nightLightEnabled := nightLightEnabled s; isLoading := isLoading s;
     pendingOperations := pendingOperations s |}.

Definition with_bluetoothEnabled (b : bool) (s : State) : State :=
  {| volume := volume s; muted := muted s; brightness := brightness s;
     wifiEnabled := wifiEnabled s; wifiConnected := wifiConnected s;
     wifiSsid := wifiSsid s; bluetoothEnabled := b;
     nightLightEnabled := nightLightEnabled s; isLoading := isLoading s;
     pendingOperations := pendingOperations s |}.

Definition with_nightLightEnabled (b : bool) (s : State) : State :=
  {| volume := volume s; muted := muted s; brightness := brightness s;
     wifiEnabled := wifiEnabled s; wifiConnected := wifiConnected s;
     wifiSsid := wifiSsid s; bluetoothEnabled := bluetoothEnabled s;
     nightLightEnabled := b; isLoading := isLoading s;
     pendingOperations := pendingOperations s |}.

Definition with_isLoading (b : bool) (s : State) : State :=
  {| volume := volume s; muted := muted s; brightness := brightness s;
     wifiEnabled := wifiEnabled s; wifiConnected := wifiConnected s;
     wifiSsid := wifiSsid s; bluetoothEnabled := bluetoothEnabled s;
     nightLightEnabled := nightLightEnabled s; isLoading := b;
     pendingOperations := pendingOperations s |}.

Definition with_pendingOperations (p : gset string) (s : State) : State :=
  {| volume := volume s; muted := muted s; brightness := brightness s;
     wifiEnabled := wifiEnabled s; wifiConnected := wifiConnected s;
     wifiSsid := wifiSsid s; bluetoothEnabled := bluetoothEnabled s;
     nightLightEnabled := nightLightEnabled s; isLoading := isLoading s;
     pendingOperations := p |}.

(** ** The [elements] singleton

    Only the properties the script writes are kept.  A [dataset.enabled]
    attribute is the boolean it was assigned, a [style.width] and a
    percentage label are the number before the percent sign, a
    [style.display] is [true] for ['block'] and [false] for ['none']. *)

Record Toast := {
  textContent : string;
  shown : bool;        (* the class list contains 'show' *)
  severity : string    (* the type put into className *)
}.

Record Elements := {
  wifiTile_enabled : bool;
  bluetoothTile_enabled : bool;
  nightLightTile_enabled : bool;
  volumeSlider_value : Z;
  volumeFill_width : Z;
  volumeValue_text : Z;
  volumeIcon_display : bool;
  volumeMutedIcon_display : bool;
  volumeIconBtn_muted : bool;
  brightnessSlider_value : Z;
  brightnessFill_width : Z;
  brightnessValue_text : Z;
  wifiStatus : string;
  bluetoothStatus : string;
  nightLightStatus : string;
  loadingOverlay_hidden : option bool;   (* None: the element is missing *)
  toast : option Toast                   (* None: the element is missing *)
}.

Definition set_wifiTile_enabled (b : bool) (e : Elements) : Elements :=
  {| wifiTile_enabled := b; bluetoothTile_enabled := bluetoothTile_enabled e;
     nightLightTile_enabled := nightLightTile_enabled e;
     volumeSlider_value := volumeSlider_value e; volumeFill_width := volumeFill_width e;
     volumeValue_text := volumeValue_text e; volumeIcon_display := volumeIcon_display e;
     volumeMutedIcon_display := volumeMutedIcon_display e;
     volumeIconBtn_muted := volumeIconBtn_muted e;
     brightnessSlider_value := brightnessSlider_value e;
     brightnessFill_width := brightnessFill_width e;
     brightnessValue_text := brightnessValue_text e;
     wifiStatus := wifiStatus e; bluetoothStatus := bluetoothStatus e;
     nightLightStatus := nightLightStatus e;
     loadingOverlay_hidden := loadingOverlay_hidden e; toast := toast e |}.

Definition set_bluetoothTile_enabled (b : bool) (e : Elements) : Elements :=
  {| wifiTile_enabled := wifiTile_enabled e; bluetoothTile_enabled := b;
     nightLightTile_enabled := nightLightTile_enabled e;
     volumeSlider_value := volumeSlider_value e; volumeFill_width := volumeFill_width e;
     volumeValue_text := volumeValue_text e; volumeIcon_display := volumeIcon_display e;
     volumeMutedIcon_display := volumeMutedIcon_display e;
     volumeIconBtn_muted := volumeIconBtn_muted e;
     brightnessSlider_value := brightnessSlider_value e;
     brightnessFill_width := brightnessFill_width e;
     brightnessValue_text := brightnessValue_text e;
     wifiStatus := wifiStatus e; bluetoothStatus := bluetoothStatus e;
     nightLightStatus := nightLightStatus e;
     loadingOverlay_hidden := loadingOverlay_hidden e; toast := toast e |}.

Definition set_nightLightTile_enabled (b : bool) (e : Elements) : Elements :=
  {| wifiTile_enabled := wifiTile_enabled e;
     bluetoothTile_enabled := bluetoothTile_enabled e;
     nightLightTile_enabled := b;
     volumeSlider_value := volumeSlider_value e; volumeFill_width := volumeFill_width e;
     volumeValue_text := volumeValue_text e; volumeIcon_display := volumeIcon_display e;
     volumeMutedIcon_display := volumeMutedIcon_display e;
     volumeIconBtn_muted := volumeIconBtn_muted e;
     brightnessSlider_value := brightnessSlider_value e;
     brightnessFill_width := brightnessFill_width e;
     brightnessValue_text := brightnessValue_text e;
     wifiStatus := wifiStatus e; bluetoothStatus := bluetoothStatus e;
     nightLightStatus := nightLightStatus e;
     loadingOverlay_hidden := loadingOverlay_hidden e; toast := toast e |}.

Definition set_volumeSlider_value (v : Z) (e : Elements) : Elements :=
  {| wifiTile_enabled := wifiTile_enabled e;
     bluetoothTile_enabled := bluetoothTile_enabled e;
     nightLightTile_enabled := nightLightTile_enabled e;
     volumeSlider_value := v; volumeFill_width := volumeFill_width e;
     volumeValue_text := volumeValue_text e; volumeIcon_display := volumeIcon_display e;
     volumeMutedIcon_display := volumeMutedIcon_display e;
     volumeIconBtn_muted := volumeIconBtn_muted e;
     brightnessSlider_value := brightnessSlider_value e;
     brightnessFill_width := brightnessFill_width e;
     brightnessValue_text := brightnessValue_text e;
     wifiStatus := wifiStatus e; bluetoothStatus := bluetoothStatus e;
     nightLightStatus := nightLightStatus e;
     loadingOverlay_hidden := loadingOverlay_hidden e; toast := toast e |}.

(** What [style.width] holds after [style.width = `${v}%`] when it held
    [old]: a negative percentage is no width, the page drops the assignment
    and the style keeps what it had. *)
Definition assign_width (v old : Z) : Z := if 0 <=? v then v else old.

(** [fill.style.width] and [value.textContent] of the volume row. *)
Definition set_volume_display (v : Z) (e : Elements) : Elements :=
  {| wifiTile_enabled := wifiTile_enabled e;
     bluetoothTile_enabled := bluetoothTile_enabled e;
     nightLightTile_enabled := nightLightTile_enabled e;
     volumeSlider_value := volumeSlider_value e;
     volumeFill_width := assign_width v (volumeFill_width e);
     volumeValue_text := v; volumeIcon_display := volumeIcon_display e;
     volumeMutedIcon_display := volumeMutedIcon_display e;
     volumeIconBtn_muted := volumeIconBtn_muted e;
     brightnessSlider_value := brightnessSlider_value e;
     brightnessFill_width := brightnessFill_width e;
     brightnessValue_text := brightnessValue_text e;
     wifiStatus := wifiStatus e; bluetoothStatus := bluetoothStatus e;
     nightLightStatus := nightLightStatus e;
     loadingOverlay_hidden := loadingOverlay_hidden e; toast := toast e |}.

(** The two icons and the button's 'muted' class. *)
Definition set_mute_icons (icon mutedIcon btn : bool) (e : Elements) : Elements :=
  {| wifiTile_enabled := wifiTile_enabled e;
     bluetoothTile_enabled := bluetoothTile_enabled e;
     nightLightTile_enabled := nightLightTile_enabled e;
     volumeSlider_value := volumeSlider_value e; volumeFill_width := volumeFill_width e;
     volumeValue_text := volumeValue_text e; volumeIcon_display := icon;
     volumeMutedIcon_display := mutedIcon;
     volumeIconBtn_muted := btn;
     brightnessSlider_value := brightnessSlider_value e;
     brightnessFill_width := brightnessFill_width e;
     brightnessValue_text := brightnessValue_text e;
     wifiStatus := wifiStatus e; bluetoothStatus := bluetoothStatus e;
     nightLightStatus := nightLightStatus e;
     loadingOverlay_hidden := loadingOverlay_hidden e; toast := toast e |}.

Definition set_brightnessSlider_value (v : Z) (e : Elements) : Elements :=
  {| wifiTile_enabled := wifiTile_enabled e;
     bluetoothTile_enabled := bluetoothTile_enabled e;
     nightLightTile_enabled := nightLightTile_enabled e;
     volumeSlider_value := volumeSlider_value e; volumeFill_width := volumeFill_width e;
     volumeValue_text := volumeValue_text e; volumeIcon_display := volumeIcon_display e;
     volumeMutedIcon_display := volumeMutedIcon_display e;
     volumeIconBtn_muted := volumeIconBtn_muted e;
     brightnessSlider_value := v;
     brightnessFill_width := brightnessFill_width e;
     brightnessValue_text := brightnessValue_text e;
     wifiStatus := wifiStatus e; bluetoothStatus := bluetoothStatus e;
     nightLightStatus := nightLightStatus e;
     loadingOverlay_hidden := loadingOverlay_hidden e; toast := toast e |}.

Definition set_brightness_display (v : Z) (e : Elements) : Elements :=
  {| wifiTile_enabled := wifiTile_enabled e;
     bluetoothTile_enabled := bluetoothTile_enabled e;
     nightLightTile_enabled := nightLightTile_enabled e;
     volumeSlider_value := volumeSlider_value e; volumeFill_width := volumeFill_width e;
     volumeValue_text := volumeValue_text e; volumeIcon_display := volumeIcon_display e;
     volumeMutedIcon_display := volumeMutedIcon_display e;
     volumeIconBtn_muted := volumeIconBtn_muted e;
     brightnessSlider_value := brightnessSlider_value e;
     brightnessFill_width := assign_width v (brightnessFill_width e);
     brightnessValue_text := v;
     wifiStatus := wifiStatus e; bluetoothStatus := bluetoothStatus e;
     nightLightStatus := nightLightStatus e;
     loadingOverlay_hidden := loadingOverlay_hidden e; toast := toast e |}.

Definition set_wifiStatus (s : string) (e : Elements) : Elements :=
  {| wifiTile_enabled := wifiTile_enabled e;
     bluetoothTile_enabled := bluetoothTile_enabled e;
     nightLightTile_enabled := nightLightTile_enabled e;
     volumeSlider_value := volumeSlider_value e; volumeFill_width := volumeFill_width e;
     volumeValue_text := volumeValue_text e; volumeIcon_display := volumeIcon_display e;
     volumeMutedIcon_display := volumeMutedIcon_display e;
     volumeIconBtn_muted := volumeIconBtn_muted e;
     brightnessSlider_value := brightnessSlider_value e;
     brightnessFill_width := brightnessFill_width e;
     brightnessValue_text := brightnessValue_text e;
     wifiStatus := s; bluetoothStatus := bluetoothStatus e;
     nightLightStatus := nightLightStatus e;
     loadingOverlay_hidden := loadingOverlay_hidden e; toast := toast e |}.

Definition set_bluetoothStatus (s : string) (e : Elements) : Elements :=
  {| wifiTile_enabled := wifiTile_enabled e;
     bluetoothTile_enabled := bluetoothTile_enabled e;
     nightLightTile_enabled := nightLightTile_enabled e;
     volumeSlider_value := volumeSlider_value e; volumeFill_width := volumeFill_width e;
     volumeValue_text := volumeValue_text e; volumeIcon_display := volumeIcon_display e;
     volumeMutedIcon_display := volumeMutedIcon_display e;
     volumeIconBtn_muted := volumeIconBtn_muted e;
     brightnessSlider_value := brightnessSlider_value e;
     brightnessFill_width := brightnessFill_width e;
     brightnessValue_text := brightnessValue_text e;
     wifiStatus := wifiStatus e; bluetoothStatus := s;
     nightLightStatus := nightLightStatus e;
     loadingOverlay_hidden := loadingOverlay_hidden e; toast := toast e |}.

Definition set_nightLightStatus (s : string) (e : Elements) : Elements :=
  {| wifiTile_enabled := wifiTile_enabled e;
     bluetoothTile_enabled := bluetoothTile_enabled e;
     nightLightTile_enabled := nightLightTile_enabled e;
     volumeSlider_value := volumeSlider_value e; volumeFill_width := volumeFill_width e;
     volumeValue_text := volumeValue_text e; volumeIcon_display := volumeIcon_display e;
     volumeMutedIcon_display := volumeMutedIcon_display e;
     volumeIconBtn_muted := volumeIconBtn_muted e;
     brightnessSlider_value := brightnessSlider_value e;
     brightnessFill_width := brightnessFill_width e;
     brightnessValue_text := brightnessValue_text e;
     wifiStatus := wifiStatus e; bluetoothStatus := bluetoothStatus e;
     nightLightStatus := s;
     loadingOverlay_hidden := loadingOverlay_hidden e; toast := toast e |}.

Definition set_loadingOverlay_hidden (h : option bool) (e : Elements) : Elements :=
  {| wifiTile_enabled := wifiTile_enabled e;
     bluetoothTile_enabled := bluetoothTile_enabled e;
     nightLightTile_enabled := nightLightTile_enabled e;
     volumeSlider_value := volumeSlider_value e; volumeFill_width := volumeFill_width e;
     volumeValue_text := volumeValue_text e; volumeIcon_display := volumeIcon_display e;
     volumeMutedIcon_display := volumeMutedIcon_display e;
     volumeIconBtn_muted := volumeIconBtn_muted e;
     brightnessSlider_value := brightnessSlider_value e;
     brightnessFill_width := brightnessFill_width e;
     brightnessValue_text := brightnessValue_text e;
     wifiStatus := wifiStatus e; bluetoothStatus := bluetoothStatus e;
     nightLightStatus := nightLightStatus e;
     loadingOverlay_hidden := h; toast := toast e |}.

Definition set_toast (t : option Toast) (e : Elements) : Elements :=
  {| wifiTile_enabled := wifiTile_enabled e;
     bluetoothTile_enabled := bluetoothTile_enabled e;
     nightLightTile_enabled := nightLightTile_enabled e;
     volumeSlider_value := volumeSlider_value e; volumeFill_width := volumeFill_width e;
     volumeValue_text := volumeValue_text e; volumeIcon_display := volumeIcon_display e;
     volumeMutedIcon_display := volumeMutedIcon_display e;
     volumeIconBtn_muted := volumeIconBtn_muted e;
     brightnessSlider_value := brightnessSlider_value e;
     brightnessFill_width := brightnessFill_width e;
     brightnessValue_text := brightnessValue_text e;
     wifiStatus := wifiStatus e; bluetoothStatus := bluetoothStatus e;
     nightLightStatus := nightLightStatus e;
     loadingOverlay_hidden := loadingOverlay_hidden e; toast := t |}.

(** ** The event loop: timers, calls in flight, and the world *)

(** The bridge found at [window.__TAURI__].  [fault] is what a call into the
    bridge throws synchronously, if it does.  [NoTauri] stands for every
    page without a usable bridge. *)
Inductive Bridge :=
  | TauriV2 (fault : option string)   (* window.__TAURI__.core.invoke *)
  | TauriV1 (fault : option string)   (* window.__TAURI__.invoke *)
  | NoTauri.                          (* mock mode *)

(** The closures handed to [setTimeout]; a closure keeps the constants it
    captured. *)
Inductive Task :=
  | VolumeCommit (value : Z)       (* in handleVolumeChange *)
  | BrightnessCommit (value : Z)   (* in handleBrightnessChange *)
  | WifiRefresh                    (* in toggleWifi *)
  | Suspend                        (* in suspendSystem *)
  | HideToast.                     (* in showToast *)

Record Timer := { due : nat; task : Task }.

(** What [closeWindow] returns to. *)
Inductive AfterClose := JustClose | ThenSuspend.

(** The rest of an async function after its [await invoke(...)]. *)
Inductive Cont :=
  | in_loadInitialState
  | in_volumeCommit
  | in_toggleMute
  | in_refreshVolume_volume
  | in_refreshVolume_muted
  | in_brightnessCommit
  | in_refreshBrightness
  | in_toggleWifi (newState : bool)
  | in_wifiRefresh
  | in_toggleBluetooth (newState : bool)
  | in_toggleNightLight (newState : bool)
  | in_closeWindow (after : AfterClose)
  | in_suspend.

(** The promise [invoke] hands back.  When it is settled already, the caller
    resumes in a microtask, before any other listener or timer; the model
    lets the loop take other steps first, which only adds behaviours. *)
Inductive Promise :=
  | AwaitsBackend          (* the bridge call is in flight *)
  | Settled (r : Result).  (* invoke has already finished: mock, or the bridge threw *)

Record Pending := {
  p_command : Command;
  p_promise : Promise;
  p_cont : Cont
}.

(** A call delegated to the backend (or to the mock). *)
Record Call := { c_time : nat; c_command : Command; c_args : Args }.

Record World := {
  state : State;
  els : Elements;                          (* the [elements] singleton *)
  volumeDebounceTimer : option positive;   (* null, or a timer handle *)
  brightnessDebounceTimer : option positive;
  toastTimer : option positive;
  bridge : Bridge;
  clock : nat;
  timers : gmap positive Timer;            (* the timers still alive *)
  nextTimer : positive;
  inflight : gmap positive Pending;
  nextCall : positive;
  trace : list Call;                       (* oldest first *)
  console : list string;                   (* oldest first *)
  unhandled : list string                  (* rejections nobody handled *)
}.

Definition put_state (s : State) (w : World) : World :=
  {| state := s; els := els w; volumeDebounceTimer := volumeDebounceTimer w;
     brightnessDebounceTimer := brightnessDebounceTimer w; toastTimer := toastTimer w;
     bridge := bridge w; clock := clock w; timers := timers w; nextTimer := nextTimer w;
     inflight := inflight w; nextCall := nextCall w; trace := trace w;
     console := console w; unhandled := unhandled w |}.

Definition put_els (e : Elements) (w : World) : World :=
  {| state := state w; els := e; volumeDebounceTimer := volumeDebounceTimer w;
     brightnessDebounceTimer := brightnessDebounceTimer w; toastTimer := toastTimer w;
     bridge := bridge w; clock := clock w; timers := timers w; nextTimer := nextTimer w;
     inflight := inflight w; nextCall := nextCall w; trace := trace w;
     console := console w; unhandled := unhandled w |}.

Definition put_volumeDebounceTimer (t : option positive) (w : World) : World :=
  {| state := state w; els := els w; volumeDebounceTimer := t;
     brightnessDebounceTimer := brightnessDebounceTimer w; toastTimer := toastTimer w;
     bridge := bridge w; clock := clock w; timers := timers w; nextTimer := nextTimer w;
     inflight := inflight w; nextCall := nextCall w; trace := trace w;
     console := console w; unhandled := unhandled w |}.

Definition put_brightnessDebounceTimer (t : option positive) (w : World) : World :=
  {| state := state w; els := els w; volumeDebounceTimer := volumeDebounceTimer w;
     brightnessDebounceTimer := t; toastTimer := toastTimer w;
     bridge := bridge w; clock := clock w; timers := timers w; nextTimer := nextTimer w;
     inflight := inflight w; nextCall := nextCall w; trace := trace w;
     console := console w; unhandled := unhandled w |}.

Definition put_toastTimer (t : option positive) (w : World) : World :=
  {| state := state w; els := els w; volumeDebounceTimer := volumeDebounceTimer w;
     brightnessDebounceTimer := brightnessDebounceTimer w; toastTimer := t;
     bridge := bridge w; clock := clock w; timers := timers w; nextTimer := nextTimer w;
     inflight := inflight w; nextCall := nextCall w; trace := trace w;
     console := console w; unhandled := unhandled w |}.

Definition put_clock (c : nat) (w : World) : World :=
  {| state := state w; els := els w; volumeDebounceTimer := volumeDebounceTimer w;
     brightnessDebounceTimer := brightnessDebounceTimer w; toastTimer := toastTimer w;
     bridge := bridge w; clock := c; timers := timers w; nextTimer := nextTimer w;
     inflight := inflight w; nextCall := nextCall w; trace := trace w;
     console := console w; unhandled := unhandled w |}.

Definition put_timers (m : gmap positive Timer) (next : positive) (w : World) : World :=
  {| state := state w; els := els w; volumeDebounceTimer := volumeDebounceTimer w;
     brightnessDebounceTimer := brightnessDebounceTimer w; toastTimer := toastTimer w;
     bridge := bridge w; clock := clock w; timers := m; nextTimer := next;
     inflight := inflight w; nextCall := nextCall w; trace := trace w;
     console := console w; unhandled := unhandled w |}.

Definition put_inflight (m : gmap positive Pending) (next : positive) (w : World) : World :=
  {| state := state w; els := els w; volumeDebounceTimer := volumeDebounceTimer w;
     brightnessDebounceTimer := brightnessDebounceTimer w; toastTimer := toastTimer w;
     bridge := bridge w; clock := clock w; timers := timers w; nextTimer := nextTimer w;
     inflight := m; nextCall := next; trace := trace w;
     console := console w; unhandled := unhandled w |}.

Definition put_trace (t : list Call) (w : World) : World :=
  {| state := state w; els := els w; volumeDebounceTimer := volumeDebounceTimer w;
     brightnessDebounceTimer := brightnessDebounceTimer w; toastTimer := toastTimer w;
     bridge := bridge w; clock := clock w; timers := timers w; nextTimer := nextTimer w;
     inflight := inflight w; nextCall := nextCall w; trace := t;
     console := console w; unhandled := unhandled w |}.

Definition put_console (c : list string) (w : World) : World :=
  {| state := state w; els := els w; volumeDebounceTimer := volumeDebounceTimer w;
     brightnessDebounceTimer := brightnessDebounceTimer w; toastTimer := toastTimer w;
     bridge := bridge w; clock := clock w; timers := timers w; nextTimer := nextTimer w;
     inflight := inflight w; nextCall := nextCall w; trace := trace w;
     console := c; unhandled := unhandled w |}.

Definition put_unhandled (u : list string) (w : World) : World :=
  {| state := state w; els := els w; volumeDebounceTimer := volumeDebounceTimer w;
     brightnessDebounceTimer := brightnessDebounceTimer w; toastTimer := toastTimer w;
     bridge := bridge w; clock := clock w; timers := timers w; nextTimer := nextTimer w;
     inflight := inflight w; nextCall := nextCall w; trace := trace w;
     console := console w; unhandled := u |}.

(** [state.x = ...] and [elements.x... = ...] as world updates. *)
Definition update_state (f : State → State) (w : World) : World :=
  put_state (f (state w)) w.

Definition update_els (f : Elements → Elements) (w : World) : World :=
  put_els (f (els w)) w.

(** ** Host primitives *)

(** [setTimeout(task, delay)]: a fresh handle, the timer due [delay] units
    from now. *)
Definition setTimeout (t : Task) (delay : nat) (w : World) : positive * World :=
  (nextTimer w,
   put_timers (<[nextTimer w := {| due := (clock w + delay)%nat; task := t |}]> (timers w))
              (Pos.succ (nextTimer w)) w).

(** [clearTimeout(id)]: nothing happens when the timer is gone already. *)
Definition clearTimeout (id : positive) (w : World) : World :=
  put_timers (delete id (timers w)) (nextTimer w) w.

(** [if (timer) clearTimeout(timer)]: a handle is a positive number, so it is
    truthy exactly when the variable is not null. *)
Definition clear_if_set (timer : option positive) (w : World) : World :=
  match timer with
  | Some id => clearTimeout id w
  | None => w
  end.

Definition console_log (msg : string) (w : World) : World :=
  put_console (console w ++ [msg]) w.

(** An async callback or handler whose promise rejects with nobody awaiting
    it. *)
Definition unhandled_rejection (error : string) (w : World) : World :=
  put_unhandled (unhandled w ++ [error]) w.

(** ** UI helpers *)

Definition showLoading (w : World) : World :=
  let w := update_state (with_isLoading true) w in
  match loadingOverlay_hidden (els w) with
  | Some _ => update_els (set_loadingOverlay_hidden (Some false)) w
  | None => w
  end.

Definition hideLoading (w : World) : World :=
  let w := update_state (with_isLoading false) w in
  match loadingOverlay_hidden (els w) with
  | Some _ => update_els (set_loadingOverlay_hidden (Some true)) w
  | None => w
  end.

Definition showToast (message : string) (type : string) (w : World) : World :=
  match toast (els w) with
  | None => w
  | Some _ =>
      let w := clear_if_set (toastTimer w) w in
      let w := update_els (set_toast (Some {| textContent := message; shown := true;
                                              severity := type |})) w in
      let '(id, w) := setTimeout HideToast 2500 w in
      put_toastTimer (Some id) w
  end.

(** The body of the toast timer: [elements.toast.classList.remove('show')]. *)
Definition hide_toast (w : World) : World :=
  match toast (els w) with
  | Some t => update_els (set_toast (Some {| textContent := textContent t; shown := false;
                                             severity := severity t |})) w
  | None => w
  end.

(** ** The Tauri IPC interface *)

(** How far the body of [invoke] gets before it first gives up control. *)
Inductive Completion :=
  | Awaits                   (* at [await] of the bridge's promise *)
  | Returns (v : Value)
  | Throws (error : string).

(** The catch block of [invoke]. *)
Definition invoke_catch (command : Command) (error : string) (w : World) : World :=
  let w := console_log ("Command " ++ command_name command ++ " failed: " ++ error) w in
  showToast ("Error: " ++ error) "error" w.

Definition delegate (command : Command) (args : Args) (w : World) : World :=
  put_trace (trace w ++ [{| c_time := clock w; c_command := command; c_args := args |}]) w.

(** The body of [invoke] up to the point where the bridge has been called. *)
Definition invoke_body (command : Command) (args : Args) (w : World) : Completion * World :=
  match bridge w with
  | TauriV2 None | TauriV1 None => (Awaits, delegate command args w)
  | TauriV2 (Some error) | TauriV1 (Some error) =>
      (Throws error, invoke_catch command error (delegate command args w))
  | NoTauri =>
      let w := console_log "Tauri not available, using mock mode" w in
      let w := put_console (console w ++ mock_log command) w in
      (Returns (mockInvoke command args), delegate command args w)
  end.

(** [invoke] is an async function: however its body ends, the caller gets a
    promise. *)
Definition async (r : Completion * World) : Promise * World :=
  match r with
  | (Awaits, w) => (AwaitsBackend, w)
  | (Returns v, w) => (Settled (Resolved v), w)
  | (Throws error, w) => (Settled (Rejected error), w)
  end.

Definition invoke (command : Command) (args : Args) (w : World) : Promise * World :=
  async (invoke_body command args w).

(** The rest of [invoke] once the bridge's promise has settled. *)
Definition invoke_settled (command : Command) (r : Result) (w : World) : World :=
  match r with
  | Resolved _ => w
  | Rejected error => invoke_catch command error w
  end.

(** [await invoke(command, args)] with [k] the rest of the caller. *)
Definition await_invoke (command : Command) (args : Args) (k : Cont) (w : World) : World :=
  let '(p, w) := invoke command args w in
  put_inflight (<[nextCall w := {| p_command := command; p_promise := p; p_cont := k |}]>
                  (inflight w))
               (Pos.succ (nextCall w)) w.

(** ** UI updates *)

Definition updateVolumeUI (w : World) : World :=
  let w := update_els (set_volumeSlider_value (volume (state w))) w in
  let w := update_els (set_volume_display (volume (state w))) w in
  if muted (state w)
  then update_els (set_mute_icons false true true) w
  else update_els (set_mute_icons true false false) w.

Definition updateBrightnessUI (w : World) : World :=
  let w := update_els (set_brightnessSlider_value (brightness (state w))) w in
  update_els (set_brightness_display (brightness (state w))) w.

(** JavaScript truthiness of [state.wifiSsid]: neither null nor empty. *)
Definition truthy (ssid : option string) : bool :=
  match ssid with
  | Some s => negb (String.eqb s EmptyString)
  | None => false
  end.

Definition updateWifiUI (w : World) : World :=
  let w := update_els (set_wifiTile_enabled (wifiEnabled (state w))) w in
  if wifiEnabled (state w) && wifiConnected (state w) && truthy (wifiSsid (state w))
  then update_els (set_wifiStatus (default EmptyString (wifiSsid (state w)))) w
  else if wifiEnabled (state w)
  then update_els (set_wifiStatus "On") w
  else update_els (set_wifiStatus "Off") w.

Definition updateBluetoothUI (w : World) : World :=
  let w := update_els (set_bluetoothTile_enabled (bluetoothEnabled (state w))) w in
  update_els (set_bluetoothStatus (if bluetoothEnabled (state w) then "On" else "Off")) w.

Definition updateNightLightUI (w : World) : World :=
  let w := update_els (set_nightLightTile_enabled (nightLightEnabled (state w))) w in
  update_els (set_nightLightStatus (if nightLightEnabled (state w) then "On" else "Off")) w.

Definition updateAllUI (w : World) : World :=
  updateNightLightUI (updateBluetoothUI (updateWifiUI (updateBrightnessUI (updateVolumeUI w)))).

(** ** Handlers, up to their first await *)

Definition loadInitialState (w : World) : World :=
  await_invoke get_all_states NoArgs in_loadInitialState (showLoading w).

(** [value] is [parseInt(e.target.value)], an integer: the slider's value is
    always a number's decimal string. *)
Definition handleVolumeInput (value : Z) (w : World) : World :=
  let w := update_state (with_volume value) w in
  update_els (set_volume_display value) w.

Definition handleVolumeChange (value : Z) (w : World) : World :=
  let w := clear_if_set (volumeDebounceTimer w) w in
  let '(id, w) := setTimeout (VolumeCommit value) 50 w in
  put_volumeDebounceTimer (Some id) w.

Definition toggleMute (w : World) : World :=
  await_invoke toggle_mute NoArgs in_toggleMute w.

Definition refreshVolume (w : World) : World :=
  await_invoke get_volume NoArgs in_refreshVolume_volume w.

Definition handleBrightnessInput (value : Z) (w : World) : World :=
  let w := update_state (with_brightness value) w in
  update_els (set_brightness_display value) w.

Definition handleBrightnessChange (value : Z) (w : World) : World :=
  let w := clear_if_set (brightnessDebounceTimer w) w in
  let '(id, w) := setTimeout (BrightnessCommit value) 50 w in
  put_brightnessDebounceTimer (Some id) w.

Definition refreshBrightness (w : World) : World :=
  await_invoke get_brightness NoArgs in_refreshBrightness w.

Definition add_pending (key : string) (s : State) : State :=
  with_pendingOperations ({[key]} ∪ pendingOperations s) s.

Definition delete_pending (key : string) (s : State) : State :=
  with_pendingOperations (pendingOperations s ∖ {[key]}) s.

Definition toggleWifi (w : World) : World :=
  if decide ("wifi"%string ∈ pendingOperations (state w)) then w else
  let w := update_state (add_pending "wifi") w in
  let newState := negb (wifiEnabled (state w)) in
  let w := update_els (set_wifiTile_enabled newState) w in
  await_invoke set_wifi_enabled (ArgEnabled newState) (in_toggleWifi newState) w.

Definition toggleBluetooth (w : World) : World :=
  if decide ("bluetooth"%string ∈ pendingOperations (state w)) then w else
  let w := update_state (add_pending "bluetooth") w in
  let newState := negb (bluetoothEnabled (state w)) in
  let w := update_els (set_bluetoothTile_enabled newState) w in
  await_invoke set_bluetooth_enabled (ArgEnabled newState) (in_toggleBluetooth newState) w.

Definition toggleNightLight (w : World) : World :=
  if decide ("nightLight"%string ∈ pendingOperations (state w)) then w else
  let w := update_state (add_pending "nightLight") w in
  let newState := negb (nightLightEnabled (state w)) in
  let w := update_els (set_nightLightTile_enabled newState) w in
  await_invoke set_night_light_enabled (ArgEnabled newState) (in_toggleNightLight newState) w.

Definition closeWindow (after : AfterClose) (w : World) : World :=
  await_invoke close_window NoArgs (in_closeWindow after) w.

Definition suspendSystem (w : World) : World :=
  closeWindow ThenSuspend (showToast "Suspending..." "success" w).

Inductive Key := Escape | ArrowUp | ArrowDown | OtherKey.
Inductive Focus := OnVolumeSlider | OnBrightnessSlider | Elsewhere.

(** The arrow keys write the slider and dispatch 'input' and 'change' on it;
    both handlers then read the slider's value. *)
Definition key_adjust_volume (value : Z) (w : World) : World :=
  let w := update_els (set_volumeSlider_value value) w in
  let w := handleVolumeInput (volumeSlider_value (els w)) w in
  handleVolumeChange (volumeSlider_value (els w)) w.

Definition key_adjust_brightness (value : Z) (w : World) : World :=
  let w := update_els (set_brightnessSlider_value value) w in
  let w := handleBrightnessInput (brightnessSlider_value (els w)) w in
  handleBrightnessChange (brightnessSlider_value (els w)) w.

Definition handleKeyDown (key : Key) (active : Focus) (w : World) : World :=
  match key with
  | Escape => closeWindow JustClose w
  | ArrowUp =>
      match active with
      | OnVolumeSlider =>
          key_adjust_volume (Z.min 100 (volumeSlider_value (els w) + 5)) w
      | OnBrightnessSlider =>
          key_adjust_brightness (Z.min 100 (brightnessSlider_value (els w) + 5)) w
      | Elsewhere => w
      end
  | ArrowDown =>
      match active with
      | OnVolumeSlider =>
          key_adjust_volume (Z.max 0 (volumeSlider_value (els w) - 5)) w
      | OnBrightnessSlider =>
          key_adjust_brightness (Z.max 1 (brightnessSlider_value (els w) - 5)) w
      | Elsewhere => w
      end
  | OtherKey => w
  end.

(** ** Handlers, after their await *)

Definition apply_all_states (a : AllStates) (s : State) : State :=
  let n := all_network a in
  with_nightLightEnabled (all_night_light_enabled a)
    (with_bluetoothEnabled (bluetooth_enabled n)
      (with_wifiSsid (wifi_ssid n)
        (with_wifiConnected (wifi_connected n)
          (with_wifiEnabled (wifi_enabled n)
            (with_brightness (all_brightness a)
              (with_muted (all_muted a)
                (with_volume (all_volume a) s))))))).

Definition apply_network (n : NetworkState) (s : State) : State :=
  with_wifiSsid (wifi_ssid n)
    (with_wifiConnected (wifi_connected n)
      (with_wifiEnabled (wifi_enabled n) s)).

(** [resume k r w] runs the rest of the async function [k] stands for, the
    awaited [invoke] having settled as [r].  [None]: the backend answered
    with a value of another shape than its interface promises, which is
    outside this model. *)
Definition resume (k : Cont) (r : Result) (w : World) : option World :=
  match k, r with
  | in_loadInitialState, Resolved (VAllStates a) =>
      Some (hideLoading (updateAllUI (update_state (apply_all_states a) w)))
  | in_loadInitialState, Resolved _ => None
  | in_loadInitialState, Rejected error =>
      let w := console_log ("Failed to load initial state: " ++ error) w in
      Some (hideLoading (showToast "Failed to load system state" "error" w))

  | in_volumeCommit, Resolved _ => Some w
  | in_volumeCommit, Rejected _ => Some (refreshVolume w)

  | in_toggleMute, Resolved (VBool b) =>
      Some (updateVolumeUI (update_state (with_muted b) w))
  | in_toggleMute, Resolved _ => None
  | in_toggleMute, Rejected error =>
      Some (console_log ("Failed to toggle mute: " ++ error) w)

  | in_refreshVolume_volume, Resolved (VNum n) =>
      Some (await_invoke get_mute_status NoArgs in_refreshVolume_muted
              (update_state (with_volume n) w))
  | in_refreshVolume_volume, Resolved _ => None
  | in_refreshVolume_volume, Rejected error =>
      Some (console_log ("Failed to refresh volume: " ++ error) w)

  | in_refreshVolume_muted, Resolved (VBool b) =>
      Some (updateVolumeUI (update_state (with_muted b) w))
  | in_refreshVolume_muted, Resolved _ => None
  | in_refreshVolume_muted, Rejected error =>
      Some (console_log ("Failed to refresh volume: " ++ error) w)

  | in_brightnessCommit, Resolved _ => Some w
  | in_brightnessCommit, Rejected _ => Some (refreshBrightness w)

  | in_refreshBrightness, Resolved (VNum n) =>
      Some (updateBrightnessUI (update_state (with_brightness n) w))
  | in_refreshBrightness, Resolved _ => None
  | in_refreshBrightness, Rejected error =>
      Some (console_log ("Failed to refresh brightness: " ++ error) w)

  | in_toggleWifi newState, Resolved _ =>
      let w := update_state (with_wifiEnabled newState) w in
      let w := snd (setTimeout WifiRefresh 1000 w) in
      Some (update_state (delete_pending "wifi") w)
  | in_toggleWifi _, Rejected _ =>
      let w := update_state (with_wifiEnabled (negb (wifiEnabled (state w)))) w in
      let w := updateWifiUI w in
      Some (update_state (delete_pending "wifi") w)

  | in_wifiRefresh, Resolved (VNetwork n) =>
      Some (updateWifiUI (update_state (apply_network n) w))
  | in_wifiRefresh, Resolved _ => None
  | in_wifiRefresh, Rejected error => Some (unhandled_rejection error w)

  | in_toggleBluetooth newState, Resolved _ =>
      let w := update_state (with_bluetoothEnabled newState) w in
      let w := updateBluetoothUI w in
      Some (update_state (delete_pending "bluetooth") w)
  | in_toggleBluetooth _, Rejected _ =>
      let w := update_state (with_bluetoothEnabled (negb (bluetoothEnabled (state w)))) w in
      let w := updateBluetoothUI w in
      Some (update_state (delete_pending "bluetooth") w)

  | in_toggleNightLight newState, Resolved _ =>
      let w := update_state (with_nightLightEnabled newState) w in
      let w := updateNightLightUI w in
      Some (update_state (delete_pending "nightLight") w)
  | in_toggleNightLight _, Rejected _ =>
      let w := update_state (with_nightLightEnabled (negb (nightLightEnabled (state w)))) w in
      let w := updateNightLightUI w in
      Some (update_state (delete_pending "nightLight") w)

  | in_closeWindow after, _ =>
      let w := match r with
               | Resolved _ => w
               | Rejected error => console_log ("Failed to close window: " ++ error) w
               end in
      match after with
      | JustClose => Some w
      | ThenSuspend => Some (snd (setTimeout Suspend 100 w))
      end

  | in_suspend, Resolved _ => Some w
  | in_suspend, Rejected error => Some (unhandled_rejection error w)
  end.

(** The body of a timer's closure, up to its first await. *)
Definition run_task (t : Task) (w : World) : World :=
  match t with
  | VolumeCommit value => await_invoke set_volume (ArgValue value) in_volumeCommit w
  | BrightnessCommit value => await_invoke set_brightness (ArgValue value) in_brightnessCommit w
  | WifiRefresh => await_invoke get_wifi_status NoArgs in_wifiRefresh w
  | Suspend => await_invoke suspend_system NoArgs in_suspend w
  | HideToast => hide_toast w
  end.

(** ** The event loop *)

Inductive UiEvent :=
  | ClickWifi | ClickBluetooth | ClickNightLight | ClickSuspend
  | ClickMute | ClickClose
  | VolumeInput (value : Z) | VolumeChange (value : Z)
  | BrightnessInput (value : Z) | BrightnessChange (value : Z)
  | KeyDown (key : Key) (active : Focus)
  | WindowShown.

(** The listeners of [setupEventListeners] and [setupTauriEvents].  For a
    slider event the browser has put the new position into the slider
    before the listener runs.  The ripple of a tile click ([addRippleEffect])
    only sets two style properties and is left out. *)
Definition dispatch (e : UiEvent) (w : World) : World :=
  match e with
  | ClickWifi => toggleWifi w
  | ClickBluetooth => toggleBluetooth w
  | ClickNightLight => toggleNightLight w
  | ClickSuspend => suspendSystem w
  | ClickMute => toggleMute w
  | ClickClose => closeWindow JustClose w
  | VolumeInput value =>
      handleVolumeInput value (update_els (set_volumeSlider_value value) w)
  | VolumeChange value =>
      handleVolumeChange value (update_els (set_volumeSlider_value value) w)
  | BrightnessInput value =>
      handleBrightnessInput value (update_els (set_brightnessSlider_value value) w)
  | BrightnessChange value =>
      handleBrightnessChange value (update_els (set_brightnessSlider_value value) w)
  | KeyDown key active => handleKeyDown key active w
  | WindowShown =>
      match bridge w with
      | NoTauri => w
      | _ => loadInitialState (console_log "Window shown, refreshing state" w)
      end
  end.

#[global] Instance AfterClose_eq_dec : EqDecision AfterClose.
Proof. solve_decision. Defined.
#[global] Instance Cont_eq_dec : EqDecision Cont.
Proof. solve_decision. Defined.
#[global] Instance NetworkState_eq_dec : EqDecision NetworkState.
Proof. solve_decision. Defined.
#[global] Instance AllStates_eq_dec : EqDecision AllStates.
Proof. solve_decision. Defined.
#[global] Instance Value_eq_dec : EqDecision Value.
Proof. solve_decision. Defined.
#[global] Instance Result_eq_dec : EqDecision Result.
Proof. solve_decision. Defined.

(** What the loop may do next. *)
Inductive Action :=
  | Wait (d : nat)                      (* time passes *)
  | Timeout (id : positive)             (* a due timer runs *)
  | Ui (e : UiEvent)                    (* a listener runs *)
  | Settle (call : positive) (r : Result).   (* an awaited invoke settles *)

(** A promise that is settled already can only deliver what it holds. *)
Definition delivers (p : Promise) (r : Result) : bool :=
  match p with
  | AwaitsBackend => true
  | Settled r0 => bool_decide (r = r0)
  end.

(** [exec a w] is [None] when the loop cannot take [a] in [w]: the timer is
    not alive or not yet due, no call of that number is awaited, or the
    result is not one the call can have. *)
Definition exec (a : Action) (w : World) : option World :=
  match a with
  | Wait d => Some (put_clock (clock w + d)%nat w)
  | Timeout id =>
      match timers w !! id with
      | Some t =>
          if decide (due t ≤ clock w)%nat
          then Some (run_task (task t) (clearTimeout id w))
          else None
      | None => None
      end
  | Ui e => Some (dispatch e w)
  | Settle call r =>
      match inflight w !! call with
      | Some p =>
          if delivers (p_promise p) r then
            let w := put_inflight (delete call (inflight w)) (nextCall w) w in
            let w := match p_promise p with
                     | AwaitsBackend => invoke_settled (p_command p) r w
                     | Settled _ => w
                     end in
            resume (p_cont p) r w
          else None
      | None => None
      end
  end.

Fixpoint run (acts : list Action) (w : World) : option World :=
  match acts with
  | [] => Some w
  | a :: rest =>
      match exec a w with
      | Some w' => run rest w'
      | None => None
      end
  end.

(** A world at start-up, before anything has happened.  The markup is not
    part of the script; the elements hold what the script would write for
    [initial_state]. *)
Definition blank_elements : Elements :=
  {| wifiTile_enabled := false; bluetoothTile_enabled := false;
     nightLightTile_enabled := false;
     volumeSlider_value := 50; volumeFill_width := 50; volumeValue_text := 50;
     volumeIcon_display := true; volumeMutedIcon_display := false;
     volumeIconBtn_muted := false;
     brightnessSlider_value := 50; brightnessFill_width := 50;
     brightnessValue_text := 50;
     wifiStatus := "Off"; bluetoothStatus := "Off"; nightLightStatus := "Off";
     loadingOverlay_hidden := Some false;
     toast := Some {| textContent := EmptyString; shown := false; severity := "info" |} |}.

Definition boot (b : Bridge) : World :=
  {| state := initial_state; els := blank_elements;
     volumeDebounceTimer := None; brightnessDebounceTimer := None; toastTimer := None;
     bridge := b; clock := 0%nat; timers := ∅; nextTimer := 1%positive;
     inflight := ∅; nextCall := 1%positive; trace := []; console := [];
     unhandled := [] |}.

(** ** The guarded binary controls, by kind *)

Inductive Kind := WiFi | Bluetooth | NightLight.

Definition click (k : Kind) : UiEvent :=
  match k with
  | WiFi => ClickWifi
  | Bluetooth => ClickBluetooth
  | NightLight => ClickNightLight
  end.

(** The key of the control in [state.pendingOperations]. *)
Definition pending_key (k : Kind) : string :=
  match k with
  | WiFi => "wifi"
  | Bluetooth => "bluetooth"
  | NightLight => "nightLight"
  end.

(** The control's boolean in [state]. *)
Definition stored (k : Kind) (s : State) : bool :=
  match k with
  | WiFi => wifiEnabled s
  | Bluetooth => bluetoothEnabled s
  | NightLight => nightLightEnabled s
  end.

(** The [dataset.enabled] attribute of the control's tile. *)
Definition tile (k : Kind) (e : Elements) : bool :=
  match k with
  | WiFi => wifiTile_enabled e
  | Bluetooth => bluetoothTile_enabled e
  | NightLight => nightLightTile_enabled e
  end.

Definition mutation (k : Kind) : Command :=
  match k with
  | WiFi => set_wifi_enabled
  | Bluetooth => set_bluetooth_enabled
  | NightLight => set_night_light_enabled
  end.

Definition rest_of_toggle (k : Kind) (newState : bool) : Cont :=
  match k with
  | WiFi => in_toggleWifi newState
  | Bluetooth => in_toggleBluetooth newState
  | NightLight => in_toggleNightLight newState
  end.

Definition pending (k : Kind) (w : World) : Prop :=
  pending_key k ∈ pendingOperations (state w).

#[global] Instance pending_dec k w : Decision (pending k w).
Proof. unfold pending. apply _. Defined.

(** The call a toggle of [k] makes from world [w]. *)
Definition toggle_call (k : Kind) (w : World) : Call :=
  {| c_time := clock w; c_command := mutation k;
     c_args := ArgEnabled (negb (stored k (state w))) |}.

(** [w'] has the control [k] as [w] has it: the same boolean in the store,
    the same tile, still pending if it was, and the calls that were in
    flight still in flight. *)
Definition calm (k : Kind) (w w' : World) : Prop :=
  stored k (state w') = stored k (state w)
  ∧ tile k (els w') = tile k (els w)
  ∧ (pending k w → pending k w')
  ∧ (nextCall w ≤ nextCall w')%positive
  ∧ ∀ id, (id < nextCall w)%positive → inflight w' !! id = inflight w !! id.

(** The part of the world the guarded controls live in. *)
Definition control_view (w : World) := (state w, els w, inflight w, nextCall w).


(** Does the rest [c] of an async function, resumed with [r], write the
    boolean of control [k] in [state], or its tile?  The rest of a toggle of
    [k] does, however the call settled; so does the rest of
    [loadInitialState] once the snapshot is there, and for WiFi the rest of
    the deferred status fetch once the status is there. *)
Definition rewrites (k : Kind) (c : Cont) (r : Result) : bool :=
  match c, r with
  | in_loadInitialState, Resolved _ => true
  | in_wifiRefresh, Resolved _ => match k with WiFi => true | _ => false end
  | in_toggleWifi _, _ => match k with WiFi => true | _ => false end
  | in_toggleBluetooth _, _ => match k with Bluetooth => true | _ => false end
  | in_toggleNightLight _, _ => match k with NightLight => true | _ => false end
  | _, _ => false
  end.

(** Is [a] the settling of a call whose caller then writes control [k]? *)
Definition disturbs (k : Kind) (a : Action) (w : World) : bool :=
  match a with
  | Settle call r =>
      match inflight w !! call with
      | Some p => rewrites k (p_cont p) r
      | None => false
      end
  | _ => false
  end.

(** No step of [acts], taken from [w] on, disturbs control [k]. *)
Fixpoint undisturbed (k : Kind) (acts : list Action) (w : World) : Prop :=
  match acts with
  | [] => True
  | a :: rest =>
      disturbs k a w = false
      ∧ match exec a w with
        | Some w' => undisturbed k rest w'
        | None => True
        end
  end.

(** The boolean a snapshot of [get_all_states] holds for control [k]. *)
Definition snapshot (k : Kind) (a : AllStates) : bool :=
  match k with
  | WiFi => wifi_enabled (all_network a)
  | Bluetooth => bluetooth_enabled (all_network a)
  | NightLight => all_night_light_enabled a
  end.

(** [w'] has the control [k] as [w] has it, and the call numbered [c], if
    it has been made, is awaited in [w'] as it is in [w]. *)
Definition steady (k : Kind) (c : positive) (w w' : World) : Prop :=
  stored k (state w') = stored k (state w)
  ∧ tile k (els w') = tile k (els w)
  ∧ (pending k w → pending k w')
  ∧ (nextCall w ≤ nextCall w')%positive
  ∧ ((c < nextCall w)%positive → inflight w' !! c = inflight w !! c).





(** ** The sliders *)

Inductive Slider := Volume | Brightness.

(** The 'change' event of the slider (the settle signal). *)
Definition commit (s : Slider) (value : Z) : UiEvent :=
  match s with
  | Volume => VolumeChange value
  | Brightness => BrightnessChange value
  end.

(** The 'input' event of the slider (raw drag input). *)
Definition raw (s : Slider) (value : Z) : UiEvent :=
  match s with
  | Volume => VolumeInput value
  | Brightness => BrightnessInput value
  end.

Definition mutator (s : Slider) : Command :=
  match s with
  | Volume => set_volume
  | Brightness => set_brightness
  end.

Definition commit_task (s : Slider) (value : Z) : Task :=
  match s with
  | Volume => VolumeCommit value
  | Brightness => BrightnessCommit value
  end.

(** The slider's number in [state]. *)
Definition level (s : Slider) (st : State) : Z :=
  match s with
  | Volume => volume st
  | Brightness => brightness st
  end.

Definition debounceTimer (s : Slider) (w : World) : option positive :=
  match s with
  | Volume => volumeDebounceTimer w
  | Brightness => brightnessDebounceTimer w
  end.

(** The call a debounce timer of [s] makes when it runs at time [t]. *)
Definition commit_call (s : Slider) (t : nat) (value : Z) : Call :=
  {| c_time := t; c_command := mutator s; c_args := ArgValue value |}.

(** Dragging: raw input on the slider, and time passing. *)
Definition drag_action (s : Slider) (a : Action) : Prop :=
  match a with
  | Wait _ => True
  | Ui e => ∃ value, e = raw s value
  | _ => False
  end.

(** The time that passes during [acts]. *)
Fixpoint total_wait (acts : list Action) : nat :=
  match acts with
  | [] => 0
  | Wait d :: rest => d + total_wait rest
  | _ :: rest => total_wait rest
  end.

(** The number the store holds for [s] after the raw inputs of [acts],
    having held [before]. *)
Fixpoint dragged_to (s : Slider) (acts : list Action) (before : Z) : Z :=
  match acts with
  | [] => before
  | Ui (VolumeInput value) :: rest =>
      dragged_to s rest (match s with Volume => value | Brightness => before end)
  | Ui (BrightnessInput value) :: rest =>
      dragged_to s rest (match s with Volume => before | Brightness => value end)
  | _ :: rest => dragged_to s rest before
  end.

(** The clamps the tests of the repository state for the two sliders. *)
Definition clampVolume (v : Z) : Z := Z.max 0 (Z.min 100 v).
Definition clampBrightness (v : Z) : Z := Z.max 1 (Z.min 100 v).

(** ** Bursts of 'change' events *)

(** Is [t] the closure of a 'change' event of slider [s]? *)
Definition is_commit (s : Slider) (t : Task) : bool :=
  match s, t with
  | Volume, VolumeCommit _ => true
  | Brightness, BrightnessCommit _ => true
  | _, _ => false
  end.

(** The mutations of slider [s] delegated so far, oldest first. *)
Definition sent (s : Slider) (w : World) : list Call :=
  filter (λ c, c_command c = mutator s) (trace w).

(** The part of the world the timers live in. *)
Definition timer_view (w : World) :=
  (timers w, nextTimer w, volumeDebounceTimer w, brightnessDebounceTimer w,
   toastTimer w, clock w, trace w).

(** A timer variable holds a handle that has been given out, and if that
    timer is still alive it is a timer of the variable's own kind. *)
Definition refers_to (var : option positive) (kind : Task → Prop) (w : World) : Prop :=
  ∀ id, var = Some id →
    (id < nextTimer w)%positive
    ∧ ∀ t, timers w !! id = Some t → kind (task t).

(** Handles are given out in increasing order and never reused. *)
Definition wf (w : World) : Prop :=
  (∀ id t, timers w !! id = Some t → (id < nextTimer w)%positive)
  ∧ refers_to (toastTimer w) (λ t, t = HideToast) w
  ∧ refers_to (volumeDebounceTimer w) (λ t, is_commit Volume t = true) w
  ∧ refers_to (brightnessDebounceTimer w) (λ t, is_commit Brightness t = true) w.

(** No timer of slider [s] is alive. *)
Definition idle (s : Slider) (w : World) : Prop :=
  ∀ id t, timers w !! id = Some t → is_commit s (task t) = false.

(** Exactly one timer of slider [s] is alive: the one its variable holds,
    started [elapsed] units ago by a 'change' event carrying [value]. *)
Definition armed (s : Slider) (value : Z) (elapsed : nat) (w : World) : Prop :=
  ∃ id t,
    debounceTimer s w = Some id
    ∧ timers w !! id = Some t
    ∧ task t = commit_task s value
    ∧ (due t + elapsed = clock w + 50)%nat
    ∧ ∀ id' t', timers w !! id' = Some t' → is_commit s (task t') = true → id' = id.

(** [w'] differs from [w] in nothing that matters to slider [s]. *)
Definition keeps (s : Slider) (w w' : World) : Prop :=
  wf w'
  ∧ clock w' = clock w
  ∧ debounceTimer s w' = debounceTimer s w
  ∧ sent s w' = sent s w
  ∧ ∀ id t, is_commit s (task t) = true →
            (timers w' !! id = Some t ↔ timers w !! id = Some t).

(** The slider's 'change' listener. *)
Definition handleChange (s : Slider) : Z → World → World :=
  match s with
  | Volume => handleVolumeChange
  | Brightness => handleBrightnessChange
  end.

(** The number the 'change' listener of slider [s] is run with when event
    [e] arrives in world [w]: the number of the slider's 'change' event, or
    the position an arrow key moves the focused slider to. *)
Definition commit_of (s : Slider) (e : UiEvent) (w : World) : option Z :=
  match s, e with
  | Volume, VolumeChange value => Some value
  | Volume, KeyDown ArrowUp OnVolumeSlider =>
      Some (Z.min 100 (volumeSlider_value (els w) + 5))
  | Volume, KeyDown ArrowDown OnVolumeSlider =>
      Some (Z.max 0 (volumeSlider_value (els w) - 5))
  | Brightness, BrightnessChange value => Some value
  | Brightness, KeyDown ArrowUp OnBrightnessSlider =>
      Some (Z.min 100 (brightnessSlider_value (els w) + 5))
  | Brightness, KeyDown ArrowDown OnBrightnessSlider =>
      Some (Z.max 1 (brightnessSlider_value (els w) - 5))
  | _, _ => None
  end.

(** The burst so far: nothing yet, or the number the 'change' listener was
    last run with and the time since. *)
Definition Burst : Type := option (Z * nat).

Definition observe (s : Slider) (a : Action) (w : World) (b : Burst) : Burst :=
  match a with
  | Wait d =>
      match b with
      | Some (value, elapsed) => Some (value, (elapsed + d)%nat)
      | None => None
      end
  | Ui e =>
      match commit_of s e w with
      | Some value => Some (value, 0%nat)
      | None => b
      end
  | _ => b
  end.

(** The action keeps the burst a burst: when it runs the 'change' listener
    of [s], less than the quiet period of 50 has passed since the listener
    last ran. *)
Definition in_burst (s : Slider) (a : Action) (w : World) (b : Burst) : Prop :=
  match a with
  | Ui e =>
      match commit_of s e w, b with
      | Some _, Some (_, elapsed) => (elapsed < 50)%nat
      | _, _ => True
      end
  | _ => True
  end.

Fixpoint burst_ok (s : Slider) (acts : list Action) (w : World) (b : Burst) : Prop :=
  match acts with
  | [] => True
  | a :: rest =>
      in_burst s a w b
      ∧ match exec a w with
        | Some w' => burst_ok s rest w' (observe s a w b)
        | None => True
        end
  end.

(** [run], watching the burst of slider [s] on the way. *)
Fixpoint follow (s : Slider) (acts : list Action) (w : World) (b : Burst)
    : option (World * Burst) :=
  match acts with
  | [] => Some (w, b)
  | a :: rest =>
      match exec a w with
      | Some w' => follow s rest w' (observe s a w b)
      | None => None
      end
  end.

(** Where the slider stands after a burst that began in [w0]: nothing sent
    and a single timer waiting, or the timer has run and the one call is in
    the trace, made no earlier than 50 after the last 'change' event. *)
Definition coalesced (s : Slider) (w0 : World) (b : Burst) (w : World) : Prop :=
  match b with
  | None => idle s w ∧ sent s w = sent s w0
  | Some (value, elapsed) =>
      (armed s value elapsed w ∧ sent s w = sent s w0)
      ∨ (idle s w
         ∧ ∃ t, sent s w = sent s w0 ++ [commit_call s t value]
                ∧ (clock w + 50 ≤ t + elapsed)%nat
                ∧ (t ≤ clock w)%nat)
  end.

(** ** Helpers of the test suite *)

(** [getWifiStatusText] of the tests. *)
Definition getWifiStatusText (enabled connected : bool) (ssid : option string) : string :=
  if enabled && connected && truthy ssid then default EmptyString ssid
  else if enabled then "On"
  else "Off".

(** [adjustValue] of the tests. *)
Definition adjustValue (current : Z) (key : Key) (min max step : Z) : Z :=
  match key with
  | ArrowUp => Z.min max (current + step)
  | ArrowDown => Z.max min (current - step)
  | _ => current
  end.

(** [canToggle] of the tests, with the set it closes over made explicit: may
    the operation start, and the set afterwards. *)
Definition canToggle (operation : string) (pendingOperations : gset string)
    : bool * gset string :=
  if decide (operation ∈ pendingOperations) then (false, pendingOperations)
  else (true, {[operation]} ∪ pendingOperations).

(** [String.prototype.includes]: does [needle] occur somewhere in [hay]? *)
Fixpoint includes (needle hay : string) : bool :=
  if String.prefix needle hay then true
  else match hay with
       | EmptyString => false
       | String _ rest => includes needle rest
       end.

(** [formatError] of the tests. *)
Definition formatError (error : string) : string :=
  if includes "Command not found" error then "Required tool not installed"
  else if includes "Permission denied" error
       then "Permission denied - check user permissions"
       else "Error: " ++ error.

(** ** The page against the store *)


(** The bridge is there and does not throw when called. *)
Definition working (b : Bridge) : Prop := b = TauriV2 None ∨ b = TauriV1 None.

(** The slider an arrow key moves when it has the focus, its position on
    the page, and the least value the keyboard lets it take. *)
Definition focus_on (s : Slider) : Focus :=
  match s with
  | Volume => OnVolumeSlider
  | Brightness => OnBrightnessSlider
  end.

Definition slider_position (s : Slider) (e : Elements) : Z :=
  match s with
  | Volume => volumeSlider_value e
  | Brightness => brightnessSlider_value e
  end.

Definition slider_shown (s : Slider) (e : Elements) : Z * Z :=
  match s with
  | Volume => (volumeFill_width e, volumeValue_text e)
  | Brightness => (brightnessFill_width e, brightnessValue_text e)
  end.

Definition key_floor (s : Slider) : Z :=
  match s with
  | Volume => 0
  | Brightness => 1
  end.

(** ** Where the event loop starts *)

(** The page once the 'DOMContentLoaded' listener has run up to its await:
    the elements cached, the listeners set and the first fetch under way.
    What the listener does after the fetch is to listen for 'window-shown'
    and to call [hideLoading] a second time, which changes nothing after the
    one of [loadInitialState].  [dispatch] hears 'window-shown' from the
    start, which only adds behaviours. *)
Definition loaded (b : Bridge) : World := loadInitialState (boot b).

(** The page as built, or with the first fetch under way. *)
Definition at_start (b : Bridge) (w : World) : Prop := w = boot b ∨ w = loaded b.

(** ** One call per guarded control *)

#[global] Instance Kind_eq_dec : EqDecision Kind.
Proof. solve_decision. Defined.

(** Is [c] the rest of a toggle of control [k]? *)
Definition is_toggle (k : Kind) (c : Cont) : bool :=
  match k, c with
  | WiFi, in_toggleWifi _ => true
  | Bluetooth, in_toggleBluetooth _ => true
  | NightLight, in_toggleNightLight _ => true
  | _, _ => false
  end.

(** The awaited calls of control [k] among the calls in flight. *)
Definition awaited (k : Kind) (m : gmap positive Pending) : gmap positive Pending :=
  filter (λ ip, is_toggle k (p_cont ip.2) = true) m.

(** What the guards live in: the calls in flight, the next call number and
    the pending keys. *)
Definition calls_view (w : World) : gmap positive Pending * positive * gset string :=
  (inflight w, nextCall w, pendingOperations (state w)).

(** A caller parked under the next call number. *)
Definition parked (p : Pending) (v : gmap positive Pending * positive * gset string)
    : gmap positive Pending * positive * gset string :=
  (<[v.1.2 := p]> v.1.1, Pos.succ v.1.2, v.2).

(** The guard of control [k] holds: call numbers from the next one on are
    unused; when the key is pending exactly one call of the control is
    awaited, and it is the control's mutation; when the key is free none
    is. *)
Definition guard_ok (k : Kind) (v : gmap positive Pending * positive * gset string) : Prop :=
  (∀ id, (v.1.2 ≤ id)%positive → v.1.1 !! id = None)
  ∧ if decide (pending_key k ∈ v.2)
    then ∃ call p, awaited k v.1.1 = {[call := p]} ∧ p_command p = mutation k
    else awaited k v.1.1 = ∅.

Definition guarded (k : Kind) (w : World) : Prop := guard_ok k (calls_view w).

(** A step that leaves the calls and the keys alone, or parks one caller
    that is not the rest of a guarded toggle. *)
Definition plain_step (w w' : World) : Prop :=
  calls_view w' = calls_view w
  ∨ ∃ P, (∀ k, is_toggle k (p_cont P) = false) ∧ calls_view w' = parked P (calls_view w).

(** ** Deferred calls *)

(** The two calls the script defers with a timer: [suspend_system], 100
    after [close_window] has settled in [suspendSystem], and
    [get_wifi_status], 1000 after [set_wifi_enabled] has resolved in
    [toggleWifi]. *)
Inductive Deferral := SuspendAfterClose | RefreshAfterWifi.

(** The call that has to come first. *)
Definition trigger (d : Deferral) : Command :=
  match d with
  | SuspendAfterClose => close_window
  | RefreshAfterWifi => set_wifi_enabled
  end.

(** The call that is deferred. *)
Definition deferred (d : Deferral) : Command :=
  match d with
  | SuspendAfterClose => suspend_system
  | RefreshAfterWifi => get_wifi_status
  end.

Definition delay (d : Deferral) : nat :=
  match d with
  | SuspendAfterClose => 100
  | RefreshAfterWifi => 1000
  end.

(** Is [t] the timer closure that makes the deferred call? *)
Definition is_deferral (d : Deferral) (t : Task) : bool :=
  match d, t with
  | SuspendAfterClose, Suspend => true
  | RefreshAfterWifi, WifiRefresh => true
  | _, _ => false
  end.

(** Is [c] the rest of the function that starts the timer? *)
Definition starts (d : Deferral) (c : Cont) : bool :=
  match d, c with
  | SuspendAfterClose, in_closeWindow ThenSuspend => true
  | RefreshAfterWifi, in_toggleWifi _ => true
  | _, _ => false
  end.

(** The trigger has been called, no later than [by_time]. *)
Definition triggered (d : Deferral) (by_time : nat) (w : World) : Prop :=
  ∃ c, c ∈ trace w ∧ c_command c = trigger d ∧ (c_time c ≤ by_time)%nat.

(** Every deferred call made so far, every timer that will make one and
    every function that will start such a timer has its trigger behind it. *)
Definition ordered (d : Deferral) (w : World) : Prop :=
  (∀ c, c ∈ trace w → (c_time c ≤ clock w)%nat)
  ∧ (∀ id p, inflight w !! id = Some p → starts d (p_cont p) = true →
             triggered d (clock w) w)
  ∧ (∀ id t, timers w !! id = Some t → is_deferral d (task t) = true →
             ∃ n, triggered d n w ∧ (n + delay d ≤ due t)%nat)
  ∧ (∀ c, c ∈ trace w → c_command c = deferred d →
          ∃ n, triggered d n w ∧ (n + delay d ≤ c_time c)%nat).

(** The part of the world the deferred calls live in. *)
Definition order_view (w : World) := (clock w, trace w, timers w, inflight w).

(** ** Pages without a bridge *)

(** Nothing has failed on a page without a bridge: every awaited promise
    is resolved already, no rejection is unhandled and the toast shows no
    error. *)
Definition mock_ok (w : World) : Prop :=
  bridge w = NoTauri
  ∧ (∀ id p, inflight w !! id = Some p → ∃ v, p_promise p = Settled (Resolved v))
  ∧ unhandled w = []
  ∧ (∀ t, toast (els w) = Some t → severity t ≠ "error"%string).

(** The part of the world [mock_ok] reads. *)
Definition mock_view (w : World) := (bridge w, inflight w, unhandled w, toast (els w)).

(** ** One debounce timer per slider *)

(** Whatever timer of slider [s] is alive is the one its variable holds. *)
Definition single_timer (s : Slider) (w : World) : Prop :=
  wf w
  ∧ ∀ id t, timers w !! id = Some t → is_commit s (task t) = true →
            debounceTimer s w = Some id.

(** ** Who asked for a mutation *)

(** The commands that change the system, as opposed to the [get_*]
    commands that read it. *)
Definition is_mutation (m : Command) : bool :=
  match m with
  | set_volume | toggle_mute | set_brightness | set_wifi_enabled
  | set_bluetooth_enabled | set_night_light_enabled | suspend_system | close_window => true
  | _ => false
  end.

(** Can the listener of event [e] lead to command [m] being sent, at once
    or through a timer? *)
Definition causes (e : UiEvent) (m : Command) : bool :=
  match m, e with
  | set_wifi_enabled, ClickWifi => true
  | set_bluetooth_enabled, ClickBluetooth => true
  | set_night_light_enabled, ClickNightLight => true
  | toggle_mute, ClickMute => true
  | suspend_system, ClickSuspend => true
  | close_window, ClickClose => true
  | close_window, ClickSuspend => true
  | close_window, KeyDown Escape _ => true
  | set_volume, VolumeChange _ => true
  | set_volume, KeyDown ArrowUp OnVolumeSlider => true
  | set_volume, KeyDown ArrowDown OnVolumeSlider => true
  | set_brightness, BrightnessChange _ => true
  | set_brightness, KeyDown ArrowUp OnBrightnessSlider => true
  | set_brightness, KeyDown ArrowDown OnBrightnessSlider => true
  | _, _ => false
  end.

(** Does the closure of timer [t] send [m]? *)
Definition task_sends (t : Task) (m : Command) : bool :=
  match t, m with
  | VolumeCommit _, set_volume => true
  | BrightnessCommit _, set_brightness => true
  | WifiRefresh, get_wifi_status => true
  | Suspend, suspend_system => true
  | _, _ => false
  end.

(** Will the rest of the function start a timer that sends [m], or send it
    itself? *)
Definition cont_sends (c : Cont) (m : Command) : bool :=
  match c, m with
  | in_closeWindow ThenSuspend, suspend_system => true
  | in_toggleWifi _, get_wifi_status => true
  | in_volumeCommit, get_volume => true
  | in_volumeCommit, get_mute_status => true
  | in_refreshVolume_volume, get_mute_status => true
  | in_brightnessCommit, get_brightness => true
  | _, _ => false
  end.

(** Nothing of [m] is there: no such call has been made, no timer will
    send it and no awaited function will. *)
Definition clean (m : Command) (w : World) : Prop :=
  (∀ c, c ∈ trace w → c_command c ≠ m)
  ∧ (∀ id t, timers w !! id = Some t → task_sends (task t) m = false)
  ∧ (∀ id p, inflight w !! id = Some p → cont_sends (p_cont p) m = false).

(** Is there an event among [acts] whose listener can lead to [m]? *)
Definition asked_for (m : Command) (acts : list Action) : bool :=
  existsb (λ a, match a with Ui e => causes e m | _ => false end) acts.

(** ** At most one call per event *)

(** The calls of [m] made so far, the timers alive that will send [m] and
    the awaited functions that will. *)
Definition calls_of (m : Command) (w : World) : nat :=
  length (filter (λ c, c_command c = m) (trace w)).

Definition timers_for (m : Command) (w : World) : nat :=
  size (filter (λ it : positive * Timer, task_sends (task it.2) m = true) (timers w)).

Definition waiting_for (m : Command) (w : World) : nat :=
  size (filter (λ ip : positive * Pending, cont_sends (p_cont ip.2) m = true) (inflight w)).

(** What has been sent of [m] and what is still to be sent. *)
Definition owed (m : Command) (w : World) : nat :=
  (calls_of m w + timers_for m w + waiting_for m w)%nat.

(** Does the action deliver an event whose listener can lead to [m]? *)
Definition asks_for (m : Command) (a : Action) : bool :=
  match a with
  | Ui e => causes e m
  | _ => false
  end.

(** The number of such events among [acts]. *)
Definition asks (m : Command) (acts : list Action) : nat :=
  length (filter (λ a, asks_for m a = true) acts).

(** * Properties *)

(** ** What [await invoke] leaves alone *)

Ltac open_toast w :=
  unfold showToast, clear_if_set;
  destruct (toast (els w)); [destruct (toastTimer w) |].

Lemma showToast_state message type w : state (showToast message type w) = state w.
Proof. open_toast w; reflexivity. Qed.

Lemma showToast_trace message type w : trace (showToast message type w) = trace w.
Proof. open_toast w; reflexivity. Qed.

Lemma showToast_inflight message type w :
  inflight (showToast message type w) = inflight w
  ∧ nextCall (showToast message type w) = nextCall w.
Proof. open_toast w; split; reflexivity. Qed.

Lemma showToast_tiles message type w k :
  tile k (els (showToast message type w)) = tile k (els w).
Proof. open_toast w; destruct k; reflexivity. Qed.

Lemma showToast_toast message type w t :
  toast (els w) = Some t →
  toast (els (showToast message type w))
  = Some {| textContent := message; shown := true; severity := type |}.
Proof.
  intros Ht. unfold showToast, clear_if_set. rewrite Ht.
  destruct (toastTimer w); reflexivity.
Qed.

Ltac by_bridge w :=
  unfold await_invoke, invoke, invoke_body, async;
  destruct (bridge w) as [[error|]|[error|]|]; cbn -[showToast].

Lemma await_invoke_state command args k w :
  state (await_invoke command args k w) = state w.
Proof. by_bridge w; unfold invoke_catch; rewrite ?showToast_state; reflexivity. Qed.

Lemma await_invoke_trace command args k w :
  trace (await_invoke command args k w)
  = trace w ++ [{| c_time := clock w; c_command := command; c_args := args |}].
Proof. by_bridge w; unfold invoke_catch; rewrite ?showToast_trace; reflexivity. Qed.

Lemma await_invoke_tiles command args k w kind :
  tile kind (els (await_invoke command args k w)) = tile kind (els w).
Proof.
  by_bridge w; unfold invoke_catch; rewrite ?showToast_tiles; destruct kind; reflexivity.
Qed.

(** The caller is parked under the call number that was next. *)
Lemma await_invoke_parks command args k w :
  ∃ p, inflight (await_invoke command args k w) !! nextCall w
       = Some {| p_command := command; p_promise := p; p_cont := k |}
       ∧ (bridge w = TauriV2 None ∨ bridge w = TauriV1 None → p = AwaitsBackend).
Proof.
  by_bridge w; unfold invoke_catch;
    try (destruct (showToast_inflight ("Error: " ++ error) "error"
                     (console_log
                        ("Command " ++ command_name command ++ " failed: " ++ error)
                        (delegate command args w))) as [_ ->]);
    cbn; rewrite lookup_insert_eq; eexists; (split; [reflexivity|]);
    intros [?|?]; congruence.
Qed.

(** A toggle that finds its key pending does nothing at all. *)
Lemma toggle_pending_noop k w : pending k w → dispatch (click k) w = w.
Proof.
  unfold pending. intros Hp.
  destruct k; cbn in *;
    [unfold toggleWifi | unfold toggleBluetooth | unfold toggleNightLight];
    rewrite decide_True by exact Hp; reflexivity.
Qed.

(** What the synchronous part of a toggle does when its key is free. *)
Lemma toggle_free k w :
  ¬ pending k w →
  dispatch (click k) w
  = await_invoke (mutation k) (ArgEnabled (negb (stored k (state w))))
      (rest_of_toggle k (negb (stored k (state w))))
      (update_els (match k with
                   | WiFi => set_wifiTile_enabled
                   | Bluetooth => set_bluetoothTile_enabled
                   | NightLight => set_nightLightTile_enabled
                   end (negb (stored k (state w))))
         (update_state (add_pending (pending_key k)) w)).
Proof.
  unfold pending. intros Hp.
  destruct k; cbn in *;
    [unfold toggleWifi | unfold toggleBluetooth | unfold toggleNightLight];
    rewrite decide_False by exact Hp; reflexivity.
Qed.

Lemma toggle_sets_pending k w : ¬ pending k w → pending k (dispatch (click k) w).
Proof.
  intros Hp. rewrite (toggle_free k w Hp). unfold pending.
  rewrite await_invoke_state. destruct k; cbn; set_solver.
Qed.

Lemma toggle_keeps_stored k w :
  stored k (state (dispatch (click k) w)) = stored k (state w).
Proof.
  destruct (decide (pending k w)) as [Hp|Hp].
  - rewrite toggle_pending_noop by exact Hp. reflexivity.
  - rewrite (toggle_free k w Hp), await_invoke_state. destruct k; reflexivity.
Qed.

(** ** What leaves a guarded control alone *)

Lemma calm_refl k w : calm k w w.
Proof. unfold calm. repeat split; auto. lia. Qed.

Lemma calm_trans k w1 w2 w3 : calm k w1 w2 → calm k w2 w3 → calm k w1 w3.
Proof.
  intros (Hs & Ht & Hp & Hn & Hi) (Hs' & Ht' & Hp' & Hn' & Hi').
  unfold calm. rewrite Hs', Ht', Hs, Ht. repeat split; auto; [lia|].
  intros id Hid. rewrite Hi' by lia. apply Hi, Hid.
Qed.

Lemma calm_after k (f : World → World) :
  (∀ w, calm k w (f w)) → ∀ w w1, calm k w w1 → calm k w (f w1).
Proof. intros Hf w w1 H. exact (calm_trans k w w1 _ H (Hf w1)). Qed.

Lemma calm_of_view k w w' : control_view w' = control_view w → calm k w w'.
Proof.
  unfold control_view. intros [= Hs He Hi Hn].
  unfold calm, pending. rewrite Hs, He, Hi, Hn. repeat split; auto. lia.
Qed.

Lemma calm_update_state k f w :
  (∀ s, stored k (f s) = stored k s) →
  (∀ s, pending_key k ∈ pendingOperations s → pending_key k ∈ pendingOperations (f s)) →
  calm k w (update_state f w).
Proof.
  intros Hs Hp. unfold calm, pending. cbn. rewrite Hs. repeat split; auto. lia.
Qed.

Lemma calm_update_els k f w :
  (∀ e, tile k (f e) = tile k e) → calm k w (update_els f w).
Proof. intros He. unfold calm, pending. cbn. rewrite He. repeat split; auto. lia. Qed.

Lemma calm_showToast k message type w : calm k w (showToast message type w).
Proof.
  destruct (showToast_inflight message type w) as [Hi Hn].
  unfold calm, pending.
  rewrite showToast_state, showToast_tiles, Hi, Hn. repeat split; auto. lia.
Qed.

Lemma calm_hide_toast k w : calm k w (hide_toast w).
Proof.
  unfold hide_toast. destruct (toast (els w)); [|apply calm_refl].
  apply calm_update_els. destruct k; reflexivity.
Qed.

Lemma calm_showLoading k w : calm k w (showLoading w).
Proof.
  unfold showLoading. cbv zeta.
  assert (H1 : calm k w (update_state (with_isLoading true) w)).
  { apply calm_update_state; [destruct k; reflexivity | auto]. }
  cbn [els update_state put_state].
  destruct (loadingOverlay_hidden (els w)); [|exact H1].
  refine (calm_after k (update_els _) _ _ _ H1).
  intros w1. apply calm_update_els. destruct k; reflexivity.
Qed.

Lemma calm_handleVolumeInput k v w : calm k w (handleVolumeInput v w).
Proof.
  unfold handleVolumeInput. cbv zeta.
  refine (calm_after k (update_els _) _ _ _ _).
  - intros w1. apply calm_update_els. destruct k; reflexivity.
  - apply calm_update_state; [destruct k; reflexivity | auto].
Qed.

Lemma calm_handleBrightnessInput k v w : calm k w (handleBrightnessInput v w).
Proof.
  unfold handleBrightnessInput. cbv zeta.
  refine (calm_after k (update_els _) _ _ _ _).
  - intros w1. apply calm_update_els. destruct k; reflexivity.
  - apply calm_update_state; [destruct k; reflexivity | auto].
Qed.

Lemma calm_handleVolumeChange k v w : calm k w (handleVolumeChange v w).
Proof.
  apply calm_of_view. unfold handleVolumeChange, clear_if_set.
  destruct (volumeDebounceTimer w); reflexivity.
Qed.

Lemma calm_handleBrightnessChange k v w : calm k w (handleBrightnessChange v w).
Proof.
  apply calm_of_view. unfold handleBrightnessChange, clear_if_set.
  destruct (brightnessDebounceTimer w); reflexivity.
Qed.

Lemma await_invoke_nextCall command args k w :
  nextCall (await_invoke command args k w) = Pos.succ (nextCall w).
Proof.
  by_bridge w; unfold invoke_catch;
    try (destruct (showToast_inflight ("Error: " ++ error) "error"
                     (console_log
                        ("Command " ++ command_name command ++ " failed: " ++ error)
                        (delegate command args w))) as [_ ->]);
    reflexivity.
Qed.

Lemma await_invoke_inflight command args k w id :
  id ≠ nextCall w →
  inflight (await_invoke command args k w) !! id = inflight w !! id.
Proof.
  intros Hne.
  by_bridge w; unfold invoke_catch;
    try (destruct (showToast_inflight ("Error: " ++ error) "error"
                     (console_log
                        ("Command " ++ command_name command ++ " failed: " ++ error)
                        (delegate command args w))) as [-> ->]);
    cbn; rewrite lookup_insert_ne by congruence; reflexivity.
Qed.

Lemma calm_await_invoke k command args c w : calm k w (await_invoke command args c w).
Proof.
  unfold calm, pending.
  rewrite await_invoke_state, await_invoke_tiles, await_invoke_nextCall.
  repeat split; auto; [lia|].
  intros id Hid. apply await_invoke_inflight. lia.
Qed.

(** Chaining the lemmas above along the way a handler is written. *)
Ltac calm_chain :=
  lazymatch goal with
  | |- calm _ ?w ?w => apply calm_refl
  | |- calm ?k ?w0 (update_state ?f ?w1) =>
      refine (calm_after k (update_state f)
                (λ w, calm_update_state k f w _ _) w0 w1 _);
      [ intros; reflexivity
      | intros ? ?; cbn; set_solver
      | calm_chain ]
  | |- calm ?k ?w0 (update_els ?f ?w1) =>
      refine (calm_after k (update_els f) (λ w, calm_update_els k f w _) w0 w1 _);
      [ intros; reflexivity | calm_chain ]
  | |- calm ?k ?w0 (console_log ?m ?w1) =>
      refine (calm_after k (console_log m) (λ w, calm_of_view k w _ eq_refl) w0 w1 _);
      calm_chain
  | |- calm ?k ?w0 (showToast ?m ?t ?w1) =>
      refine (calm_after k (showToast m t) (calm_showToast k m t) w0 w1 _); calm_chain
  | |- calm ?k ?w0 (hide_toast ?w1) =>
      refine (calm_after k hide_toast (calm_hide_toast k) w0 w1 _); calm_chain
  | |- calm ?k ?w0 (showLoading ?w1) =>
      refine (calm_after k showLoading (calm_showLoading k) w0 w1 _); calm_chain
  | |- calm ?k ?w0 (handleVolumeInput ?v ?w1) =>
      refine (calm_after k (handleVolumeInput v) (calm_handleVolumeInput k v) w0 w1 _);
      calm_chain
  | |- calm ?k ?w0 (handleBrightnessInput ?v ?w1) =>
      refine (calm_after k (handleBrightnessInput v) (calm_handleBrightnessInput k v)
                w0 w1 _);
      calm_chain
  | |- calm ?k ?w0 (handleVolumeChange ?v ?w1) =>
      refine (calm_after k (handleVolumeChange v) (calm_handleVolumeChange k v) w0 w1 _);
      calm_chain
  | |- calm ?k ?w0 (handleBrightnessChange ?v ?w1) =>
      refine (calm_after k (handleBrightnessChange v) (calm_handleBrightnessChange k v)
                w0 w1 _);
      calm_chain
  | |- calm ?k ?w0 (await_invoke ?c ?a ?r ?w1) =>
      refine (calm_after k (await_invoke c a r) (calm_await_invoke k c a r) w0 w1 _);
      calm_chain
  end.

(** No listener touches a control whose toggle is pending. *)
Lemma calm_dispatch k e w : pending k w → calm k w (dispatch e w).
Proof.
  intros Hp.
  assert (Hself : calm k w (dispatch (click k) w)).
  { rewrite toggle_pending_noop by exact Hp. apply calm_refl. }
  destruct e; cbn [dispatch]; destruct k; try exact Hself;
    try (destruct key, active; cbn [handleKeyDown]);
    unfold toggleWifi, toggleBluetooth, toggleNightLight, suspendSystem, toggleMute,
      closeWindow, loadInitialState, key_adjust_volume, key_adjust_brightness;
    cbv zeta;
    repeat match goal with
      | |- context [decide ?P] => destruct (decide P)
      | |- context [bridge w] => destruct (bridge w)
      end;
    calm_chain.
Qed.

Lemma calm_run_task k t w : calm k w (run_task t w).
Proof. destruct t; cbn [run_task]; calm_chain. Qed.

(** What the rest of a toggle stores when the call went through. *)
Lemma rest_of_toggle_resolved k newState v w :
  ∃ w', resume (rest_of_toggle k newState) (Resolved v) w = Some w'
        ∧ stored k (state w') = newState.
Proof. destruct k; cbn; eexists; split; reflexivity. Qed.

(** What the rest of a toggle stores when the call failed: the negation of
    what the store holds then. *)
Lemma rest_of_toggle_rejected k newState error w :
  ∃ w', resume (rest_of_toggle k newState) (Rejected error) w = Some w'
        ∧ stored k (state w') = negb (stored k (state w))
        ∧ tile k (els w') = negb (stored k (state w)).
Proof.
  destruct k; cbn; eexists; (split; [reflexivity|]).
  - unfold updateWifiUI. cbn.
    destruct (negb (wifiEnabled (state w)) && wifiConnected (state w)
              && truthy (wifiSsid (state w)));
      [|destruct (negb (wifiEnabled (state w)))]; split; reflexivity.
  - split; reflexivity.
  - split; reflexivity.
Qed.

(** C2 (guarded toggle, mutual exclusion).  A toggle of WiFi, Bluetooth or
    NightLight that finds its key in [pendingOperations] returns the world
    it was given: no state change, no change of the page, no call.  Hence of
    two toggles issued back to back from a free control the second changes
    nothing, and the trace gains exactly one call, the mutation of the
    first. *)
Theorem guarded_toggle_serialized (k : Kind) (w : World) :
  ¬ pending k w →
  (∀ w', pending k w' → dispatch (click k) w' = w')
  ∧ pending k (dispatch (click k) w)
  ∧ run [Ui (click k); Ui (click k)] w = run [Ui (click k)] w
  ∧ ∃ w2, run [Ui (click k); Ui (click k)] w = Some w2
          ∧ trace w2 = trace w ++ [toggle_call k w].
Proof.
  intros Hfree.
  pose proof (toggle_sets_pending k w Hfree) as Hp.
  split; [intros w'; apply toggle_pending_noop|].
  split; [exact Hp|].
  cbn -[dispatch]. rewrite (toggle_pending_noop k _ Hp).
  split; [reflexivity|].
  eexists; split; [reflexivity|].
  rewrite (toggle_free k w Hfree), await_invoke_trace. reflexivity.
Qed.

Lemma guarded_toggle_serialized_witness :
  ¬ pending WiFi (boot (TauriV2 None))
  ∧ ∃ w2, run [Ui ClickWifi; Ui ClickWifi] (boot (TauriV2 None)) = Some w2
          ∧ trace w2 = [{| c_time := 0; c_command := set_wifi_enabled;
                           c_args := ArgEnabled true |}].
Proof.
  assert (Hfree : ¬ pending WiFi (boot (TauriV2 None))).
  { unfold pending. cbn. apply not_elem_of_empty. }
  split; [exact Hfree|].
  exact (proj2 (proj2 (proj2 (guarded_toggle_serialized WiFi (boot (TauriV2 None)) Hfree)))).
Defined.

(** ** What a redraw leaves alone *)

Ltac open_updateAllUI w :=
  unfold updateAllUI, updateNightLightUI, updateBluetoothUI, updateWifiUI,
    updateBrightnessUI, updateVolumeUI; cbn;
  destruct (muted (state w)); cbn;
  (destruct (wifiEnabled (state w) && wifiConnected (state w)
             && truthy (wifiSsid (state w))) eqn:Hssid;
   [|destruct (wifiEnabled (state w)) eqn:Hen]); cbn.

Lemma updateAllUI_state w : state (updateAllUI w) = state w.
Proof. open_updateAllUI w; reflexivity. Qed.

Lemma hideLoading_state w : state (hideLoading w) = with_isLoading false (state w).
Proof. unfold hideLoading. cbn. destruct (loadingOverlay_hidden (els w)); reflexivity. Qed.

Lemma hideLoading_inflight w : inflight (hideLoading w) = inflight w.
Proof. unfold hideLoading. cbn. destruct (loadingOverlay_hidden (els w)); reflexivity. Qed.

Lemma updateAllUI_inflight w : inflight (updateAllUI w) = inflight w.
Proof. open_updateAllUI w; reflexivity. Qed.

Lemma updateWifiUI_state w : state (updateWifiUI w) = state w.
Proof.
  unfold updateWifiUI. cbn.
  destruct (wifiEnabled (state w) && wifiConnected (state w) && truthy (wifiSsid (state w)));
    [|destruct (wifiEnabled (state w))]; reflexivity.
Qed.

(** What [exec] does with a call that resolves: the promise is taken out of
    flight and the caller resumes; [invoke] has nothing to add. *)
Lemma exec_settle_resolved call v w p :
  inflight w !! call = Some p →
  delivers (p_promise p) (Resolved v) = true →
  exec (Settle call (Resolved v)) w
  = resume (p_cont p) (Resolved v) (put_inflight (delete call (inflight w)) (nextCall w) w).
Proof.
  intros Hp Hd. cbn -[resume]. rewrite Hp, Hd. destruct (p_promise p); reflexivity.
Qed.

(** ** A control while its call is in flight *)

Lemma calm_hideLoading k w : calm k w (hideLoading w).
Proof.
  unfold hideLoading. cbv zeta.
  assert (H1 : calm k w (update_state (with_isLoading false) w)).
  { apply calm_update_state; [destruct k; reflexivity | auto]. }
  cbn [els update_state put_state].
  destruct (loadingOverlay_hidden (els w)); [|exact H1].
  refine (calm_after k (update_els _) _ _ _ H1).
  intros w1. apply calm_update_els. destruct k; reflexivity.
Qed.

Lemma calm_updateVolumeUI k w : calm k w (updateVolumeUI w).
Proof.
  unfold updateVolumeUI. cbv zeta. cbn [state update_els put_els].
  destruct (muted (state w)); calm_chain; destruct k; reflexivity.
Qed.

Lemma calm_updateBrightnessUI k w : calm k w (updateBrightnessUI w).
Proof. unfold updateBrightnessUI. cbv zeta. calm_chain; destruct k; reflexivity. Qed.

(** Releasing the key of another control. *)
Lemma calm_delete_pending k key w :
  key ≠ pending_key k → calm k w (update_state (delete_pending key) w).
Proof.
  intros Hne. apply calm_update_state; [destruct k; reflexivity|].
  intros s Hin. cbn. apply elem_of_difference. split; [exact Hin|].
  rewrite elem_of_singleton. congruence.
Qed.

Lemma calm_updateWifiUI k w : k ≠ WiFi → calm k w (updateWifiUI w).
Proof.
  intros Hk. unfold updateWifiUI. cbv zeta. cbn [state update_els put_els].
  destruct (wifiEnabled (state w) && wifiConnected (state w) && truthy (wifiSsid (state w)));
    [|destruct (wifiEnabled (state w))];
    destruct k; try contradiction; calm_chain.
Qed.

Lemma calm_updateBluetoothUI k w : k ≠ Bluetooth → calm k w (updateBluetoothUI w).
Proof.
  intros Hk. unfold updateBluetoothUI. cbv zeta.
  destruct k; try contradiction; calm_chain.
Qed.

Lemma calm_updateNightLightUI k w : k ≠ NightLight → calm k w (updateNightLightUI w).
Proof.
  intros Hk. unfold updateNightLightUI. cbv zeta.
  destruct k; try contradiction; calm_chain.
Qed.

Lemma calm_invoke_settled k command r w : calm k w (invoke_settled command r w).
Proof. destruct r; cbn [invoke_settled]; [apply calm_refl|]. unfold invoke_catch. calm_chain. Qed.

(** The rest of an async function that is not one of those [rewrites] names
    leaves the control alone. *)
Ltac calm_rest k :=
  lazymatch goal with
  | |- calm _ ?w ?w => apply calm_refl
  | |- calm _ _ (hideLoading _) =>
      refine (calm_after k hideLoading (calm_hideLoading k) _ _ _); calm_rest k
  | |- calm _ _ (updateVolumeUI _) =>
      refine (calm_after k updateVolumeUI (calm_updateVolumeUI k) _ _ _); calm_rest k
  | |- calm _ _ (updateBrightnessUI _) =>
      refine (calm_after k updateBrightnessUI (calm_updateBrightnessUI k) _ _ _);
      calm_rest k
  | |- calm _ _ (updateWifiUI _) =>
      refine (calm_after k updateWifiUI (λ w, calm_updateWifiUI k w _) _ _ _);
      [discriminate | calm_rest k]
  | |- calm _ _ (updateBluetoothUI _) =>
      refine (calm_after k updateBluetoothUI (λ w, calm_updateBluetoothUI k w _) _ _ _);
      [discriminate | calm_rest k]
  | |- calm _ _ (updateNightLightUI _) =>
      refine (calm_after k updateNightLightUI (λ w, calm_updateNightLightUI k w _) _ _ _);
      [discriminate | calm_rest k]
  | |- calm _ _ (update_state (delete_pending ?key) _) =>
      refine (calm_after k (update_state (delete_pending key))
                (λ w, calm_delete_pending k key w _) _ _ _);
      [discriminate | calm_rest k]
  | |- calm _ _ (update_state ?f _) =>
      refine (calm_after k (update_state f) (λ w, calm_update_state k f w _ _) _ _ _);
      [intros; reflexivity | intros ? H; exact H | calm_rest k]
  | |- calm _ _ (unhandled_rejection ?e _) =>
      refine (calm_after k (unhandled_rejection e) (λ w, calm_of_view k w _ eq_refl) _ _ _);
      calm_rest k
  | |- calm _ _ (snd (setTimeout ?t ?d _)) =>
      refine (calm_after k (λ w, snd (setTimeout t d w))
                (λ w, calm_of_view k w _ eq_refl) _ _ _);
      calm_rest k
  | |- calm _ _ (console_log ?m _) =>
      refine (calm_after k (console_log m) (λ w, calm_of_view k w _ eq_refl) _ _ _);
      calm_rest k
  | |- calm _ _ (showToast ?m ?t _) =>
      refine (calm_after k (showToast m t) (calm_showToast k m t) _ _ _); calm_rest k
  | |- calm _ _ (await_invoke ?c ?a ?r _) =>
      refine (calm_after k (await_invoke c a r) (calm_await_invoke k c a r) _ _ _);
      calm_rest k
  | |- calm _ _ (put_timers ?m ?n _) =>
      refine (calm_after k (put_timers m n) (λ w, calm_of_view k w _ eq_refl) _ _ _);
      calm_rest k
  end.

Lemma calm_resume k c r w w' :
  rewrites k c r = false → resume c r w = Some w' → calm k w w'.
Proof.
  intros Hr Hres.
  destruct k, c; try destruct after; destruct r as [[ | | | |]|];
    cbn in Hr; try discriminate Hr;
    cbn [resume] in Hres; try discriminate Hres; injection Hres as <-;
    unfold refreshVolume, refreshBrightness;
    match goal with |- calm ?k _ _ => calm_rest k end.
Qed.

Lemma steady_refl k c w : steady k c w w.
Proof. unfold steady. repeat split; auto. lia. Qed.

Lemma steady_trans k c w1 w2 w3 : steady k c w1 w2 → steady k c w2 w3 → steady k c w1 w3.
Proof.
  intros (Hs & Ht & Hp & Hn & Hi) (Hs' & Ht' & Hp' & Hn' & Hi').
  unfold steady. rewrite Hs', Ht', Hs, Ht. repeat split; auto; [lia|].
  intros Hc. rewrite Hi' by lia. apply Hi, Hc.
Qed.

Lemma calm_steady k c w w' : calm k w w' → steady k c w w'.
Proof.
  intros (Hs & Ht & Hp & Hn & Hi). unfold steady. repeat split; auto.
Qed.

Lemma rewrites_toggle k newState r : rewrites k (rest_of_toggle k newState) r = true.
Proof. destruct k, r; reflexivity. Qed.

(** A step that does not disturb a pending control leaves it as it is, its
    call still awaited. *)
Lemma steady_exec k c p newState a w w' :
  pending k w →
  inflight w !! c = Some p → p_cont p = rest_of_toggle k newState →
  disturbs k a w = false →
  exec a w = Some w' →
  steady k c w w'.
Proof.
  intros Hp Hc Hk Hd Hexec.
  destruct a as [d|id|e|call r]; cbn -[dispatch run_task resume invoke_settled] in Hexec.
  - injection Hexec as <-. apply calm_steady, calm_of_view. reflexivity.
  - destruct (timers w !! id) as [t|]; [|discriminate].
    destruct (decide _); [|discriminate].
    injection Hexec as <-. apply calm_steady.
    refine (calm_after k (run_task _) (calm_run_task k _) _ _ _).
    apply calm_of_view. reflexivity.
  - injection Hexec as <-. apply calm_steady, calm_dispatch, Hp.
  - cbn in Hd. destruct (inflight w !! call) as [q|] eqn:Hq; [|discriminate].
    assert (Hne : call ≠ c).
    { intros ->. rewrite Hc in Hq. injection Hq as <-.
      rewrite Hk, rewrites_toggle in Hd. discriminate. }
    destruct (delivers (p_promise q) r); [|discriminate].
    apply (steady_trans k c w (put_inflight (delete call (inflight w)) (nextCall w) w)).
    { unfold steady, pending. cbn. repeat split; auto; [lia|].
      intros _. apply lookup_delete_ne. exact Hne. }
    apply calm_steady.
    refine (calm_trans k _ _ _ _ (calm_resume k _ _ _ _ Hd Hexec)).
    destruct (p_promise q); [apply calm_invoke_settled | apply calm_refl].
Qed.

Lemma steady_run k c p newState acts : ∀ w w',
  pending k w →
  inflight w !! c = Some p → p_cont p = rest_of_toggle k newState →
  (c < nextCall w)%positive →
  undisturbed k acts w →
  run acts w = Some w' →
  steady k c w w'.
Proof.
  induction acts as [|a acts IH]; intros w w' Hp Hc Hk Hlt Hu Hrun.
  - injection Hrun as <-. apply steady_refl.
  - cbn [run] in Hrun. cbn [undisturbed] in Hu. destruct Hu as [Hd Hu].
    destruct (exec a w) as [w1|] eqn:Hexec; [|discriminate].
    pose proof (steady_exec k c p newState a w w1 Hp Hc Hk Hd Hexec) as H1.
    apply (steady_trans k c w w1); [exact H1|].
    destruct H1 as (_ & _ & Hp1 & Hn1 & Hi1).
    apply IH; try assumption; [auto | rewrite Hi1 by exact Hlt; exact Hc | lia].
Qed.

(** C10 as stated fails: the first fetch is under way when the Bluetooth
    tile is clicked (the store says off), and the snapshot arrives, with
    Bluetooth on, while the toggle's call is still in flight.  The store
    now says on: it does not hold the value from before the toggle. *)
Lemma store_overwritten_in_flight :
  bluetoothEnabled (state (loaded (TauriV2 None))) = false
  ∧ ∃ w',
      run [Ui ClickBluetooth;
           Settle 1 (Resolved (VAllStates
             {| all_volume := 30; all_muted := false; all_brightness := 80;
                all_max_brightness := 100;
                all_network := {| wifi_enabled := false; wifi_connected := false;
                                  wifi_ssid := None; bluetooth_enabled := true;
                                  bluetooth_connected := false |};
                all_night_light_enabled := false |}))] (loaded (TauriV2 None)) = Some w'
      ∧ inflight w' !! 2%positive
        = Some {| p_command := set_bluetooth_enabled; p_promise := AwaitsBackend;
                  p_cont := in_toggleBluetooth true |}
      ∧ pending Bluetooth w'
      ∧ bluetoothEnabled (state w') = true.
Proof.
  split; [reflexivity|].
  eexists. split; [vm_compute; reflexivity|]. split; [vm_compute; reflexivity|].
  split; [|reflexivity].
  match goal with
  | |- ?P => apply (bool_decide_eq_true_1 P); vm_compute; reflexivity
  end.
Qed.

(** C10, amended.  From a free control, after the click and for as long as
    no step disturbs the control (its own call settling, a snapshot of
    [get_all_states] arriving or, for WiFi, the status of the deferred
    fetch arriving), whatever else happens (time passing, timers running,
    clicks, drags, keys, other calls settling either way), the control's
    boolean in [state] is the one from before the click, the tile's
    [dataset.enabled] shows the negation, and the rest of the toggle waits
    under the call with the negation captured; when that call resolves, the
    store takes the negation, and with a working bridge the call can resolve
    with any value.  A snapshot that arrives in the meantime does overwrite
    the boolean with its own, the toggle's call staying in flight and the
    control pending; so does, for WiFi, the status of the deferred fetch. *)
Theorem store_keeps_value_in_flight (k : Kind) (w : World) (acts : list Action) (w' : World) :
  ¬ pending k w →
  undisturbed k acts (dispatch (click k) w) →
  run (Ui (click k) :: acts) w = Some w' →
  stored k (state w') = stored k (state w)
  ∧ tile k (els w') = negb (stored k (state w))
  ∧ (∃ p, inflight w' !! nextCall w
          = Some {| p_command := mutation k; p_promise := p;
                    p_cont := rest_of_toggle k (negb (stored k (state w))) |})
  ∧ (∀ v w2, exec (Settle (nextCall w) (Resolved v)) w' = Some w2 →
             stored k (state w2) = negb (stored k (state w)))
  ∧ (bridge w = TauriV2 None ∨ bridge w = TauriV1 None →
     ∀ v, is_Some (exec (Settle (nextCall w) (Resolved v)) w'))
  ∧ (∀ call q a w2,
       inflight w' !! call = Some q → p_cont q = in_loadInitialState →
       exec (Settle call (Resolved (VAllStates a))) w' = Some w2 →
       stored k (state w2) = snapshot k a
       ∧ pending k w2
       ∧ inflight w2 !! nextCall w = inflight w' !! nextCall w)
  ∧ (∀ call q n w2,
       k = WiFi →
       inflight w' !! call = Some q → p_cont q = in_wifiRefresh →
       exec (Settle call (Resolved (VNetwork n))) w' = Some w2 →
       stored k (state w2) = wifi_enabled n
       ∧ pending k w2
       ∧ inflight w2 !! nextCall w = inflight w' !! nextCall w).
Proof.
  intros Hfree Hall Hrun. cbn -[dispatch] in Hrun.
  destruct (await_invoke_parks (mutation k) (ArgEnabled (negb (stored k (state w))))
              (rest_of_toggle k (negb (stored k (state w))))
              (update_els (match k with
                   | WiFi => set_wifiTile_enabled
                   | Bluetooth => set_bluetoothTile_enabled
                   | NightLight => set_nightLightTile_enabled
                   end (negb (stored k (state w))))
                 (update_state (add_pending (pending_key k)) w))) as (p & Hpark & Hlive).
  change (nextCall _) with (nextCall w) in Hpark.
  change (bridge _) with (bridge w) in Hlive.
  rewrite <- (toggle_free k w Hfree) in Hpark.
  assert (Hlt : (nextCall w < nextCall (dispatch (click k) w))%positive).
  { rewrite (toggle_free k w Hfree), await_invoke_nextCall. cbn. lia. }
  pose proof (toggle_sets_pending k w Hfree) as Hpend.
  destruct (steady_run k (nextCall w) _ (negb (stored k (state w))) acts _ _
              Hpend Hpark eq_refl Hlt Hall Hrun) as (Hs & Ht & Hp' & _ & Hi).
  assert (Hpark' : inflight w' !! nextCall w
                   = Some {| p_command := mutation k; p_promise := p;
                             p_cont := rest_of_toggle k (negb (stored k (state w))) |}).
  { rewrite (Hi Hlt). exact Hpark. }
  assert (Hother : ∀ call q, inflight w' !! call = Some q →
                     (∀ b, p_cont q ≠ rest_of_toggle k b) → call ≠ nextCall w).
  { intros call q Hq Hk ->. rewrite Hpark' in Hq. injection Hq as <-.
    exact (Hk _ eq_refl). }
  split; [rewrite Hs; apply toggle_keeps_stored|].
  split.
  { rewrite Ht, (toggle_free k w Hfree), await_invoke_tiles. destruct k; reflexivity. }
  split; [exists p; exact Hpark'|].
  split.
  { intros v w2. cbn -[resume]. rewrite Hpark'. cbn -[resume].
    destruct (delivers p (Resolved v)); [|discriminate].
    match goal with
    | |- resume ?K ?R ?W = _ → _ =>
        destruct (rest_of_toggle_resolved k (negb (stored k (state w))) v W) as (w3 & -> & Hst)
    end.
    intros [= <-]. exact Hst. }
  split.
  { intros Hb v. cbn -[resume]. rewrite Hpark'. cbn -[resume].
    rewrite (Hlive Hb). cbn -[resume].
    match goal with
    | |- is_Some (resume ?K ?R ?W) =>
        destruct (rest_of_toggle_resolved k (negb (stored k (state w))) v W) as (w3 & -> & _)
    end.
    eexists; reflexivity. }
  split.
  - intros call q a w2 Hq Hk Hexec.
    assert (Hne : call ≠ nextCall w).
    { apply (Hother call q Hq). intros b. rewrite Hk. destruct k; discriminate. }
    assert (Hd : delivers (p_promise q) (Resolved (VAllStates a)) = true).
    { cbn -[resume] in Hexec. rewrite Hq in Hexec.
      destruct (delivers (p_promise q) _); [reflexivity | discriminate]. }
    rewrite (exec_settle_resolved _ _ _ _ Hq Hd), Hk in Hexec.
    cbn [resume] in Hexec. injection Hexec as <-.
    unfold pending.
    rewrite hideLoading_state, updateAllUI_state, hideLoading_inflight, updateAllUI_inflight.
    split; [destruct k; reflexivity|]. split; [exact (Hp' Hpend)|].
    cbn. apply lookup_delete_ne. exact Hne.
  - intros call q n w2 -> Hq Hk Hexec.
    assert (Hne : call ≠ nextCall w).
    { apply (Hother call q Hq). intros b. rewrite Hk. discriminate. }
    assert (Hd : delivers (p_promise q) (Resolved (VNetwork n)) = true).
    { cbn -[resume] in Hexec. rewrite Hq in Hexec.
      destruct (delivers (p_promise q) _); [reflexivity | discriminate]. }
    rewrite (exec_settle_resolved _ _ _ _ Hq Hd), Hk in Hexec.
    cbn [resume] in Hexec. injection Hexec as <-.
    unfold pending. rewrite updateWifiUI_state.
    split; [reflexivity|]. split; [exact (Hp' Hpend)|].
    transitivity (inflight (put_inflight (delete call (inflight w')) (nextCall w') w')
                    !! nextCall w).
    + unfold updateWifiUI. cbn.
      destruct (wifi_enabled n && wifi_connected n && truthy (wifi_ssid n));
        [|destruct (wifi_enabled n)]; reflexivity.
    + cbn. apply lookup_delete_ne. exact Hne.
Qed.

Lemma store_keeps_value_in_flight_witness :
  ¬ pending Bluetooth (loaded (TauriV2 None))
  ∧ undisturbed Bluetooth
      [Wait 5; Ui ClickBluetooth; Ui ClickWifi; Settle 3 (Resolved VNull);
       Ui (VolumeChange 30); Wait 50; Timeout 2; Settle 4 (Rejected "busy")]
      (dispatch ClickBluetooth (loaded (TauriV2 None)))
  ∧ ∃ w', run [Ui ClickBluetooth; Wait 5; Ui ClickBluetooth; Ui ClickWifi;
               Settle 3 (Resolved VNull); Ui (VolumeChange 30); Wait 50; Timeout 2;
               Settle 4 (Rejected "busy")] (loaded (TauriV2 None)) = Some w'
          ∧ bluetoothEnabled (state w') = false
          ∧ bluetoothTile_enabled (els w') = true.
Proof.
  assert (Hfree : ¬ pending Bluetooth (loaded (TauriV2 None))).
  { apply (bool_decide_eq_false_1 (pending Bluetooth (loaded (TauriV2 None)))).
    vm_compute. reflexivity. }
  assert (Hall : undisturbed Bluetooth
                   [Wait 5; Ui ClickBluetooth; Ui ClickWifi; Settle 3 (Resolved VNull);
                    Ui (VolumeChange 30); Wait 50; Timeout 2; Settle 4 (Rejected "busy")]
                   (dispatch ClickBluetooth (loaded (TauriV2 None)))).
  { vm_compute. repeat split. }
  split; [exact Hfree|]. split; [exact Hall|].
  assert (Hrun : ∃ w', run [Ui ClickBluetooth; Wait 5; Ui ClickBluetooth; Ui ClickWifi;
                            Settle 3 (Resolved VNull); Ui (VolumeChange 30); Wait 50;
                            Timeout 2; Settle 4 (Rejected "busy")]
                           (loaded (TauriV2 None)) = Some w').
  { eexists. vm_compute. reflexivity. }
  destruct Hrun as [w' Hrun]. exists w'. split; [exact Hrun|].
  pose proof (store_keeps_value_in_flight Bluetooth (loaded (TauriV2 None))
                [Wait 5; Ui ClickBluetooth; Ui ClickWifi; Settle 3 (Resolved VNull);
                 Ui (VolumeChange 30); Wait 50; Timeout 2; Settle 4 (Rejected "busy")]
                w' Hfree Hall Hrun) as (Hs & Ht & _).
  split; [exact Hs | exact Ht].
Defined.

(** C1 (rollback on failure), evaluated on the code.  From the start-up
    world every guarded control is off; the tile is clicked and the call is
    rejected.  The failure handler negates a store that the toggle had not
    written yet, so the store ends up on, the value the failed call asked
    for, and the tile shows on as well. *)
Theorem failed_toggle_leaves_store_flipped :
  ∀ k : Kind,
    stored k (state (boot (TauriV2 None))) = false
    ∧ ∃ w', run [Ui (click k); Settle 1 (Rejected "boom")] (boot (TauriV2 None)) = Some w'
            ∧ stored k (state w') = true
            ∧ tile k (els w') = true
            ∧ ¬ pending k w'.
Proof.
  intros k. split; [destruct k; reflexivity|].
  destruct k; (eexists; split; [vm_compute; reflexivity|]);
    (split; [reflexivity|]); (split; [reflexivity|]);
    match goal with
    | |- ¬ ?P => apply (bool_decide_eq_false_1 P); vm_compute; reflexivity
    end.
Qed.

(** The same for every world and every error: after a rejected call the
    store holds the negation of the value from before the click. *)
Lemma failed_toggle_negates_store k w error w' :
  ¬ pending k w →
  exec (Settle (nextCall w) (Rejected error)) (dispatch (click k) w) = Some w' →
  stored k (state w') = negb (stored k (state w)).
Proof.
  intros Hfree.
  destruct (await_invoke_parks (mutation k) (ArgEnabled (negb (stored k (state w))))
              (rest_of_toggle k (negb (stored k (state w))))
              (update_els (match k with
                   | WiFi => set_wifiTile_enabled
                   | Bluetooth => set_bluetoothTile_enabled
                   | NightLight => set_nightLightTile_enabled
                   end (negb (stored k (state w))))
                 (update_state (add_pending (pending_key k)) w))) as (p & Hpark & _).
  change (nextCall _) with (nextCall w) in Hpark.
  rewrite <- (toggle_free k w Hfree) in Hpark.
  cbn -[dispatch resume invoke_settled]. rewrite Hpark. cbn -[dispatch resume invoke_settled].
  destruct (delivers p (Rejected error)); [|discriminate].
  match goal with
  | |- resume ?K ?R ?W = _ → _ =>
      destruct (rest_of_toggle_rejected k (negb (stored k (state w))) error W)
        as (w3 & -> & Hs & _);
      assert (Hst : stored k (state W) = stored k (state w))
  end.
  { destruct p; unfold invoke_settled, invoke_catch; rewrite ?showToast_state;
      cbn -[dispatch]; apply toggle_keeps_stored. }
  intros [= <-]. rewrite Hs, Hst. reflexivity.
Qed.

(** ** The WiFi status text against the store *)






















(** ** Sliders: what is stored and what is sent *)

(** The 'input' listener stores the number it is given, as it is. *)
Lemma raw_input_stored s value w : level s (state (dispatch (raw s value) w)) = value.
Proof. destruct s; reflexivity. Qed.

(** Inside the legal range the clamps change nothing. *)
Lemma clampVolume_in_range v : 0 ≤ v ≤ 100 → clampVolume v = v.
Proof. unfold clampVolume. lia. Qed.

Lemma clampBrightness_in_range v : 1 ≤ v ≤ 100 → clampBrightness v = v.
Proof. unfold clampBrightness. lia. Qed.

(** The arrow keys do bound the side they move to. *)
Lemma arrow_down_brightness_floor w :
  1 ≤ brightness (state (handleKeyDown ArrowDown OnBrightnessSlider w)).
Proof. cbn. destruct (brightnessDebounceTimer w); cbn; lia. Qed.

Lemma arrow_up_volume_ceiling w :
  volume (state (handleKeyDown ArrowUp OnVolumeSlider w)) ≤ 100.
Proof. cbn. destruct (volumeDebounceTimer w); cbn; lia. Qed.

Lemma drag_then_fire s v id t acts : ∀ w,
  Forall (drag_action s) acts →
  timers w !! id = Some t → task t = commit_task s v →
  (due t ≤ clock w + total_wait acts)%nat →
  ∃ w', run (acts ++ [Timeout id]) w = Some w'
        ∧ trace w' = trace w ++ [commit_call s (clock w + total_wait acts) v]
        ∧ level s (state w') = dragged_to s acts (level s (state w)).
Proof.
  induction acts as [|a acts IH]; intros w Hall Hid Htask Hdue.
  - cbn in *. rewrite Hid, decide_True by lia. rewrite Htask.
    eexists; split; [reflexivity|].
    rewrite Nat.add_0_r.
    destruct s; cbn -[await_invoke]; rewrite await_invoke_trace, await_invoke_state;
      split; reflexivity.
  - apply Forall_cons in Hall as [Ha Hall].
    destruct a as [d| |e|]; cbn in Ha; try contradiction.
    + cbn [app run exec total_wait dragged_to].
      destruct (IH (put_clock (clock w + d)%nat w) Hall Hid Htask) as (w' & Hrun & Htr & Hlv).
      { cbn in *. lia. }
      exists w'. split; [exact Hrun|]. split.
      * rewrite Htr. cbn. rewrite Nat.add_assoc. reflexivity.
      * destruct s; exact Hlv.
    + destruct Ha as [value ->].
      destruct (IH (dispatch (raw s value) w) Hall) as (w' & Hrun & Htr & Hlv).
      { destruct s; exact Hid. }
      { exact Htask. }
      { destruct s; exact Hdue. }
      exists w'. split; [exact Hrun|]. split.
      * rewrite Htr. destruct s; reflexivity.
      * rewrite Hlv. destruct s; reflexivity.
Qed.

(** The 'change' listener arms a timer under the handle that was next, due
    50 units on, with the number of the event captured. *)
Lemma commit_arms s v w :
  timers (dispatch (commit s v) w) !! nextTimer w
  = Some {| due := (clock w + 50)%nat; task := commit_task s v |}
  ∧ debounceTimer s (dispatch (commit s v) w) = Some (nextTimer w)
  ∧ trace (dispatch (commit s v) w) = trace w
  ∧ clock (dispatch (commit s v) w) = clock w
  ∧ state (dispatch (commit s v) w) = state w.
Proof.
  destruct s; cbn; unfold handleVolumeChange, handleBrightnessChange, clear_if_set; cbn.
  - destruct (volumeDebounceTimer w); cbn; rewrite lookup_insert_eq; repeat split.
  - destruct (brightnessDebounceTimer w); cbn; rewrite lookup_insert_eq; repeat split.
Qed.

(** C3 (clamping), evaluated on the code.  The 'input' and 'change'
    listeners pass on what [parseInt] gave them: a brightness of 0 is stored
    as 0 and sent as 0, a volume of 150 is stored as 150 and sent as 150,
    where the clamps give 1 and 100. *)
Theorem slider_values_pass_unclamped :
  (∃ w', run [Ui (BrightnessInput 0); Ui (BrightnessChange 0); Wait 50; Timeout 1]
             (boot (TauriV2 None)) = Some w'
         ∧ brightness (state w') = 0
         ∧ trace w' = [commit_call Brightness 50 0]
         ∧ clampBrightness 0 = 1)
  ∧ (∃ w', run [Ui (VolumeInput 150); Ui (VolumeChange 150); Wait 50; Timeout 1]
               (boot (TauriV2 None)) = Some w'
           ∧ volume (state w') = 150
           ∧ trace w' = [commit_call Volume 50 150]
           ∧ clampVolume 150 = 100).
Proof.
  split; (eexists; split; [vm_compute; reflexivity|]); repeat split.
Qed.

(** C5 as stated fails: the volume slider is released at 30, dragged on to
    80 within the quiet period, and the timer of the release then runs.  The
    call carries 30 while the store holds 80. *)
Lemma debounce_sends_stale_value :
  ∃ w', run [Ui (VolumeChange 30); Wait 10; Ui (VolumeInput 80); Wait 40; Timeout 1]
            (boot (TauriV2 None)) = Some w'
        ∧ volume (state w') = 80
        ∧ trace w' = [commit_call Volume 50 30].
Proof. eexists; split; [vm_compute; reflexivity|]. split; reflexivity. Qed.

(** C5, amended.  The timer of a 'change' event sends the number that event
    carried, captured when the timer was started: whatever raw input is
    stored between the event and the timer running, and however long the
    timer waits beyond its 50 units, the call made is the slider's mutation
    with the captured number, while the store holds what the raw input left
    there. *)
Theorem debounce_sends_captured_value (s : Slider) (w : World) (v : Z) (acts : list Action) :
  Forall (drag_action s) acts →
  (50 ≤ total_wait acts)%nat →
  ∃ w', run (Ui (commit s v) :: acts ++ [Timeout (nextTimer w)]) w = Some w'
        ∧ trace w' = trace w ++ [commit_call s (clock w + total_wait acts) v]
        ∧ level s (state w') = dragged_to s acts (level s (state w)).
Proof.
  intros Hall Hwait.
  destruct (commit_arms s v w) as (Harm & _ & Htr & Hclk & Hst).
  destruct (drag_then_fire s v (nextTimer w) _ acts (dispatch (commit s v) w)
              Hall Harm eq_refl) as (w' & Hrun & Htr' & Hlv).
  { rewrite Hclk. cbn. lia. }
  exists w'. split; [exact Hrun|].
  rewrite Htr', Hlv, Htr, Hclk, Hst. split; reflexivity.
Qed.

Lemma debounce_sends_captured_value_witness :
  Forall (drag_action Brightness) [Wait 20; Ui (BrightnessInput 9); Wait 30]
  ∧ (50 ≤ total_wait [Wait 20; Ui (BrightnessInput 9); Wait 30])%nat
  ∧ ∃ w', run [Ui (BrightnessChange 70); Wait 20; Ui (BrightnessInput 9); Wait 30; Timeout 1]
              (boot (TauriV2 None)) = Some w'
          ∧ trace w' = [commit_call Brightness 50 70]
          ∧ brightness (state w') = 9.
Proof.
  assert (Hall : Forall (drag_action Brightness) [Wait 20; Ui (BrightnessInput 9); Wait 30]).
  { repeat constructor. exists 9. reflexivity. }
  assert (Hwait : (50 ≤ total_wait [Wait 20; Ui (BrightnessInput 9); Wait 30])%nat).
  { cbn. lia. }
  split; [exact Hall|]. split; [exact Hwait|].
  exact (debounce_sends_captured_value Brightness (boot (TauriV2 None)) 70 _ Hall Hwait).
Defined.

(** ** Mute *)

(** C6 as stated fails: the mute button is clicked twice with the first
    call still in flight.  After the first click the store and the icons are
    as before (nothing optimistic), and the second click makes a second
    call. *)
Lemma mute_is_not_guarded :
  ∃ w1 w2,
    run [Ui ClickMute] (boot (TauriV2 None)) = Some w1
    ∧ muted (state w1) = muted (state (boot (TauriV2 None)))
    ∧ els w1 = els (boot (TauriV2 None))
    ∧ run [Ui ClickMute; Ui ClickMute] (boot (TauriV2 None)) = Some w2
    ∧ trace w2 = [ {| c_time := 0; c_command := toggle_mute; c_args := NoArgs |};
                   {| c_time := 0; c_command := toggle_mute; c_args := NoArgs |} ].
Proof.
  do 2 eexists. split; [vm_compute; reflexivity|].
  split; [reflexivity|]. split; [reflexivity|].
  split; [vm_compute; reflexivity|]. reflexivity.
Qed.

(** C6, amended.  Mute is not a guarded toggle: [toggleMute] tests no
    pending flag and writes nothing ahead of the backend.  In every world,
    whatever is in flight, a click on the mute button leaves [state] as it
    is and makes one [toggle_mute] call; with a working bridge the page is
    left as it is too.  When the call resolves to a boolean, that boolean
    is stored as [state.muted] and the icons follow it; when it is rejected
    the store is left as it is. *)
Theorem mute_waits_for_backend (w : World) :
  state (dispatch ClickMute w) = state w
  ∧ trace (dispatch ClickMute w)
    = trace w ++ [{| c_time := clock w; c_command := toggle_mute; c_args := NoArgs |}]
  ∧ (bridge w = TauriV2 None ∨ bridge w = TauriV1 None → els (dispatch ClickMute w) = els w)
  ∧ (∀ b, ∃ w', resume in_toggleMute (Resolved (VBool b)) w = Some w'
                ∧ muted (state w') = b
                ∧ volumeIconBtn_muted (els w') = b
                ∧ volumeMutedIcon_display (els w') = b
                ∧ volumeIcon_display (els w') = negb b)
  ∧ (∀ error, ∃ w', resume in_toggleMute (Rejected error) w = Some w'
                    ∧ state w' = state w ∧ els w' = els w).
Proof.
  split; [apply await_invoke_state|].
  split; [apply await_invoke_trace|].
  split.
  { intros [Hb|Hb]; cbn; unfold toggleMute, await_invoke, invoke, invoke_body;
      rewrite Hb; reflexivity. }
  split.
  - intros b. eexists. split; [reflexivity|]. destruct b; repeat split.
  - intros error. eexists. split; [reflexivity|]. split; reflexivity.
Qed.

Lemma mute_waits_for_backend_witness :
  (TauriV2 None = TauriV2 None ∨ TauriV2 None = TauriV1 None)
  ∧ els (dispatch ClickMute (boot (TauriV2 None))) = els (boot (TauriV2 None))
  ∧ state (dispatch ClickMute (boot (TauriV2 None))) = state (boot (TauriV2 None)).
Proof.
  assert (Hb : TauriV2 None = TauriV2 None ∨ TauriV2 None = TauriV1 None)
    by (left; reflexivity).
  split; [exact Hb|].
  split.
  - exact (proj1 (proj2 (proj2 (mute_waits_for_backend (boot (TauriV2 None))))) Hb).
  - exact (proj1 (mute_waits_for_backend (boot (TauriV2 None)))).
Defined.

(** ** Failures *)

(** C7, evaluated on the code.  The suspend tile is clicked, the window
    closes, the deferred callback calls [suspend_system] and the call is
    rejected: the rejection reaches no handler, and the message shown is the
    one of [invoke], not 'Failed to suspend'.  Likewise WiFi is toggled, the
    call resolves, the deferred callback fetches the status and the fetch is
    rejected: the rejection reaches no handler. *)
Theorem deferred_calls_reject_unhandled :
  (∃ w', run [Ui ClickSuspend; Settle 1 (Resolved VNull); Wait 100; Timeout 2;
              Settle 2 (Rejected "denied")] (boot (TauriV2 None)) = Some w'
         ∧ unhandled w' = ["denied"%string]
         ∧ textContent <$> toast (els w') = Some "Error: denied"%string)
  ∧ (∃ w', run [Ui ClickWifi; Settle 1 (Resolved VNull); Wait 1000; Timeout 1;
                Settle 2 (Rejected "down")] (boot (TauriV2 None)) = Some w'
           ∧ unhandled w' = ["down"%string]).
Proof.
  split; eexists; (split; [vm_compute; reflexivity|]); repeat split.
Qed.

(** ** The gateway *)

(** C8 as stated fails: a rejected call makes [invoke] itself show a toast.
    [closeWindow] only logs its failure, yet after the rejection the toast
    reads 'Error: boom'. *)
Lemma invoke_shows_toast_on_failure :
  textContent <$> toast (els (boot (TauriV2 None))) = Some EmptyString
  ∧ textContent <$> toast (els (invoke_settled close_window (Rejected "boom")
                                  (boot (TauriV2 None)))) = Some "Error: boom"%string
  ∧ ∃ w', run [Ui ClickClose; Settle 1 (Rejected "boom")] (boot (TauriV2 None)) = Some w'
          ∧ toast (els w') = Some {| textContent := "Error: boom"; shown := true;
                                     severity := "error" |}.
Proof.
  split; [reflexivity|]. split; [reflexivity|].
  eexists; split; [vm_compute; reflexivity|]. reflexivity.
Qed.

Lemma showToast_console message type w : console (showToast message type w) = console w.
Proof. open_toast w; reflexivity. Qed.

(** C8, amended.  [invoke] never throws to its caller: whatever bridge the
    page has, the caller holds a promise, rejected with the error when the
    bridge throws.  [invoke] leaves [state] as it is, both when called and
    when the bridge's promise settles, and it delegates exactly one call.
    With a working bridge the call changes nothing but the trace, and a
    resolved call changes nothing.  On failure [invoke] does more: when the
    call is rejected, or the bridge throws, it writes 'Command <name>
    failed: <error>' to the console and, the toast element being there,
    makes the toast show 'Error: ' followed by the error, with type
    'error'; the caller then resumes with the rejection, in the world
    [invoke] has left. *)
Theorem invoke_effects (command : Command) (args : Args) (w : World) :
  fst (invoke command args w)
  = match bridge w with
    | TauriV2 None | TauriV1 None => AwaitsBackend
    | TauriV2 (Some error) | TauriV1 (Some error) => Settled (Rejected error)
    | NoTauri => Settled (Resolved (mockInvoke command args))
    end
  ∧ state (snd (invoke command args w)) = state w
  ∧ trace (snd (invoke command args w))
    = trace w ++ [{| c_time := clock w; c_command := command; c_args := args |}]
  ∧ (bridge w = TauriV2 None ∨ bridge w = TauriV1 None →
     invoke command args w = (AwaitsBackend, delegate command args w))
  ∧ (∀ r, state (invoke_settled command r w) = state w
          ∧ trace (invoke_settled command r w) = trace w)
  ∧ (∀ v, invoke_settled command (Resolved v) w = w)
  ∧ (∀ error,
       console (invoke_settled command (Rejected error) w)
       = console w ++ [("Command " ++ command_name command ++ " failed: " ++ error)%string]
       ∧ ∀ t, toast (els w) = Some t →
           toast (els (invoke_settled command (Rejected error) w))
           = Some {| textContent := "Error: " ++ error; shown := true;
                     severity := "error" |})
  ∧ (∀ error, bridge w = TauriV2 (Some error) ∨ bridge w = TauriV1 (Some error) →
       fst (invoke command args w) = Settled (Rejected error)
       ∧ console (snd (invoke command args w))
         = console w ++ [("Command " ++ command_name command ++ " failed: " ++ error)%string]
       ∧ ∀ t, toast (els w) = Some t →
           toast (els (snd (invoke command args w)))
           = Some {| textContent := "Error: " ++ error; shown := true;
                     severity := "error" |})
  ∧ (∀ call k error,
       inflight w !! call
       = Some {| p_command := command; p_promise := AwaitsBackend; p_cont := k |} →
       exec (Settle call (Rejected error)) w
       = resume k (Rejected error)
           (invoke_settled command (Rejected error)
              (put_inflight (delete call (inflight w)) (nextCall w) w))).
Proof.
  split.
  { unfold invoke, invoke_body, async. destruct (bridge w) as [[?|]|[?|]|]; reflexivity. }
  split.
  { unfold invoke, invoke_body, async.
    destruct (bridge w) as [[?|]|[?|]|]; cbn -[showToast]; unfold invoke_catch;
      rewrite ?showToast_state; reflexivity. }
  split.
  { unfold invoke, invoke_body, async.
    destruct (bridge w) as [[?|]|[?|]|]; cbn -[showToast]; unfold invoke_catch;
      rewrite ?showToast_trace; reflexivity. }
  split.
  { intros [Hb|Hb]; unfold invoke, invoke_body; rewrite Hb; reflexivity. }
  split.
  { intros [v|error]; cbn -[showToast]; unfold invoke_catch;
      rewrite ?showToast_state, ?showToast_trace; split; reflexivity. }
  split; [reflexivity|].
  split.
  { intros error. unfold invoke_settled, invoke_catch. rewrite showToast_console.
    split; [reflexivity|]. intros t Ht. apply (showToast_toast _ _ _ t). exact Ht. }
  split.
  { intros error [Hb|Hb]; unfold invoke, invoke_body; rewrite Hb;
      cbn -[showToast]; (split; [reflexivity|]); unfold invoke_catch;
      rewrite showToast_console; (split; [reflexivity|]);
      intros t Ht; apply (showToast_toast _ _ _ t); exact Ht. }
  intros call k error Hp. cbn -[resume invoke_settled]. rewrite Hp. reflexivity.
Qed.

Lemma invoke_effects_witness :
  fst (invoke set_volume (ArgValue 40) (boot (TauriV2 (Some "no bridge"%string))))
  = Settled (Rejected "no bridge")
  ∧ console (snd (invoke set_volume (ArgValue 40) (boot (TauriV2 (Some "no bridge"%string)))))
    = ["Command set_volume failed: no bridge"%string]
  ∧ toast (els (snd (invoke set_volume (ArgValue 40) (boot (TauriV2 (Some "no bridge"%string))))))
    = Some {| textContent := "Error: no bridge"; shown := true; severity := "error" |}.
Proof.
  destruct (proj1 (proj2 (proj2 (proj2 (proj2 (proj2 (proj2 (proj2
              (invoke_effects set_volume (ArgValue 40)
                 (boot (TauriV2 (Some "no bridge"%string)))))))))))
              "no bridge"%string (or_introl eq_refl)) as (Hp & Hc & Ht).
  split; [exact Hp|]. split; [exact Hc|]. exact (Ht _ eq_refl).
Defined.

(** ** Timers: handles stay fresh, and what a step keeps of a slider *)

Lemma wf_of_view w w' : timer_view w' = timer_view w → wf w → wf w'.
Proof.
  unfold timer_view. intros [= Ht Hn Hv Hb Hto _ _].
  unfold wf, refers_to. rewrite Ht, Hn, Hv, Hb, Hto. exact id.
Qed.

Lemma debounceTimer_of_view s w w' :
  timer_view w' = timer_view w → debounceTimer s w' = debounceTimer s w.
Proof. unfold timer_view. intros [= _ _ Hv Hb _ _ _]. destruct s; assumption. Qed.

Lemma keeps_of_view s w w' : timer_view w' = timer_view w → wf w → keeps s w w'.
Proof.
  intros Hview Hwf. pose proof (wf_of_view _ _ Hview Hwf) as Hwf'.
  pose proof (debounceTimer_of_view s _ _ Hview) as Hd.
  unfold timer_view in Hview. injection Hview as Ht _ _ _ _ Hc Htr.
  unfold keeps, sent. rewrite Ht, Hc, Htr, Hd.
  split; [exact Hwf'|]. repeat split; auto.
Qed.

Lemma keeps_refl s w : wf w → keeps s w w.
Proof. apply keeps_of_view. reflexivity. Qed.

Lemma keeps_wf s w w' : keeps s w w' → wf w'.
Proof. intros [H _]. exact H. Qed.

Lemma keeps_trans s w1 w2 w3 : keeps s w1 w2 → keeps s w2 w3 → keeps s w1 w3.
Proof.
  intros (_ & Hc & Hd & Hs & Ht) (Hwf & Hc' & Hd' & Hs' & Ht').
  unfold keeps. rewrite Hc', Hd', Hs', Hc, Hd, Hs.
  split; [exact Hwf|]. repeat split; auto.
  - intros Hin. apply Ht, Ht'; assumption.
  - intros Hin. apply Ht', Ht; assumption.
Qed.

(** A function that keeps the slider may be run after anything that did. *)
Lemma keeps_after s (f : World → World) :
  (∀ w, wf w → keeps s w (f w)) → ∀ w w1, keeps s w w1 → keeps s w (f w1).
Proof.
  intros Hf w w1 H. apply (keeps_trans s w w1); [exact H|].
  apply Hf. exact (keeps_wf _ _ _ H).
Qed.

Lemma keeps_after_view s (f : World → World) :
  (∀ w, timer_view (f w) = timer_view w) → ∀ w w1, keeps s w w1 → keeps s w (f w1).
Proof. intros Hf. apply keeps_after. intros w. apply keeps_of_view, Hf. Qed.

(** The functions that touch no timer, no timer variable and no trace. *)
Lemma view_update_state f w : timer_view (update_state f w) = timer_view w.
Proof. reflexivity. Qed.
Lemma view_update_els f w : timer_view (update_els f w) = timer_view w.
Proof. reflexivity. Qed.
Lemma view_console_log msg w : timer_view (console_log msg w) = timer_view w.
Proof. reflexivity. Qed.
Lemma view_unhandled_rejection error w :
  timer_view (unhandled_rejection error w) = timer_view w.
Proof. reflexivity. Qed.
Lemma view_put_inflight m n w : timer_view (put_inflight m n w) = timer_view w.
Proof. reflexivity. Qed.
Lemma view_showLoading w : timer_view (showLoading w) = timer_view w.
Proof. unfold showLoading. cbn. destruct (loadingOverlay_hidden (els w)); reflexivity. Qed.
Lemma view_hideLoading w : timer_view (hideLoading w) = timer_view w.
Proof. unfold hideLoading. cbn. destruct (loadingOverlay_hidden (els w)); reflexivity. Qed.
Lemma view_hide_toast w : timer_view (hide_toast w) = timer_view w.
Proof. unfold hide_toast. destruct (toast (els w)); reflexivity. Qed.
Lemma view_updateVolumeUI w : timer_view (updateVolumeUI w) = timer_view w.
Proof. unfold updateVolumeUI. cbn. destruct (muted (state w)); reflexivity. Qed.
Lemma view_updateBrightnessUI w : timer_view (updateBrightnessUI w) = timer_view w.
Proof. reflexivity. Qed.
Lemma view_updateWifiUI w : timer_view (updateWifiUI w) = timer_view w.
Proof.
  unfold updateWifiUI. cbn.
  destruct (wifiEnabled (state w) && wifiConnected (state w) && truthy (wifiSsid (state w)));
    [|destruct (wifiEnabled (state w))]; reflexivity.
Qed.
Lemma view_updateBluetoothUI w : timer_view (updateBluetoothUI w) = timer_view w.
Proof. reflexivity. Qed.
Lemma view_updateNightLightUI w : timer_view (updateNightLightUI w) = timer_view w.
Proof. reflexivity. Qed.
Lemma view_updateAllUI w : timer_view (updateAllUI w) = timer_view w.
Proof.
  unfold updateAllUI.
  rewrite view_updateNightLightUI, view_updateBluetoothUI, view_updateWifiUI,
    view_updateBrightnessUI, view_updateVolumeUI. reflexivity.
Qed.
Lemma view_handleVolumeInput v w : timer_view (handleVolumeInput v w) = timer_view w.
Proof. reflexivity. Qed.
Lemma view_handleBrightnessInput v w : timer_view (handleBrightnessInput v w) = timer_view w.
Proof. reflexivity. Qed.

(** Reading a timer map that has been inserted into and deleted from. *)
Ltac timers_facts :=
  repeat match goal with
    | H : <[_:=_]> _ !! _ = Some _ |- _ => apply lookup_insert_Some in H
    | H : delete _ _ !! _ = Some _ |- _ => apply lookup_delete_Some in H
    | H : _ ∧ _ |- _ => destruct H
    | H : _ ∨ _ |- _ => destruct H
    | H : Some _ = Some _ |- _ => injection H as H
    end; subst.

Ltac timers_goal :=
  repeat match goal with
    | |- <[_:=_]> _ !! _ = Some _ => apply lookup_insert_Some
    | |- delete _ _ !! _ = Some _ => apply lookup_delete_Some
    end.

(** [setTimeout] keeps the handles fresh whatever it is given. *)
Lemma wf_setTimeout t d w : wf w → wf (snd (setTimeout t d w)).
Proof.
  intros (Hlt & Hto & Hv & Hb). unfold wf, refers_to in *. cbn.
  split; [|repeat split]; intros; timers_facts;
    try lia;
    try (match goal with
         | H : ∀ id t, timers w !! id = Some t → _, H' : timers w !! _ = Some _ |- _ =>
             specialize (H _ _ H'); lia
         end);
    try (match goal with
         | H : ∀ id, ?var = Some id → _, H' : ?var = Some _ |- _ =>
             destruct (H _ H') as [? ?]; (lia || eauto)
         end).
Qed.

Ltac use_wf :=
  repeat match goal with
    | H : ∀ id t, timers ?w !! id = Some t → (id < _)%positive,
      H' : timers ?w !! _ = Some _ |- _ =>
        pose proof (H _ _ H'); clear H
    | H : ∀ id, ?var = Some id → _ ∧ _, H' : ?var = Some _ |- _ =>
        let Hlt := fresh "Hlt" in let Hk := fresh "Hk" in
        destruct (H _ H') as [Hlt Hk]; clear H
    end;
  try lia; try (exfalso; lia); eauto.

Lemma wf_clearTimeout id w : wf w → wf (clearTimeout id w).
Proof.
  intros (Hlt & Hto & Hv & Hb). unfold wf, refers_to in *. cbn.
  split; [|repeat split]; intros; timers_facts; eauto;
    try (match goal with
         | H : ∀ id, ?var = Some id → _, H' : ?var = Some _ |- _ =>
             destruct (H _ H') as [? ?]; (lia || eauto)
         end).
Qed.

Lemma keeps_setTimeout s t d w :
  is_commit s t = false → wf w → keeps s w (snd (setTimeout t d w)).
Proof.
  intros Hno Hwf. split; [apply wf_setTimeout, Hwf|].
  destruct Hwf as (Hlt & _). cbn.
  split; [reflexivity|]. split; [destruct s; reflexivity|]. split; [reflexivity|].
  intros id t' Hc. split; intros Hin.
  - timers_facts; [cbn in Hc; congruence | assumption].
  - timers_goal. right. split; [|assumption].
    specialize (Hlt _ _ Hin). lia.
Qed.

(** Clearing a timer that is not one of the slider's. *)
Lemma keeps_clearTimeout s id w :
  (∀ t, timers w !! id = Some t → is_commit s (task t) = false) →
  wf w → keeps s w (clearTimeout id w).
Proof.
  intros Hno Hwf. split; [apply wf_clearTimeout, Hwf|]. cbn.
  split; [reflexivity|]. split; [destruct s; reflexivity|]. split; [reflexivity|].
  intros id' t' Hc. split; intros Hin.
  - timers_facts. assumption.
  - timers_goal. split; [|assumption].
    intros ->. specialize (Hno _ Hin). congruence.
Qed.

Lemma is_commit_HideToast s t : t = HideToast → is_commit s t = false.
Proof. intros ->. destruct s; reflexivity. Qed.

Lemma is_commit_other s t :
  is_commit (match s with Volume => Brightness | Brightness => Volume end) t = true →
  is_commit s t = false.
Proof. destruct s, t; cbn; congruence. Qed.

Lemma wf_put_toastTimer id w :
  wf w → (id < nextTimer w)%positive →
  (∀ t, timers w !! id = Some t → task t = HideToast) →
  wf (put_toastTimer (Some id) w).
Proof.
  intros (Hlt & Hto & Hv & Hb) Hid Hk. unfold wf, refers_to in *. cbn.
  split; [exact Hlt|]. split; [|split; assumption].
  intros id' [= <-]. split; assumption.
Qed.

Lemma keeps_showToast s message type w : wf w → keeps s w (showToast message type w).
Proof.
  intros Hwf. unfold showToast.
  destruct (toast (els w)); [|apply keeps_refl, Hwf].
  set (w1 := clear_if_set (toastTimer w) w).
  assert (H1 : keeps s w w1).
  { unfold w1, clear_if_set. destruct (toastTimer w) as [id|] eqn:Hid;
      [|apply keeps_refl, Hwf].
    apply keeps_clearTimeout; [|exact Hwf].
    intros t' Hin. destruct Hwf as (_ & Hto & _).
    destruct (Hto _ Hid) as [_ Hk]. apply is_commit_HideToast, Hk, Hin. }
  set (w2 := update_els _ w1).
  assert (H2 : keeps s w w2).
  { apply (keeps_after_view s (update_els _)); [apply view_update_els | exact H1]. }
  pose proof (keeps_after s (λ w, snd (setTimeout HideToast 2500 w))
                (λ w, keeps_setTimeout s HideToast 2500 w (is_commit_HideToast s _ eq_refl))
                w w2 H2) as H3.
  cbn beta in H3.
  change (let '(id, w) := setTimeout HideToast 2500 w2 in put_toastTimer (Some id) w)
    with (put_toastTimer (Some (nextTimer w2)) (snd (setTimeout HideToast 2500 w2))).
  destruct H3 as (Hwf3 & Hc & Hd & Hs & Ht).
  split.
  { apply wf_put_toastTimer; [exact Hwf3 | cbn; lia |].
    cbn. intros t' Hin. rewrite lookup_insert_eq in Hin. injection Hin as <-. reflexivity. }
  split; [exact Hc|]. split; [destruct s; exact Hd|]. split; [exact Hs|]. exact Ht.
Qed.

Lemma wf_put_debounce s w :
  wf w → ∀ v d,
  wf (match s with
      | Volume => put_volumeDebounceTimer
      | Brightness => put_brightnessDebounceTimer
      end (Some (nextTimer w)) (snd (setTimeout (commit_task s v) d w))).
Proof.
  intros (Hlt & Hto & Hv & Hb) v d. unfold wf, refers_to in *.
  destruct s; cbn; (split; [|repeat split]); intros; timers_facts; cbn;
    try reflexivity; use_wf.
Qed.

(** A 'change' event of the other slider. *)
Lemma keeps_handleVolumeChange v w : wf w → keeps Brightness w (handleVolumeChange v w).
Proof.
  intros Hwf. unfold handleVolumeChange.
  set (w1 := clear_if_set (volumeDebounceTimer w) w).
  assert (H1 : keeps Brightness w w1).
  { unfold w1, clear_if_set. destruct (volumeDebounceTimer w) as [id|] eqn:Hid;
      [|apply keeps_refl, Hwf].
    apply keeps_clearTimeout; [|exact Hwf].
    intros t' Hin. destruct Hwf as (_ & _ & Hv & _).
    destruct (Hv _ Hid) as [_ Hk]. apply (is_commit_other Brightness), Hk, Hin. }
  change (let '(id, w) := setTimeout (VolumeCommit v) 50 w1 in
          put_volumeDebounceTimer (Some id) w)
    with (put_volumeDebounceTimer (Some (nextTimer w1))
            (snd (setTimeout (VolumeCommit v) 50 w1))).
  pose proof (keeps_after Brightness (λ w, snd (setTimeout (VolumeCommit v) 50 w))
                (λ w, keeps_setTimeout Brightness (VolumeCommit v) 50 w eq_refl)
                w w1 H1) as (Hwf3 & Hc & Hd & Hs & Ht).
  split; [exact (wf_put_debounce Volume w1 (keeps_wf _ _ _ H1) v 50%nat)|].
  split; [exact Hc|]. split; [exact Hd|]. split; [exact Hs|]. exact Ht.
Qed.

Lemma keeps_handleBrightnessChange v w : wf w → keeps Volume w (handleBrightnessChange v w).
Proof.
  intros Hwf. unfold handleBrightnessChange.
  set (w1 := clear_if_set (brightnessDebounceTimer w) w).
  assert (H1 : keeps Volume w w1).
  { unfold w1, clear_if_set. destruct (brightnessDebounceTimer w) as [id|] eqn:Hid;
      [|apply keeps_refl, Hwf].
    apply keeps_clearTimeout; [|exact Hwf].
    intros t' Hin. destruct Hwf as (_ & _ & _ & Hb).
    destruct (Hb _ Hid) as [_ Hk]. apply (is_commit_other Volume), Hk, Hin. }
  change (let '(id, w) := setTimeout (BrightnessCommit v) 50 w1 in
          put_brightnessDebounceTimer (Some id) w)
    with (put_brightnessDebounceTimer (Some (nextTimer w1))
            (snd (setTimeout (BrightnessCommit v) 50 w1))).
  pose proof (keeps_after Volume (λ w, snd (setTimeout (BrightnessCommit v) 50 w))
                (λ w, keeps_setTimeout Volume (BrightnessCommit v) 50 w eq_refl)
                w w1 H1) as (Hwf3 & Hc & Hd & Hs & Ht).
  split; [exact (wf_put_debounce Brightness w1 (keeps_wf _ _ _ H1) v 50%nat)|].
  split; [exact Hc|]. split; [exact Hd|]. split; [exact Hs|]. exact Ht.
Qed.

Lemma keeps_idle s w w' : keeps s w w' → idle s w → idle s w'.
Proof.
  intros (_ & _ & _ & _ & Ht) Hidle id t Hin.
  destruct (is_commit s (task t)) eqn:Hc; [|reflexivity].
  apply Ht in Hin; [|exact Hc]. rewrite (Hidle _ _ Hin) in Hc. discriminate.
Qed.

Lemma sent_app s w w' c :
  trace w' = trace w ++ [c] →
  sent s w' = sent s w ++ (if decide (c_command c = mutator s) then [c] else []).
Proof.
  intros Htr. unfold sent. rewrite Htr, filter_app. reflexivity.
Qed.

Lemma keeps_delegate s command args w :
  command ≠ mutator s → wf w → keeps s w (delegate command args w).
Proof.
  intros Hne Hwf. split; [exact Hwf|]. split; [reflexivity|].
  split; [destruct s; reflexivity|]. split; [|intros; reflexivity].
  rewrite (sent_app s w (delegate command args w)
             {| c_time := clock w; c_command := command; c_args := args |} eq_refl).
  cbn. rewrite decide_False by exact Hne. apply app_nil_r.
Qed.

Lemma keeps_invoke_catch s command error w : wf w → keeps s w (invoke_catch command error w).
Proof.
  intros Hwf. unfold invoke_catch.
  apply (keeps_after s (showToast _ _)); [intros; apply keeps_showToast; assumption|].
  apply keeps_of_view; [apply view_console_log | exact Hwf].
Qed.

Lemma keeps_await_invoke s command args k w :
  command ≠ mutator s → wf w → keeps s w (await_invoke command args k w).
Proof.
  intros Hne Hwf. pose proof (keeps_delegate s command args w Hne Hwf) as Hd.
  by_bridge w; apply (keeps_after_view s (put_inflight _ _)); try apply view_put_inflight.
  - apply (keeps_after s (invoke_catch _ _));
      [intros; apply keeps_invoke_catch; assumption | exact Hd].
  - exact Hd.
  - apply (keeps_after s (invoke_catch _ _));
      [intros; apply keeps_invoke_catch; assumption | exact Hd].
  - exact Hd.
  - (* the mock only adds console lines before it is called *)
    exact Hd.
Qed.

(** Chaining the lemmas above along the way a handler is written. *)
Ltac keeps_chain :=
  lazymatch goal with
  | Hwf : wf ?w |- keeps _ ?w ?w => apply keeps_refl; exact Hwf
  | |- keeps ?s ?w0 (update_state ?f ?w1) =>
      refine (keeps_after_view s (update_state f) (view_update_state f) w0 w1 _);
      keeps_chain
  | |- keeps ?s ?w0 (update_els ?f ?w1) =>
      refine (keeps_after_view s (update_els f) (view_update_els f) w0 w1 _);
      keeps_chain
  | |- keeps ?s ?w0 (console_log ?m ?w1) =>
      refine (keeps_after_view s (console_log m) (view_console_log m) w0 w1 _);
      keeps_chain
  | |- keeps ?s ?w0 (unhandled_rejection ?m ?w1) =>
      refine (keeps_after_view s (unhandled_rejection m) (view_unhandled_rejection m)
                w0 w1 _);
      keeps_chain
  | |- keeps ?s ?w0 (put_inflight ?m ?n ?w1) =>
      refine (keeps_after_view s (put_inflight m n) (view_put_inflight m n) w0 w1 _);
      keeps_chain
  | |- keeps ?s ?w0 (showLoading ?w1) =>
      refine (keeps_after_view s showLoading view_showLoading w0 w1 _); keeps_chain
  | |- keeps ?s ?w0 (hideLoading ?w1) =>
      refine (keeps_after_view s hideLoading view_hideLoading w0 w1 _); keeps_chain
  | |- keeps ?s ?w0 (hide_toast ?w1) =>
      refine (keeps_after_view s hide_toast view_hide_toast w0 w1 _); keeps_chain
  | |- keeps ?s ?w0 (updateVolumeUI ?w1) =>
      refine (keeps_after_view s updateVolumeUI view_updateVolumeUI w0 w1 _); keeps_chain
  | |- keeps ?s ?w0 (updateBrightnessUI ?w1) =>
      refine (keeps_after_view s updateBrightnessUI view_updateBrightnessUI w0 w1 _);
      keeps_chain
  | |- keeps ?s ?w0 (updateWifiUI ?w1) =>
      refine (keeps_after_view s updateWifiUI view_updateWifiUI w0 w1 _); keeps_chain
  | |- keeps ?s ?w0 (updateBluetoothUI ?w1) =>
      refine (keeps_after_view s updateBluetoothUI view_updateBluetoothUI w0 w1 _);
      keeps_chain
  | |- keeps ?s ?w0 (updateNightLightUI ?w1) =>
      refine (keeps_after_view s updateNightLightUI view_updateNightLightUI w0 w1 _);
      keeps_chain
  | |- keeps ?s ?w0 (updateAllUI ?w1) =>
      refine (keeps_after_view s updateAllUI view_updateAllUI w0 w1 _); keeps_chain
  | |- keeps ?s ?w0 (handleVolumeInput ?v ?w1) =>
      refine (keeps_after_view s (handleVolumeInput v) (view_handleVolumeInput v) w0 w1 _);
      keeps_chain
  | |- keeps ?s ?w0 (handleBrightnessInput ?v ?w1) =>
      refine (keeps_after_view s (handleBrightnessInput v) (view_handleBrightnessInput v)
                w0 w1 _);
      keeps_chain
  | |- keeps ?s ?w0 (showToast ?m ?t ?w1) =>
      refine (keeps_after s (showToast m t) (keeps_showToast s m t) w0 w1 _); keeps_chain
  | |- keeps ?s ?w0 (invoke_catch ?c ?e ?w1) =>
      refine (keeps_after s (invoke_catch c e) (keeps_invoke_catch s c e) w0 w1 _);
      keeps_chain
  | |- keeps ?s ?w0 (await_invoke ?c ?a ?k ?w1) =>
      refine (keeps_after s (await_invoke c a k)
                (λ w, keeps_await_invoke s c a k w _) w0 w1 _);
      [discriminate | keeps_chain]
  | |- keeps ?s ?w0 (snd (setTimeout ?t ?d ?w1)) =>
      refine (keeps_after s (λ w, snd (setTimeout t d w))
                (λ w, keeps_setTimeout s t d w eq_refl) w0 w1 _);
      keeps_chain
  | |- keeps Brightness ?w0 (handleVolumeChange ?v ?w1) =>
      refine (keeps_after Brightness (handleVolumeChange v) (keeps_handleVolumeChange v)
                w0 w1 _);
      keeps_chain
  | |- keeps Volume ?w0 (handleBrightnessChange ?v ?w1) =>
      refine (keeps_after Volume (handleBrightnessChange v) (keeps_handleBrightnessChange v)
                w0 w1 _);
      keeps_chain
  end.

(** Every listener keeps the slider unless it runs the slider's own
    'change' listener. *)
Lemma keeps_dispatch s e w :
  wf w → commit_of s e w = None → keeps s w (dispatch e w).
Proof.
  intros Hwf Hno.
  destruct e; cbn [dispatch];
    unfold toggleWifi, toggleBluetooth, toggleNightLight, suspendSystem, toggleMute,
      closeWindow, loadInitialState;
    cbv zeta;
    repeat match goal with
      | |- context [decide ?P] => destruct (decide P)
      end;
    try (destruct s; cbn in Hno; try discriminate; keeps_chain).
  - destruct key, active, s; try discriminate Hno; cbn [handleKeyDown];
      unfold closeWindow, key_adjust_volume, key_adjust_brightness; cbv zeta;
      keeps_chain.
  - destruct (bridge w) as [?|?|]; destruct s; keeps_chain.
Qed.

(** A timer's closure keeps the slider unless it is the slider's own. *)
Lemma keeps_run_task s t w : wf w → is_commit s t = false → keeps s w (run_task t w).
Proof.
  intros Hwf Hno. destruct t, s; cbn in Hno; try discriminate; cbn [run_task]; keeps_chain.
Qed.

Lemma keeps_invoke_settled s command r w : wf w → keeps s w (invoke_settled command r w).
Proof.
  intros Hwf. destruct r; cbn [invoke_settled]; [apply keeps_refl, Hwf | keeps_chain].
Qed.

Lemma from_Some {A} (P : A → Prop) (x y : A) : P x → Some x = Some y → P y.
Proof. intros Hp [= <-]. exact Hp. Qed.

(** The rest of any async function keeps both sliders. *)
Lemma keeps_resume s k r w w' : wf w → resume k r w = Some w' → keeps s w w'.
Proof.
  intros Hwf.
  destruct k, r as [[| | | |]|]; cbn [resume]; try discriminate;
    try destruct after; unfold refreshVolume, refreshBrightness; cbv zeta;
    refine (from_Some (keeps s w) _ _ _); destruct s; keeps_chain.
Qed.

(** ** One slider through a burst *)

Lemma keeps_armed s v e w w' : keeps s w w' → armed s v e w → armed s v e w'.
Proof.
  intros (_ & Hc & Hd & _ & Ht) (id & t & Hvar & Hin & Htask & Hdue & Huniq).
  assert (Hcommit : is_commit s (task t) = true).
  { rewrite Htask. destruct s; reflexivity. }
  exists id, t. rewrite Hd, Hc. repeat split; try assumption.
  - apply Ht; assumption.
  - intros id' t' Hin' Hc'. apply (Huniq id' t'); [|exact Hc'].
    apply Ht; assumption.
Qed.

Lemma keeps_coalesced s w0 b w w' :
  keeps s w w' → coalesced s w0 b w → coalesced s w0 b w'.
Proof.
  intros Hk. pose proof Hk as (_ & Hc & _ & Hs & _).
  destruct b as [[v e]|]; cbn; rewrite ?Hs, ?Hc.
  - intros [[Ha Hsent]|[Hi Hsent]].
    + left. split; [exact (keeps_armed _ _ _ _ _ Hk Ha) | exact Hsent].
    + right. split; [exact (keeps_idle _ _ _ Hk Hi) | exact Hsent].
  - intros [Hi Hsent]. split; [exact (keeps_idle _ _ _ Hk Hi) | exact Hsent].
Qed.

(** What [await invoke] does to the timers, whatever the command. *)
Lemma await_invoke_timers s command args k w :
  wf w →
  wf (await_invoke command args k w)
  ∧ clock (await_invoke command args k w) = clock w
  ∧ (idle s w → idle s (await_invoke command args k w)).
Proof.
  intros Hwf.
  assert (Hd : wf (delegate command args w)) by exact Hwf.
  by_bridge w.
  - destruct (keeps_invoke_catch s command error _ Hd) as (Hwf' & Hc & _ & _ & Ht).
    split; [exact Hwf'|]. split; [exact Hc|].
    intros Hi. apply (keeps_idle s (delegate command args w)); [|exact Hi].
    apply keeps_invoke_catch, Hd.
  - split; [exact Hwf|]. split; [reflexivity|]. exact id.
  - destruct (keeps_invoke_catch s command error _ Hd) as (Hwf' & Hc & _ & _ & Ht).
    split; [exact Hwf'|]. split; [exact Hc|].
    intros Hi. apply (keeps_idle s (delegate command args w)); [|exact Hi].
    apply keeps_invoke_catch, Hd.
  - split; [exact Hwf|]. split; [reflexivity|]. exact id.
  - split; [exact Hwf|]. split; [reflexivity|]. exact id.
Qed.

(** The slider's timer runs: one call, with the captured number, at the
    present time; no timer of the slider is left. *)
Lemma commit_task_runs s v w :
  wf w → idle s w →
  wf (run_task (commit_task s v) w)
  ∧ idle s (run_task (commit_task s v) w)
  ∧ clock (run_task (commit_task s v) w) = clock w
  ∧ sent s (run_task (commit_task s v) w) = sent s w ++ [commit_call s (clock w) v].
Proof.
  intros Hwf Hidle.
  assert (Hrun : ∃ k, run_task (commit_task s v) w
                      = await_invoke (mutator s) (ArgValue v) k w).
  { destruct s; eexists; reflexivity. }
  destruct Hrun as [k ->].
  destruct (await_invoke_timers s (mutator s) (ArgValue v) k w Hwf) as (Hwf' & Hc & Hi).
  split; [exact Hwf'|]. split; [exact (Hi Hidle)|]. split; [exact Hc|].
  rewrite (sent_app s w _ _ (await_invoke_trace _ _ _ _)). cbn.
  rewrite decide_True by reflexivity. reflexivity.
Qed.

(** The slider's 'change' listener: the old timer is gone, the new one is
    the only one. *)
Lemma change_rearms s v w :
  wf w →
  (∀ id t, timers w !! id = Some t → is_commit s (task t) = true →
           debounceTimer s w = Some id) →
  wf (handleChange s v w)
  ∧ armed s v 0 (handleChange s v w)
  ∧ sent s (handleChange s v w) = sent s w.
Proof.
  intros Hwf Hown.
  assert (Hshape : ∃ w1,
    wf w1 ∧ clock w1 = clock w ∧ trace w1 = trace w
    ∧ (∀ id t, timers w1 !! id = Some t → is_commit s (task t) = false)
    ∧ handleChange s v w
      = match s with
        | Volume => put_volumeDebounceTimer
        | Brightness => put_brightnessDebounceTimer
        end (Some (nextTimer w1)) (snd (setTimeout (commit_task s v) 50 w1))).
  { destruct s; cbn [handleChange];
      unfold handleVolumeChange, handleBrightnessChange; cbv zeta;
      [ exists (clear_if_set (volumeDebounceTimer w) w)
      | exists (clear_if_set (brightnessDebounceTimer w) w) ];
      unfold clear_if_set; cbn [debounceTimer] in Hown;
      [ destruct (volumeDebounceTimer w) as [old|] eqn:Hold
      | destruct (brightnessDebounceTimer w) as [old|] eqn:Hold ];
      (split; [try exact Hwf; apply (wf_clearTimeout old), Hwf|]);
      (split; [reflexivity|]); (split; [reflexivity|]);
      (split; [|reflexivity]); cbn; intros id t Hin;
      match goal with
      | |- ?c = false => destruct c eqn:Hc; [exfalso|reflexivity]
      end; timers_facts;
      match goal with
      | H : timers w !! _ = Some _ |- _ => specialize (Hown _ _ H Hc); congruence
      end. }
  destruct Hshape as (w1 & Hwf1 & Hc1 & Htr1 & Hidle1 & ->).
  split; [apply wf_put_debounce, Hwf1|].
  split.
  - exists (nextTimer w1), {| due := (clock w1 + 50)%nat; task := commit_task s v |}.
    destruct s; cbn; rewrite lookup_insert_eq, Hc1;
      (repeat split; try lia);
      intros id' t' Hin Hc; timers_facts; try reflexivity;
      match goal with
      | H : timers w1 !! _ = Some _ |- _ => specialize (Hidle1 _ _ H); cbn in *; congruence
      end.
  - unfold sent. destruct s; cbn; rewrite Htr1; reflexivity.
Qed.

(** An event that runs the slider's 'change' listener runs it after steps
    that touch no timer. *)
Lemma commit_shape s e w v :
  commit_of s e w = Some v →
  ∃ w1, timer_view w1 = timer_view w ∧ dispatch e w = handleChange s v w1.
Proof.
  destruct s, e; cbn [commit_of]; try discriminate;
    try (destruct key, active; try discriminate);
    intros [= <-]; eexists; (split; [|reflexivity]); reflexivity.
Qed.

Lemma idle_owns s w id t :
  idle s w → timers w !! id = Some t → is_commit s (task t) = true →
  debounceTimer s w = Some id.
Proof. intros Hi Hin Hc. rewrite (Hi _ _ Hin) in Hc. discriminate. Qed.

Lemma armed_owns s v e w id t :
  armed s v e w → timers w !! id = Some t → is_commit s (task t) = true →
  debounceTimer s w = Some id.
Proof.
  intros (id0 & t0 & Hvar & _ & _ & _ & Huniq) Hin Hc.
  rewrite (Huniq _ _ Hin Hc). exact Hvar.
Qed.

(** One action of a burst. *)
Lemma burst_step s w0 a b w w' :
  wf w → coalesced s w0 b w → in_burst s a w b → exec a w = Some w' →
  wf w' ∧ coalesced s w0 (observe s a w b) w'.
Proof.
  intros Hwf Hco Hin Hexec. destruct a as [d|id|e|call r].
  - (* time passes *)
    injection Hexec as <-. split; [exact Hwf|].
    destruct b as [[v el]|]; cbn in *; [|exact Hco].
    destruct Hco as [[(id & t & Hvar & Ht & Htask & Hdue & Huniq) Hsent]
                    |[Hidle (t & Hsent & Hlate & Hpast)]].
    + left. split; [|exact Hsent].
      exists id, t. destruct s; cbn in *; repeat split; try assumption; lia.
    + right. split; [exact Hidle|]. exists t. repeat split; try assumption; lia.
  - (* a timer runs *)
    cbn in Hexec. destruct (timers w !! id) as [t|] eqn:Ht; [|discriminate].
    destruct (decide (due t ≤ clock w)%nat) as [Hdue|]; [|discriminate].
    injection Hexec as <-. cbn [observe].
    destruct (is_commit s (task t)) eqn:Hc.
    + (* the slider's own *)
      destruct b as [[v el]|]; cbn in Hco;
        [destruct Hco as [[Harmed Hsent]|[Hidle _]]|destruct Hco as [Hidle _]];
        try (rewrite (Hidle _ _ Ht) in Hc; discriminate).
      destruct Harmed as (id0 & t0 & Hvar & Ht0 & Htask & Hdue0 & Huniq).
      assert (id = id0) as -> by exact (Huniq _ _ Ht Hc).
      assert (t0 = t) as -> by congruence.
      assert (Hidle1 : idle s (clearTimeout id0 w)).
      { intros id' t' Hin'. cbn in Hin'. timers_facts.
        destruct (is_commit s (task t')) eqn:Hc'; [|reflexivity].
        match goal with
        | Hne : id0 ≠ id', Hl : timers w !! id' = Some t' |- _ =>
            destruct Hne; symmetry; exact (Huniq _ _ Hl Hc')
        end. }
      rewrite Htask.
      destruct (commit_task_runs s v (clearTimeout id0 w) (wf_clearTimeout _ _ Hwf) Hidle1)
        as (Hwf' & Hidle' & Hclock & Hsent').
      split; [exact Hwf'|]. right. split; [exact Hidle'|].
      exists (clock w). rewrite Hsent', Hclock. cbn. unfold sent at 1. cbn.
      fold (sent s w). rewrite Hsent. repeat split; lia.
    + (* someone else's *)
      assert (Hk : keeps s w (run_task (task t) (clearTimeout id w))).
      { apply (keeps_after s (run_task (task t)));
          [intros w1 Hw1; apply keeps_run_task; assumption|].
        apply keeps_clearTimeout; [|exact Hwf].
        intros t' Ht'. congruence. }
      split; [exact (keeps_wf _ _ _ Hk) | exact (keeps_coalesced _ _ _ _ _ Hk Hco)].
  - (* a listener runs *)
    injection Hexec as <-. cbn [observe].
    destruct (commit_of s e w) as [v|] eqn:Hcommit.
    + (* it runs the slider's own 'change' listener *)
      destruct (commit_shape _ _ _ _ Hcommit) as (w1 & Hview & ->).
      pose proof (keeps_of_view s w w1 Hview Hwf) as Hk1.
      pose proof (keeps_coalesced _ _ _ _ _ Hk1 Hco) as Hco1.
      assert (Hown : ∀ id t, timers w1 !! id = Some t → is_commit s (task t) = true →
                             debounceTimer s w1 = Some id).
      { destruct b as [[v' el]|]; cbn in Hco1.
        - destruct Hco1 as [[Harmed _]|[Hidle _]];
            [ exact (λ id t, armed_owns _ _ _ _ id t Harmed)
            | exact (λ id t, idle_owns _ _ id t Hidle) ].
        - destruct Hco1 as [Hidle _]. exact (λ id t, idle_owns _ _ id t Hidle). }
      destruct (change_rearms s v w1 (keeps_wf _ _ _ Hk1) Hown) as (Hwf' & Harmed & Hsent).
      split; [exact Hwf'|]. cbn. left. split; [exact Harmed|].
      rewrite Hsent.
      destruct b as [[v' el]|]; cbn in Hco1.
      * destruct Hco1 as [[_ Hs]|[_ (t & Hs & Hlate & Hpast)]]; [exact Hs|].
        exfalso. cbn in Hin. rewrite Hcommit in Hin.
        destruct Hk1 as (_ & Hc1 & _). lia.
      * destruct Hco1 as [_ Hs]. exact Hs.
    + assert (Hk : keeps s w (dispatch e w)).
      { apply keeps_dispatch; [exact Hwf | exact Hcommit]. }
      split; [exact (keeps_wf _ _ _ Hk) | exact (keeps_coalesced _ _ _ _ _ Hk Hco)].
  - (* an awaited call settles *)
    cbn -[resume invoke_settled] in Hexec.
    destruct (inflight w !! call) as [p|]; [|discriminate].
    destruct (delivers (p_promise p) r); [|discriminate].
    match type of Hexec with
    | resume _ _ ?W = _ =>
        assert (Hk1 : keeps s w W);
        [ destruct (p_promise p);
          [ refine (keeps_after s (invoke_settled _ _)
                      (keeps_invoke_settled s _ _) _ _ _) |];
          (apply keeps_of_view; [reflexivity | exact Hwf])
        | pose proof (keeps_resume s _ _ _ _ (keeps_wf _ _ _ Hk1) Hexec) as Hk2 ]
    end.
    pose proof (keeps_trans _ _ _ _ Hk1 Hk2) as Hk.
    split; [exact (keeps_wf _ _ _ Hk) | exact (keeps_coalesced _ _ _ _ _ Hk Hco)].
Qed.

Lemma burst_run s w0 acts : ∀ b w w' b',
  wf w → coalesced s w0 b w → burst_ok s acts w b →
  follow s acts w b = Some (w', b') →
  wf w' ∧ coalesced s w0 b' w'.
Proof.
  induction acts as [|a acts IH]; intros b w w' b' Hwf Hco Hok Hrun.
  - injection Hrun as <- <-. split; assumption.
  - destruct Hok as [Hin Hok]. cbn [follow] in Hrun.
    destruct (exec a w) as [w1|] eqn:Hexec; [|discriminate].
    destruct (burst_step s w0 a b w w1 Hwf Hco Hin Hexec) as [Hwf1 Hco1].
    exact (IH _ _ _ _ Hwf1 Hco1 Hok Hrun).
Qed.

Lemma follow_run s acts : ∀ w b w' b',
  follow s acts w b = Some (w', b') → run acts w = Some w'.
Proof.
  induction acts as [|a acts IH]; intros w b w' b' H; cbn in *.
  - injection H as <- _. reflexivity.
  - destruct (exec a w); [exact (IH _ _ _ _ H) | discriminate].
Qed.

(** C4 (debounce coalescing).  Start with well-formed timer handles and no
    timer of the slider alive, and let anything happen (clicks, drags, keys,
    timers running, calls settling), provided that each time the slider's
    'change' listener runs, less than 50 has passed since it last ran.  Let
    [value] be the number the listener was last run with and [elapsed] the
    time since.  Then either nothing has been sent for the slider yet and
    its one timer waits: it cannot run before 50 have passed since the last
    'change', it can run from then on, and when it runs exactly one call is
    added, carrying [value], with no timer of the slider left; or exactly
    one call has been sent since the start, carrying [value], made no
    earlier than 50 after the last 'change', and no timer of the slider is
    left. *)
Theorem debounce_coalesces (s : Slider) (w0 : World) (acts : list Action) (w : World)
    (value : Z) (elapsed : nat) :
  wf w0 → idle s w0 →
  burst_ok s acts w0 None →
  follow s acts w0 None = Some (w, Some (value, elapsed)) →
  run acts w0 = Some w
  ∧ ((sent s w = sent s w0
      ∧ ∃ id, debounceTimer s w = Some id
          ∧ (∀ d, (elapsed + d < 50)%nat → run [Wait d; Timeout id] w = None)
          ∧ (∀ d, (50 ≤ elapsed + d)%nat →
               ∃ w', run [Wait d; Timeout id] w = Some w'
                     ∧ sent s w' = sent s w0 ++ [commit_call s (clock w + d) value]
                     ∧ idle s w'))
     ∨ (idle s w
        ∧ ∃ t, sent s w = sent s w0 ++ [commit_call s t value]
               ∧ (clock w + 50 ≤ t + elapsed)%nat
               ∧ (t ≤ clock w)%nat)).
Proof.
  intros Hwf0 Hidle0 Hok Hrun.
  split; [exact (follow_run _ _ _ _ _ _ Hrun)|].
  destruct (burst_run s w0 acts None w0 w _ Hwf0 (conj Hidle0 eq_refl) Hok Hrun) as [Hwf Hco].
  cbn in Hco.
  destruct Hco as [[Harmed Hsent]|Hdone]; [left|right; exact Hdone].
  split; [exact Hsent|].
  pose proof Harmed as (id & t & Hvar & Ht & Htask & Hdue & Huniq).
  exists id. split; [exact Hvar|]. split.
  - intros d Hd. cbn. rewrite Ht. rewrite decide_False by lia. reflexivity.
  - intros d Hd.
    assert (Hstep : wf (put_clock (clock w + d)%nat w)
                    ∧ coalesced s w0 (Some (value, (elapsed + d)%nat))
                        (put_clock (clock w + d)%nat w)).
    { apply (burst_step s w0 (Wait d) (Some (value, elapsed)) w);
        [exact Hwf | left; split; assumption | exact I | reflexivity]. }
    destruct Hstep as [Hwf1 Hco1].
    assert (Hexec : ∃ w', exec (Timeout id) (put_clock (clock w + d)%nat w) = Some w').
    { cbn. rewrite Ht. rewrite decide_True by lia. eexists; reflexivity. }
    destruct Hexec as [w' Hexec]. exists w'.
    split.
    { change (run [Wait d; Timeout id] w)
        with (match exec (Timeout id) (put_clock (clock w + d)%nat w) with
              | Some w1 => Some w1
              | None => None
              end).
      rewrite Hexec. reflexivity. }
    destruct (burst_step s w0 (Timeout id) _ _ w' Hwf1 Hco1 I Hexec) as [_ Hco'].
    cbn in Hco'. destruct Hco' as [[Harmed' _]|[Hidle' (t' & Hsent' & _ & _)]].
    + exfalso. destruct Harmed' as (id' & t' & _ & Ht' & Htask' & _ & Huniq').
      cbn in Hexec. rewrite Ht in Hexec. rewrite decide_True in Hexec by lia.
      injection Hexec as <-.
      assert (Hgone : idle s (run_task (task t) (clearTimeout id (put_clock (clock w + d)%nat w)))).
      { rewrite Htask. apply commit_task_runs.
        - apply wf_clearTimeout, Hwf1.
        - intros i ti Hi. cbn in Hi. timers_facts.
          destruct (is_commit s (task ti)) eqn:Hci; [|reflexivity].
          match goal with
          | Hne : id ≠ i, Hl : timers w !! i = Some ti |- _ =>
              destruct Hne; symmetry; exact (Huniq _ _ Hl Hci)
          end. }
      pose proof (Hgone _ _ Ht') as Hfalse. rewrite Htask' in Hfalse.
      destruct s; discriminate.
    + split; [|exact Hidle'].
      cbn in Hexec. rewrite Ht in Hexec. rewrite decide_True in Hexec by lia.
      injection Hexec as <-. rewrite Htask.
      assert (Hidle1 : idle s (clearTimeout id (put_clock (clock w + d)%nat w))).
      { intros i ti Hi. cbn in Hi. timers_facts.
        destruct (is_commit s (task ti)) eqn:Hci; [|reflexivity].
        match goal with
        | Hne : id ≠ i, Hl : timers w !! i = Some ti |- _ =>
            destruct Hne; symmetry; exact (Huniq _ _ Hl Hci)
        end. }
      destruct (commit_task_runs s value _ (wf_clearTimeout id _ Hwf1) Hidle1)
        as (_ & _ & _ & ->).
      cbn. unfold sent at 1. cbn. fold (sent s w). rewrite Hsent. reflexivity.
Qed.

Lemma wf_boot b : wf (boot b).
Proof.
  unfold wf, refers_to. cbn. split; [|repeat split]; intros; try discriminate;
    match goal with H : ∅ !! _ = Some _ |- _ => rewrite lookup_empty in H; discriminate end.
Qed.

Lemma idle_boot s b : idle s (boot b).
Proof. intros id t H. cbn in H. rewrite lookup_empty in H. discriminate. Qed.

Lemma debounce_coalesces_witness :
  wf (boot (TauriV2 None))
  ∧ idle Volume (boot (TauriV2 None))
  ∧ burst_ok Volume [Ui (VolumeChange 30); Wait 10; Ui (KeyDown ArrowUp OnVolumeSlider);
                     Wait 10; Ui (VolumeChange 60); Wait 50; Timeout 3]
      (boot (TauriV2 None)) None
  ∧ ∃ w, follow Volume [Ui (VolumeChange 30); Wait 10; Ui (KeyDown ArrowUp OnVolumeSlider);
                        Wait 10; Ui (VolumeChange 60); Wait 50; Timeout 3]
             (boot (TauriV2 None)) None = Some (w, Some (60, 50%nat))
         ∧ ((sent Volume w = sent Volume (boot (TauriV2 None))
             ∧ ∃ id, debounceTimer Volume w = Some id
                 ∧ (∀ d, (50 + d < 50)%nat → run [Wait d; Timeout id] w = None)
                 ∧ (∀ d, (50 ≤ 50 + d)%nat →
                      ∃ w', run [Wait d; Timeout id] w = Some w'
                            ∧ sent Volume w'
                              = sent Volume (boot (TauriV2 None))
                                ++ [commit_call Volume (clock w + d) 60]
                            ∧ idle Volume w'))
            ∨ (idle Volume w
               ∧ ∃ t, sent Volume w
                      = sent Volume (boot (TauriV2 None)) ++ [commit_call Volume t 60]
                      ∧ (clock w + 50 ≤ t + 50)%nat
                      ∧ (t ≤ clock w)%nat)).
Proof.
  assert (Hok : burst_ok Volume
                  [Ui (VolumeChange 30); Wait 10; Ui (KeyDown ArrowUp OnVolumeSlider);
                   Wait 10; Ui (VolumeChange 60); Wait 50; Timeout 3]
                  (boot (TauriV2 None)) None).
  { vm_compute. repeat split; lia. }
  split; [apply wf_boot|]. split; [apply idle_boot|]. split; [exact Hok|].
  assert (Hfollow : ∃ w, follow Volume
                       [Ui (VolumeChange 30); Wait 10; Ui (KeyDown ArrowUp OnVolumeSlider);
                        Wait 10; Ui (VolumeChange 60); Wait 50; Timeout 3]
                       (boot (TauriV2 None)) None = Some (w, Some (60, 50%nat))).
  { eexists. vm_compute. reflexivity. }
  destruct Hfollow as [w Hfollow]. exists w. split; [exact Hfollow|].
  exact (proj2 (debounce_coalesces Volume (boot (TauriV2 None)) _ w 60 50%nat
                  (wf_boot _) (idle_boot _ _) Hok Hfollow)).
Defined.

(** The scenario of the specification: 'change' events at times 0, 10 and
    20.  At time 20 nothing has been sent; the timer of the last event is
    handle 3; it cannot run before time 70, and when it runs it makes the
    one call, with the number of the event at time 20. *)
Example debounce_0_10_20 (s : Slider) (a b c : Z) :
  ∃ w, run [Ui (commit s a); Wait 10; Ui (commit s b); Wait 10; Ui (commit s c)]
           (boot (TauriV2 None)) = Some w
       ∧ clock w = 20%nat
       ∧ trace w = []
       ∧ (∀ d, (d < 50)%nat → run [Wait d; Timeout 3] w = None)
       ∧ (∀ d, (50 ≤ d)%nat →
            ∃ w', run [Wait d; Timeout 3] w = Some w'
                  ∧ trace w' = [commit_call s (20 + d) c]).
Proof.
  assert (Hshape : ∃ w,
    run [Ui (commit s a); Wait 10; Ui (commit s b); Wait 10; Ui (commit s c)]
        (boot (TauriV2 None)) = Some w
    ∧ clock w = 20%nat ∧ trace w = []
    ∧ timers w !! 3%positive = Some {| due := 70; task := commit_task s c |}).
  { destruct s; (eexists; split; [vm_compute; reflexivity|]);
      (split; [reflexivity|]); (split; [reflexivity|]); vm_compute; reflexivity. }
  destruct Hshape as (w & Hrun & Hclock & Htrace & Htimer).
  exists w. split; [exact Hrun|]. split; [exact Hclock|]. split; [exact Htrace|].
  split; intros d Hd.
  - cbn. rewrite Htimer. cbn. rewrite decide_False by lia. reflexivity.
  - destruct (drag_then_fire s c 3%positive {| due := 70; task := commit_task s c |}
                [Wait d] w) as (w' & Hrun' & Htrace' & _);
      [repeat constructor | exact Htimer | reflexivity | cbn; lia |].
    exists w'. split; [exact Hrun'|].
    rewrite Htrace', Htrace, Hclock. cbn. rewrite Nat.add_0_r. reflexivity.
Qed.

(** ** Which rejections nobody handles *)

Lemma unhandled_update_state f w : unhandled (update_state f w) = unhandled w.
Proof. reflexivity. Qed.
Lemma unhandled_update_els f w : unhandled (update_els f w) = unhandled w.
Proof. reflexivity. Qed.
Lemma unhandled_console_log msg w : unhandled (console_log msg w) = unhandled w.
Proof. reflexivity. Qed.
Lemma unhandled_setTimeout t d w : unhandled (snd (setTimeout t d w)) = unhandled w.
Proof. reflexivity. Qed.
Lemma unhandled_clearTimeout id w : unhandled (clearTimeout id w) = unhandled w.
Proof. reflexivity. Qed.
Lemma unhandled_put_inflight m n w : unhandled (put_inflight m n w) = unhandled w.
Proof. reflexivity. Qed.
Lemma unhandled_showToast message type w : unhandled (showToast message type w) = unhandled w.
Proof. open_toast w; reflexivity. Qed.
Lemma unhandled_hide_toast w : unhandled (hide_toast w) = unhandled w.
Proof. unfold hide_toast. destruct (toast (els w)); reflexivity. Qed.
Lemma unhandled_showLoading w : unhandled (showLoading w) = unhandled w.
Proof. unfold showLoading. cbn. destruct (loadingOverlay_hidden (els w)); reflexivity. Qed.
Lemma unhandled_hideLoading w : unhandled (hideLoading w) = unhandled w.
Proof. unfold hideLoading. cbn. destruct (loadingOverlay_hidden (els w)); reflexivity. Qed.
Lemma unhandled_updateVolumeUI w : unhandled (updateVolumeUI w) = unhandled w.
Proof. unfold updateVolumeUI. cbn. destruct (muted (state w)); reflexivity. Qed.
Lemma unhandled_updateBrightnessUI w : unhandled (updateBrightnessUI w) = unhandled w.
Proof. reflexivity. Qed.
Lemma unhandled_updateWifiUI w : unhandled (updateWifiUI w) = unhandled w.
Proof.
  unfold updateWifiUI. cbn.
  destruct (wifiEnabled (state w) && wifiConnected (state w) && truthy (wifiSsid (state w)));
    [|destruct (wifiEnabled (state w))]; reflexivity.
Qed.
Lemma unhandled_updateBluetoothUI w : unhandled (updateBluetoothUI w) = unhandled w.
Proof. reflexivity. Qed.
Lemma unhandled_updateNightLightUI w : unhandled (updateNightLightUI w) = unhandled w.
Proof. reflexivity. Qed.
Lemma unhandled_updateAllUI w : unhandled (updateAllUI w) = unhandled w.
Proof.
  unfold updateAllUI.
  rewrite unhandled_updateNightLightUI, unhandled_updateBluetoothUI, unhandled_updateWifiUI,
    unhandled_updateBrightnessUI, unhandled_updateVolumeUI. reflexivity.
Qed.
Lemma unhandled_await_invoke command args k w :
  unhandled (await_invoke command args k w) = unhandled w.
Proof. by_bridge w; unfold invoke_catch; rewrite ?unhandled_showToast; reflexivity. Qed.
Lemma unhandled_invoke_catch command error w :
  unhandled (invoke_catch command error w) = unhandled w.
Proof. unfold invoke_catch. rewrite unhandled_showToast. reflexivity. Qed.
Lemma unhandled_invoke_settled command r w :
  unhandled (invoke_settled command r w) = unhandled w.
Proof.
  destruct r; cbn -[showToast]; [|unfold invoke_catch; rewrite unhandled_showToast];
    reflexivity.
Qed.
Lemma unhandled_handleVolumeChange v w : unhandled (handleVolumeChange v w) = unhandled w.
Proof. unfold handleVolumeChange, clear_if_set. destruct (volumeDebounceTimer w); reflexivity. Qed.
Lemma unhandled_handleBrightnessChange v w :
  unhandled (handleBrightnessChange v w) = unhandled w.
Proof.
  unfold handleBrightnessChange, clear_if_set.
  destruct (brightnessDebounceTimer w); reflexivity.
Qed.
Lemma unhandled_handleVolumeInput v w : unhandled (handleVolumeInput v w) = unhandled w.
Proof. reflexivity. Qed.
Lemma unhandled_handleBrightnessInput v w : unhandled (handleBrightnessInput v w) = unhandled w.
Proof. reflexivity. Qed.

Ltac unhandled_through :=
  repeat first
    [ rewrite unhandled_update_state | rewrite unhandled_update_els
    | rewrite unhandled_console_log | rewrite unhandled_setTimeout
    | rewrite unhandled_clearTimeout | rewrite unhandled_put_inflight
    | rewrite unhandled_showToast | rewrite unhandled_hide_toast
    | rewrite unhandled_showLoading | rewrite unhandled_hideLoading
    | rewrite unhandled_updateVolumeUI | rewrite unhandled_updateBrightnessUI
    | rewrite unhandled_updateWifiUI | rewrite unhandled_updateBluetoothUI
    | rewrite unhandled_updateNightLightUI | rewrite unhandled_updateAllUI
    | rewrite unhandled_await_invoke | rewrite unhandled_invoke_settled
    | rewrite unhandled_invoke_catch
    | rewrite unhandled_handleVolumeChange | rewrite unhandled_handleBrightnessChange
    | rewrite unhandled_handleVolumeInput | rewrite unhandled_handleBrightnessInput ].

(** The rest of every async function but the two deferred callbacks settles
    its failures itself. *)
Lemma handled_elsewhere k r w w' :
  k ≠ in_wifiRefresh → k ≠ in_suspend →
  resume k r w = Some w' → unhandled w' = unhandled w.
Proof.
  intros Hw Hs.
  destruct k, r as [[| | | |]|]; try congruence; cbn [resume]; try discriminate;
    try destruct after;
    refine (from_Some (λ x, unhandled x = unhandled w) _ _ _);
    unfold refreshVolume, refreshBrightness; cbv zeta;
    unhandled_through; reflexivity.
Qed.

Lemma unhandled_dispatch e w : unhandled (dispatch e w) = unhandled w.
Proof.
  destruct e; cbn [dispatch];
    try (destruct key, active; cbn [handleKeyDown]);
    unfold toggleWifi, toggleBluetooth, toggleNightLight, suspendSystem, toggleMute,
      closeWindow, loadInitialState, key_adjust_volume, key_adjust_brightness;
    cbv zeta;
    repeat match goal with
      | |- context [decide ?P] => destruct (decide P)
      | |- context [bridge w] => destruct (bridge w)
      end;
    unhandled_through; reflexivity.
Qed.

Lemma unhandled_run_task t w : unhandled (run_task t w) = unhandled w.
Proof. destruct t; cbn [run_task]; unhandled_through; reflexivity. Qed.

(** Over the whole event loop: a step leaves the list of unhandled
    rejections as it is, except when a rejection is delivered to the
    deferred status fetch of [toggleWifi] or to the deferred call of
    [suspendSystem]. *)
Lemma unhandled_only_deferred a w w' :
  exec a w = Some w' →
  unhandled w' = unhandled w
  ∨ ∃ call error p,
      a = Settle call (Rejected error)
      ∧ inflight w !! call = Some p
      ∧ (p_cont p = in_wifiRefresh ∨ p_cont p = in_suspend)
      ∧ unhandled w' = unhandled w ++ [error].
Proof.
  destruct a as [d|id|e|call r]; cbn -[resume invoke_settled dispatch run_task].
  - intros [= <-]. left. reflexivity.
  - destruct (timers w !! id) as [t|]; [|discriminate].
    destruct (decide _); [|discriminate].
    refine (from_Some (λ x, unhandled x = unhandled w ∨ _) _ _ _).
    left. rewrite unhandled_run_task. reflexivity.
  - refine (from_Some (λ x, unhandled x = unhandled w ∨ _) _ _ _).
    left. apply unhandled_dispatch.
  - destruct (inflight w !! call) as [p|] eqn:Hp; [|discriminate].
    destruct (delivers (p_promise p) r); [|discriminate].
    intros Hres.
    destruct (decide (p_cont p = in_wifiRefresh ∨ p_cont p = in_suspend)) as [Hd|Hd].
    + destruct r as [v|error].
      * left. destruct Hd as [Hk|Hk]; rewrite Hk in Hres;
          destruct v; cbn in Hres; try discriminate; injection Hres as <-;
          destruct (p_promise p); unhandled_through; reflexivity.
      * right. exists call, error, p. split; [reflexivity|]. split; [exact Hp|].
        split; [exact Hd|].
        destruct Hd as [Hk|Hk]; rewrite Hk in Hres; cbn [resume] in Hres;
          injection Hres as <-; unfold unhandled_rejection; cbn [unhandled put_unhandled];
          destruct (p_promise p); unhandled_through; reflexivity.
    + left.
      rewrite (handled_elsewhere _ _ _ _ (λ H, Hd (or_introl H)) (λ H, Hd (or_intror H)) Hres).
      destruct (p_promise p); unhandled_through; reflexivity.
Qed.

(** ** Handles stay well-formed *)

Lemma wf_handleChange s v w : wf w → wf (handleChange s v w).
Proof.
  intros Hwf. destruct s; cbn [handleChange].
  - exact (keeps_wf _ _ _ (keeps_handleVolumeChange v w Hwf)).
  - exact (keeps_wf _ _ _ (keeps_handleBrightnessChange v w Hwf)).
Qed.

Lemma wf_exec a w w' : wf w → exec a w = Some w' → wf w'.
Proof.
  intros Hwf. destruct a as [d|id|e|call r]; cbn -[resume invoke_settled dispatch run_task].
  - intros [= <-]. exact Hwf.
  - destruct (timers w !! id) as [t|]; [|discriminate].
    destruct (decide _); [|discriminate].
    refine (from_Some wf _ _ _).
    pose proof (wf_clearTimeout id w Hwf) as Hwf1.
    destruct (is_commit Volume (task t)) eqn:Hc.
    + destruct (task t); try discriminate Hc. cbn [run_task].
      exact (proj1 (await_invoke_timers Volume _ _ _ _ Hwf1)).
    + exact (keeps_wf _ _ _ (keeps_run_task Volume _ _ Hwf1 Hc)).
  - refine (from_Some wf _ _ _).
    destruct (commit_of Volume e w) as [v|] eqn:Hcommit.
    + destruct (commit_shape _ _ _ _ Hcommit) as (w1 & Hview & ->).
      apply wf_handleChange. exact (wf_of_view _ _ Hview Hwf).
    + exact (keeps_wf _ _ _ (keeps_dispatch Volume e w Hwf Hcommit)).
  - destruct (inflight w !! call) as [p|]; [|discriminate].
    destruct (delivers (p_promise p) r); [|discriminate].
    intros Hres. refine (keeps_wf Volume _ _ (keeps_resume Volume _ _ _ _ _ Hres)).
    destruct (p_promise p).
    + refine (keeps_wf Volume _ _ (keeps_invoke_settled Volume _ _ _ _)). exact Hwf.
    + exact Hwf.
Qed.

(** Every world the event loop reaches from start-up has well-formed
    handles. *)
Lemma wf_run acts : ∀ w w', wf w → run acts w = Some w' → wf w'.
Proof.
  induction acts as [|a acts IH]; intros w w' Hwf Hrun; cbn in Hrun.
  - injection Hrun as <-. exact Hwf.
  - destruct (exec a w) as [w1|] eqn:Hexec; [|discriminate].
    exact (IH _ _ (wf_exec _ _ _ Hwf Hexec) Hrun).
Qed.

(** * Further properties of the script *)

(** ** The page after [updateAllUI] *)

Lemma assign_width_shown v old : 0 ≤ v → assign_width v old = v.
Proof. unfold assign_width. intros H. destruct (Z.leb_spec 0 v); [reflexivity | lia]. Qed.

Lemma assign_width_dropped v old : v < 0 → assign_width v old = old.
Proof. unfold assign_width. intros H. destruct (Z.leb_spec 0 v); [lia | reflexivity]. Qed.



Lemma put_els_put_els e1 e2 w : put_els e2 (put_els e1 w) = put_els e2 w.
Proof. reflexivity. Qed.






(** X2 (status text).  The text [updateWifiUI] writes is the one the tests'
    [getWifiStatusText] computes from the same three fields, and it is never
    empty: an empty SSID counts as absent and 'On' is shown instead. *)
Theorem wifi_status_never_empty (w : World) :
  wifiStatus (els (updateWifiUI w))
  = getWifiStatusText (wifiEnabled (state w)) (wifiConnected (state w)) (wifiSsid (state w))
  ∧ wifiStatus (els (updateWifiUI w)) ≠ EmptyString
  ∧ wifiTile_enabled (els (updateWifiUI w)) = wifiEnabled (state w).
Proof.
  unfold updateWifiUI, getWifiStatusText, truthy. cbn.
  destruct (wifiEnabled (state w)), (wifiConnected (state w)),
    (wifiSsid (state w)) as [ssid|]; cbn;
    try destruct (String.eqb_spec ssid EmptyString); cbn;
    repeat split; try discriminate; assumption.
Qed.

(** ** The clamps of the tests *)

(** X3 (clamps).  [clampVolume] lands in 0..100 and [clampBrightness] in
    1..100, whatever they are given; both leave exactly the numbers of their
    range as they are, so applying one twice is applying it once; and both
    are monotone. *)
Theorem clamps_are_projections (v : Z) :
  (0 ≤ clampVolume v ≤ 100)
  ∧ (1 ≤ clampBrightness v ≤ 100)
  ∧ (clampVolume v = v ↔ 0 ≤ v ≤ 100)
  ∧ (clampBrightness v = v ↔ 1 ≤ v ≤ 100)
  ∧ clampVolume (clampVolume v) = clampVolume v
  ∧ clampBrightness (clampBrightness v) = clampBrightness v
  ∧ clampBrightness v = Z.max 1 (clampVolume v)
  ∧ (∀ u, u ≤ v → clampVolume u ≤ clampVolume v ∧ clampBrightness u ≤ clampBrightness v).
Proof. unfold clampVolume, clampBrightness. repeat split; intros; lia. Qed.

(** ** Arrow keys *)

Lemma arrow_key_shape s key w :
  key = ArrowUp ∨ key = ArrowDown →
  handleKeyDown key (focus_on s) w
  = handleChange s (adjustValue (slider_position s (els w)) key (key_floor s) 100 5)
      (match s with
       | Volume => handleVolumeInput
       | Brightness => handleBrightnessInput
       end (adjustValue (slider_position s (els w)) key (key_floor s) 100 5)
         (update_els (match s with
                      | Volume => set_volumeSlider_value
                      | Brightness => set_brightnessSlider_value
                      end (adjustValue (slider_position s (els w)) key (key_floor s) 100 5))
            w)).
Proof. intros [-> | ->]; destruct s; reflexivity. Qed.

Lemma adjustValue_range s key pos :
  key_floor s ≤ pos ≤ 100 → key_floor s ≤ adjustValue pos key (key_floor s) 100 5 ≤ 100.
Proof. unfold adjustValue. destruct s, key; cbn; lia. Qed.

(** X4 (arrow keys follow [adjustValue]).  With the focused slider standing
    inside its range (0..100 for volume, 1..100 for brightness), an arrow
    key stores the number the tests' [adjustValue] gives for the slider's
    position, with step 5, ceiling 100 and floor 0 for volume, 1 for
    brightness; the slider, the fill and the label show the same number, and
    the debounce timer started by the key captures that number too, due 50
    later.  No call is made by the key itself. *)
Theorem arrow_keys_follow_adjustValue (s : Slider) (key : Key) (w : World) :
  key = ArrowUp ∨ key = ArrowDown →
  key_floor s ≤ slider_position s (els w) ≤ 100 →
  let target := adjustValue (slider_position s (els w)) key (key_floor s) 100 5 in
  let w' := handleKeyDown key (focus_on s) w in
  level s (state w') = target
  ∧ slider_position s (els w') = target
  ∧ slider_shown s (els w') = (target, target)
  ∧ debounceTimer s w' = Some (nextTimer w)
  ∧ timers w' !! nextTimer w
    = Some {| due := (clock w + 50)%nat; task := commit_task s target |}
  ∧ trace w' = trace w
  ∧ inflight w' = inflight w.
Proof.
  intros Hkey Hrange. cbv zeta. rewrite (arrow_key_shape s key w Hkey).
  pose proof (adjustValue_range s key _ Hrange) as Ht.
  set (target := adjustValue _ _ _ _ _) in *.
  assert (H0 : 0 ≤ target) by (destruct s; cbn in Ht; lia).
  destruct s; cbn [handleChange]; unfold handleVolumeChange, handleBrightnessChange,
    clear_if_set; cbn.
  - destruct (volumeDebounceTimer w); cbn; rewrite lookup_insert_eq, (assign_width_shown _ _ H0);
      repeat split.
  - destruct (brightnessDebounceTimer w); cbn;
      rewrite lookup_insert_eq, (assign_width_shown _ _ H0); repeat split.
Qed.

Lemma arrow_keys_follow_adjustValue_witness :
  (ArrowDown = ArrowUp ∨ ArrowDown = ArrowDown)
  ∧ key_floor Brightness ≤ slider_position Brightness (els (boot (TauriV2 None))) ≤ 100
  ∧ brightness (state (handleKeyDown ArrowDown OnBrightnessSlider (boot (TauriV2 None)))) = 45
  ∧ slider_shown Brightness
      (els (handleKeyDown ArrowDown OnBrightnessSlider (boot (TauriV2 None)))) = (45, 45).
Proof.
  assert (Hkey : ArrowDown = ArrowUp ∨ ArrowDown = ArrowDown) by (right; reflexivity).
  assert (Hrange : key_floor Brightness
                   ≤ slider_position Brightness (els (boot (TauriV2 None))) ≤ 100).
  { cbn. lia. }
  split; [exact Hkey|]. split; [exact Hrange|].
  pose proof (arrow_keys_follow_adjustValue Brightness ArrowDown (boot (TauriV2 None))
                Hkey Hrange) as (Hl & _ & Hs & _).
  split; [exact Hl | exact Hs].
Defined.

Lemma arrow_key_level s key w :
  key = ArrowUp ∨ key = ArrowDown →
  level s (state (handleKeyDown key (focus_on s) w))
  = adjustValue (slider_position s (els w)) key (key_floor s) 100 5.
Proof.
  intros Hkey. rewrite (arrow_key_shape s key w Hkey).
  destruct s; cbn [handleChange]; unfold handleVolumeChange, handleBrightnessChange,
    clear_if_set; cbn.
  - destruct (volumeDebounceTimer w); reflexivity.
  - destruct (brightnessDebounceTimer w); reflexivity.
Qed.

(** X5 (arrow keys stay in range).  [handleKeyDown] reads the slider, not
    the store.  When the focused slider stands inside its range (0..100 for
    volume, 1..100 for brightness), an arrow key leaves the stored number
    inside that range and within 5 of the slider's position: 5 above it
    unless that would pass 100, 5 below it unless that would pass the floor.
    Where the store held the slider's position before the key, the stored
    number has so moved by at most 5. *)
Theorem arrow_keys_stay_in_range (s : Slider) (key : Key) (w : World) :
  key = ArrowUp ∨ key = ArrowDown →
  key_floor s ≤ slider_position s (els w) ≤ 100 →
  let position := slider_position s (els w) in
  let after := level s (state (handleKeyDown key (focus_on s) w)) in
  key_floor s ≤ after ≤ 100
  ∧ Z.abs (after - position) ≤ 5
  ∧ (key = ArrowUp → after = (if decide (position + 5 ≤ 100) then position + 5 else 100))
  ∧ (key = ArrowDown →
     after = (if decide (key_floor s ≤ position - 5) then position - 5 else key_floor s))
  ∧ (level s (state w) = position → Z.abs (after - level s (state w)) ≤ 5).
Proof.
  intros Hkey Hrange. cbv zeta.
  rewrite (arrow_key_level s key w Hkey).
  unfold adjustValue.
  destruct Hkey as [-> | ->]; destruct s; cbn in *;
    repeat split; intros; try discriminate; try case_decide; lia.
Qed.

Lemma arrow_keys_stay_in_range_witness :
  (ArrowUp = ArrowUp ∨ ArrowUp = ArrowDown)
  ∧ key_floor Volume ≤ slider_position Volume (els (boot (TauriV2 None))) ≤ 100
  ∧ 0 ≤ volume (state (handleKeyDown ArrowUp OnVolumeSlider (boot (TauriV2 None)))) ≤ 100
  ∧ Z.abs (volume (state (handleKeyDown ArrowUp OnVolumeSlider (boot (TauriV2 None))))
           - volume (state (boot (TauriV2 None)))) ≤ 5.
Proof.
  assert (Hkey : ArrowUp = ArrowUp ∨ ArrowUp = ArrowDown) by (left; reflexivity).
  assert (Hrange : key_floor Volume ≤ slider_position Volume (els (boot (TauriV2 None))) ≤ 100).
  { cbn. lia. }
  split; [exact Hkey|]. split; [exact Hrange|].
  pose proof (arrow_keys_stay_in_range Volume ArrowUp (boot (TauriV2 None)) Hkey Hrange)
    as (Hin & _ & _ & _ & Hmove).
  split; [exact Hin | exact (Hmove eq_refl)].
Defined.

(** ** Dragging *)

(** An 'input' event on slider [s]: the label takes the number, the fill
    takes it when it is a width. *)
Lemma drag_fill s v w :
  slider_shown s (els (dispatch (raw s v) w))
  = (assign_width v (fst (slider_shown s (els w))), v).
Proof. destruct s; reflexivity. Qed.

(** X6 (raw input is local).  However many 'input' events a slider gets,
    the store, the slider and its label end at the number of the last one;
    so does the fill when that number is not negative, while a negative
    number leaves the fill where the events before it had put it.  Nothing
    else has happened: no call, no call awaited, no timer started or
    cleared, no clock tick. *)
Theorem drag_is_local (s : Slider) (values : list Z) (last : Z) (w : World) :
  ∃ w1 w', run (map (λ v, Ui (raw s v)) values) w = Some w1
        ∧ run (map (λ v, Ui (raw s v)) (values ++ [last])) w = Some w'
        ∧ level s (state w') = last
        ∧ slider_position s (els w') = last
        ∧ snd (slider_shown s (els w')) = last
        ∧ (0 ≤ last → fst (slider_shown s (els w')) = last)
        ∧ (last < 0 → fst (slider_shown s (els w')) = fst (slider_shown s (els w1)))
        ∧ timer_view w' = timer_view w
        ∧ inflight w' = inflight w
        ∧ unhandled w' = unhandled w.
Proof.
  revert w. induction values as [|v values IH]; intros w.
  - exists w. eexists. split; [reflexivity|]. split; [reflexivity|].
    cbn [app map run exec]. rewrite drag_fill. cbn [fst snd].
    split; [destruct s; reflexivity|]. split; [destruct s; reflexivity|].
    split; [reflexivity|].
    split; [apply assign_width_shown|]. split; [apply assign_width_dropped|].
    destruct s; repeat split.
  - destruct (IH (dispatch (raw s v) w))
      as (w1 & w' & Hrun1 & Hrun & Hl & Hp & Ht & Hs & Hn & Hv & Hi & Hu).
    exists w1, w'. split; [exact Hrun1|]. split; [exact Hrun|].
    split; [exact Hl|]. split; [exact Hp|]. split; [exact Ht|].
    split; [exact Hs|]. split; [exact Hn|].
    rewrite Hv, Hi, Hu. destruct s; repeat split.
Qed.

(** ** Settling a call *)

(** With a call that is rejected the caller resumes in a world that differs
    from the one before in the toast and its timer at most. *)
Lemma exec_settle_rejected call error w p :
  inflight w !! call = Some p →
  delivers (p_promise p) (Rejected error) = true →
  ∃ w1, exec (Settle call (Rejected error)) w = resume (p_cont p) (Rejected error) w1
        ∧ state w1 = state w
        ∧ set_toast None (els w1) = set_toast None (els w)
        ∧ trace w1 = trace w
        ∧ unhandled w1 = unhandled w
        ∧ clock w1 = clock w
        ∧ (∀ t, toast (els w) = Some t → ∃ t', toast (els w1) = Some t').
Proof.
  intros Hp Hd. cbn -[resume invoke_settled]. rewrite Hp, Hd.
  eexists. split; [reflexivity|].
  destruct (p_promise p); cbn -[showToast]; unfold invoke_catch;
    rewrite ?showToast_state, ?showToast_trace, ?unhandled_showToast;
    repeat split; eauto;
    try (open_toast (console_log
                       ("Command " ++ command_name (p_command p) ++ " failed: " ++ error)
                       (put_inflight (delete call (inflight w)) (nextCall w) w));
         reflexivity).
  intros t Ht. eexists. apply (showToast_toast _ _ _ t). exact Ht.
Qed.


(** Hiding the overlay twice is hiding it once. *)
Lemma hideLoading_twice w : hideLoading (hideLoading w) = hideLoading w.
Proof.
  unfold hideLoading. cbn. destruct (loadingOverlay_hidden (els w)) eqn:Ho; cbn.
  - reflexivity.
  - rewrite Ho. reflexivity.
Qed.

(** ** Reconciliation *)



Lemma showToast_rest message type w :
  set_toast None (els (showToast message type w)) = set_toast None (els w).
Proof. open_toast w; reflexivity. Qed.

(** X8 (failed reconciliation).  When the [get_all_states] call is
    rejected, no control in [state] changes (only the loading flag is
    cleared), no element changes but the toast and the loading overlay, no
    further call is made and the rejection is handled; the toast ends
    showing 'Failed to load system state', which replaces the message
    [invoke] showed for the same failure. *)
Theorem reconcile_failure_keeps_store (w : World) (call : positive) (p : Pending)
    (error : string) (t : Toast) :
  inflight w !! call = Some p →
  p_cont p = in_loadInitialState →
  delivers (p_promise p) (Rejected error) = true →
  toast (els w) = Some t →
  ∃ w', exec (Settle call (Rejected error)) w = Some w'
        ∧ state w' = with_isLoading false (state w)
        ∧ toast (els w')
          = Some {| textContent := "Failed to load system state"; shown := true;
                    severity := "error" |}
        ∧ set_loadingOverlay_hidden None (set_toast None (els w'))
          = set_loadingOverlay_hidden None (set_toast None (els w))
        ∧ trace w' = trace w
        ∧ unhandled w' = unhandled w.
Proof.
  intros Hp Hk Hd Ht.
  destruct (exec_settle_rejected _ _ _ _ Hp Hd)
    as (w1 & -> & Hs & He & Htr & Hu & _ & Htoast).
  destruct (Htoast _ Ht) as [t1 Ht1].
  rewrite Hk. cbn [resume]. eexists. split; [reflexivity|].
  set (w2 := console_log _ w1).
  assert (Ht2 : toast (els w2) = Some t1) by exact Ht1.
  split; [rewrite hideLoading_state, showToast_state; cbn; rewrite Hs; reflexivity|].
  split.
  { unfold hideLoading. cbn.
    destruct (loadingOverlay_hidden (els (showToast _ _ w2))); cbn;
      apply (showToast_toast _ _ _ t1); exact Ht2. }
  split.
  { unfold hideLoading. cbn -[showToast].
    pose proof (showToast_rest "Failed to load system state" "error" w2) as Hrest.
    destruct (loadingOverlay_hidden (els (showToast _ _ w2))); cbn -[showToast];
      rewrite <- He; change (els w1) with (els w2); rewrite <- Hrest;
      destruct (els (showToast "Failed to load system state" "error" w2)); reflexivity. }
  split.
  - unfold hideLoading. cbn. rewrite <- Htr.
    destruct (loadingOverlay_hidden (els (showToast _ _ w2))); cbn;
      rewrite showToast_trace; reflexivity.
  - rewrite unhandled_hideLoading, unhandled_showToast. exact Hu.
Qed.

Lemma reconcile_failure_keeps_store_witness :
  ∃ w', exec (Settle 1 (Rejected "timeout")) (dispatch WindowShown (boot (TauriV2 None)))
        = Some w'
        ∧ state w' = with_isLoading false (state (dispatch WindowShown (boot (TauriV2 None))))
        ∧ textContent <$> toast (els w') = Some "Failed to load system state"%string.
Proof.
  destruct (reconcile_failure_keeps_store (dispatch WindowShown (boot (TauriV2 None))) 1
              {| p_command := get_all_states; p_promise := AwaitsBackend;
                 p_cont := in_loadInitialState |}
              "timeout" {| textContent := EmptyString; shown := false; severity := "info" |})
    as (w' & Hexec & Hs & Ht & _);
    [vm_compute; reflexivity | reflexivity | reflexivity | reflexivity |].
  exists w'. split; [exact Hexec|]. split; [exact Hs|]. rewrite Ht. reflexivity.
Defined.

(** ** The guarded controls when their call settles *)

Lemma showToast_bridge message type w : bridge (showToast message type w) = bridge w.
Proof. open_toast w; reflexivity. Qed.

Lemma showToast_clock message type w : clock (showToast message type w) = clock w.
Proof. open_toast w; reflexivity. Qed.

(** A settling call: the promise is taken out of flight, [invoke] finishes
    (touching the toast and its timer at most), and the caller resumes. *)
Lemma exec_settle call r w p :
  inflight w !! call = Some p →
  delivers (p_promise p) r = true →
  ∃ w1, exec (Settle call r) w = resume (p_cont p) r w1
        ∧ state w1 = state w
        ∧ set_toast None (els w1) = set_toast None (els w)
        ∧ inflight w1 = delete call (inflight w)
        ∧ nextCall w1 = nextCall w
        ∧ trace w1 = trace w
        ∧ unhandled w1 = unhandled w
        ∧ clock w1 = clock w
        ∧ bridge w1 = bridge w
        ∧ (∀ v, r = Resolved v →
             w1 = put_inflight (delete call (inflight w)) (nextCall w) w).
Proof.
  intros Hp Hd. cbn -[resume invoke_settled]. rewrite Hp, Hd.
  eexists. split; [reflexivity|].
  destruct (p_promise p), r as [v|error]; cbn -[showToast]; unfold invoke_catch;
    rewrite ?showToast_state, ?showToast_trace, ?unhandled_showToast, ?showToast_rest,
      ?showToast_clock, ?showToast_bridge;
    try (destruct (showToast_inflight ("Error: " ++ error) "error"
                     (console_log
                        ("Command " ++ command_name (p_command p) ++ " failed: " ++ error)
                        (put_inflight (delete call (inflight w)) (nextCall w) w)))
           as [-> ->]);
    repeat split; intros; congruence.
Qed.

Lemma tile_of_rest k e e' : set_toast None e' = set_toast None e → tile k e' = tile k e.
Proof.
  intros H. change (tile k (set_toast None e') = tile k (set_toast None e)).
  rewrite H. reflexivity.
Qed.

Lemma updateWifiUI_trace w : trace (updateWifiUI w) = trace w.
Proof.
  unfold updateWifiUI. cbn.
  destruct (wifiEnabled (state w) && wifiConnected (state w) && truthy (wifiSsid (state w)));
    [|destruct (wifiEnabled (state w))]; reflexivity.
Qed.

Lemma updateWifiUI_inflight w : inflight (updateWifiUI w) = inflight w.
Proof.
  unfold updateWifiUI. cbn.
  destruct (wifiEnabled (state w) && wifiConnected (state w) && truthy (wifiSsid (state w)));
    [|destruct (wifiEnabled (state w))]; reflexivity.
Qed.

(** What the rest of a toggle does to the pending keys and to the calls in
    flight, however the call settled. *)
Lemma rest_of_toggle_releases k newState r w :
  ∃ w', resume (rest_of_toggle k newState) r w = Some w'
        ∧ pendingOperations (state w') = pendingOperations (state w) ∖ {[pending_key k]}
        ∧ inflight w' = inflight w
        ∧ trace w' = trace w
        ∧ unhandled w' = unhandled w.
Proof.
  destruct k, r as [v|error]; cbn [rest_of_toggle resume]; eexists;
    (split; [reflexivity|]); cbn -[updateWifiUI];
    rewrite ?updateWifiUI_state, ?updateWifiUI_inflight, ?unhandled_updateWifiUI,
      ?updateWifiUI_trace;
    repeat split.
Qed.

(** X9 (the guard is released).  However the call of a guarded toggle
    settles, resolved with whatever value or rejected with whatever error,
    the rest of the toggle removes the control's key from
    [pendingOperations], and removes nothing else: the other controls stay
    pending if they were.  The settled call is no longer awaited, no new call
    is made at once, and the failure is handled.  So the control can be
    toggled again after every outcome. *)
Theorem toggle_releases_key (k : Kind) (newState : bool) (w : World) (call : positive)
    (p : Pending) (r : Result) :
  inflight w !! call = Some p →
  p_cont p = rest_of_toggle k newState →
  delivers (p_promise p) r = true →
  ∃ w', exec (Settle call r) w = Some w'
        ∧ pendingOperations (state w') = pendingOperations (state w) ∖ {[pending_key k]}
        ∧ ¬ pending k w'
        ∧ (∀ k', k' ≠ k → (pending k' w' ↔ pending k' w))
        ∧ inflight w' = delete call (inflight w)
        ∧ trace w' = trace w
        ∧ unhandled w' = unhandled w.
Proof.
  intros Hp Hk Hd.
  destruct (exec_settle call r w p Hp Hd)
    as (w1 & -> & Hs & _ & Hi & _ & Htr & Hu & _).
  rewrite Hk.
  destruct (rest_of_toggle_releases k newState r w1) as (w' & -> & Hpend & Hi' & Htr' & Hu').
  exists w'. split; [reflexivity|].
  rewrite Hs in Hpend.
  split; [exact Hpend|].
  split.
  { unfold pending. rewrite Hpend, elem_of_difference, elem_of_singleton. tauto. }
  split.
  { intros k' Hne. unfold pending. rewrite Hpend, elem_of_difference, elem_of_singleton.
    assert (pending_key k' ≠ pending_key k) by (destruct k, k'; cbn; congruence).
    tauto. }
  rewrite Hi', Htr', Hu'. repeat split; assumption.
Qed.

Lemma toggle_releases_key_witness :
  ∃ w', exec (Settle 1 (Rejected "boom")) (dispatch ClickWifi (boot (TauriV2 None))) = Some w'
        ∧ ¬ pending WiFi w'.
Proof.
  destruct (toggle_releases_key WiFi true (dispatch ClickWifi (boot (TauriV2 None))) 1
              {| p_command := set_wifi_enabled; p_promise := AwaitsBackend;
                 p_cont := in_toggleWifi true |} (Rejected "boom"))
    as (w' & Hexec & _ & Hfree & _);
    [vm_compute; reflexivity | reflexivity | reflexivity |].
  exists w'. split; [exact Hexec | exact Hfree].
Defined.

(** X10 (a toggle that went through).  When the call of a guarded toggle
    resolves, the store takes the value captured at the click, whatever the
    backend answered, and no other control's boolean changes.  Bluetooth and
    NightLight then redraw their tile and status text from the store and
    start no timer.  WiFi redraws nothing: the page is left exactly as it
    was, and one timer is started, due 1000 later, to fetch the status. *)
Theorem toggle_success (k : Kind) (newState : bool) (w : World) (call : positive)
    (p : Pending) (v : Value) :
  inflight w !! call = Some p →
  p_cont p = rest_of_toggle k newState →
  delivers (p_promise p) (Resolved v) = true →
  ∃ w', exec (Settle call (Resolved v)) w = Some w'
        ∧ stored k (state w') = newState
        ∧ (∀ k', k' ≠ k → stored k' (state w') = stored k' (state w))
        ∧ match k with
          | WiFi =>
              els w' = els w
              ∧ timers w'
                = <[nextTimer w := {| due := (clock w + 1000)%nat; task := WifiRefresh |}]>
                    (timers w)
          | Bluetooth =>
              bluetoothTile_enabled (els w') = newState
              ∧ bluetoothStatus (els w') = (if newState then "On" else "Off")%string
              ∧ timers w' = timers w
          | NightLight =>
              nightLightTile_enabled (els w') = newState
              ∧ nightLightStatus (els w') = (if newState then "On" else "Off")%string
              ∧ timers w' = timers w
          end.
Proof.
  intros Hp Hk Hd.
  destruct (exec_settle call (Resolved v) w p Hp Hd) as (w1 & -> & Hrest).
  do 8 destruct Hrest as [_ Hrest]. rewrite (Hrest v eq_refl), Hk.
  destruct k; cbn [rest_of_toggle resume]; eexists; (split; [reflexivity|]);
    (split; [reflexivity|]);
    (split; [intros k' Hne; destruct k'; try reflexivity; congruence|]);
    repeat split.
Qed.

Lemma toggle_success_witness :
  ∃ w', exec (Settle 1 (Resolved (VBool false)))
             (dispatch ClickWifi (boot (TauriV2 None))) = Some w'
        ∧ wifiEnabled (state w') = true
        ∧ wifiStatus (els w') = "Off"%string.
Proof.
  destruct (toggle_success WiFi true (dispatch ClickWifi (boot (TauriV2 None))) 1
              {| p_command := set_wifi_enabled; p_promise := AwaitsBackend;
                 p_cont := in_toggleWifi true |} (VBool false))
    as (w' & Hexec & Hs & _ & He & _);
    [vm_compute; reflexivity | reflexivity | reflexivity |].
  exists w'. split; [exact Hexec|]. split; [exact Hs|]. rewrite He. reflexivity.
Defined.

(** X11 (the deferred WiFi fetch).  When the [get_wifi_status] call of the
    WiFi timer resolves, the three WiFi fields of [state] take the values of
    the record, whether or not a WiFi toggle is pending; the record's
    Bluetooth fields are not read; the pending keys are left alone; and the
    WiFi tile and status text are redrawn from the new store.  Nothing else
    on the page changes and no call is made. *)
Theorem wifi_refresh_applies (w : World) (call : positive) (p : Pending) (n : NetworkState) :
  inflight w !! call = Some p →
  p_cont p = in_wifiRefresh →
  delivers (p_promise p) (Resolved (VNetwork n)) = true →
  ∃ w', exec (Settle call (Resolved (VNetwork n))) w = Some w'
        ∧ wifiEnabled (state w') = wifi_enabled n
        ∧ wifiConnected (state w') = wifi_connected n
        ∧ wifiSsid (state w') = wifi_ssid n
        ∧ bluetoothEnabled (state w') = bluetoothEnabled (state w)
        ∧ pendingOperations (state w') = pendingOperations (state w)
        ∧ wifiTile_enabled (els w') = wifi_enabled n
        ∧ wifiStatus (els w')
          = getWifiStatusText (wifi_enabled n) (wifi_connected n) (wifi_ssid n)
        ∧ set_wifiStatus EmptyString (set_wifiTile_enabled false (els w'))
          = set_wifiStatus EmptyString (set_wifiTile_enabled false (els w))
        ∧ trace w' = trace w
        ∧ timers w' = timers w.
Proof.
  intros Hp Hk Hd.
  destruct (exec_settle call (Resolved (VNetwork n)) w p Hp Hd) as (w1 & -> & Hrest).
  do 8 destruct Hrest as [_ Hrest]. rewrite (Hrest _ eq_refl), Hk.
  cbn [resume]. eexists. split; [reflexivity|].
  rewrite updateWifiUI_state, updateWifiUI_trace.
  do 5 (split; [reflexivity|]).
  unfold updateWifiUI, getWifiStatusText. cbn.
  destruct (wifi_enabled n && wifi_connected n && truthy (wifi_ssid n));
    [|destruct (wifi_enabled n)]; repeat split.
Qed.

Lemma run_app acts1 acts2 : ∀ w,
  run (acts1 ++ acts2) w
  = match run acts1 w with
    | Some w1 => run acts2 w1
    | None => None
    end.
Proof.
  induction acts1 as [|a acts1 IH]; intros w; [reflexivity|].
  cbn [app run]. destruct (exec a w); [apply IH | reflexivity].
Qed.

Lemma wifi_refresh_applies_witness :
  ∃ w', run ([Ui ClickWifi; Settle 1 (Resolved VNull); Wait 1000; Timeout 1]
             ++ [Settle 2 (Resolved (VNetwork {| wifi_enabled := true; wifi_connected := true;
                                                 wifi_ssid := Some "Home"%string;
                                                 bluetooth_enabled := true;
                                                 bluetooth_connected := true |}))])
            (boot (TauriV2 None)) = Some w'
        ∧ wifiStatus (els w') = "Home"%string
        ∧ bluetoothEnabled (state w') = false.
Proof.
  assert (Hrun : ∃ w1, run [Ui ClickWifi; Settle 1 (Resolved VNull); Wait 1000; Timeout 1]
                           (boot (TauriV2 None)) = Some w1
                       ∧ inflight w1 !! 2%positive
                         = Some {| p_command := get_wifi_status; p_promise := AwaitsBackend;
                                   p_cont := in_wifiRefresh |}
                       ∧ bluetoothEnabled (state w1) = false).
  { eexists. split; [vm_compute; reflexivity|]. split; vm_compute; reflexivity. }
  destruct Hrun as (w1 & Hrun & Hin & Hbt).
  destruct (wifi_refresh_applies w1 2
              {| p_command := get_wifi_status; p_promise := AwaitsBackend;
                 p_cont := in_wifiRefresh |}
              {| wifi_enabled := true; wifi_connected := true;
                 wifi_ssid := Some "Home"%string;
                 bluetooth_enabled := true; bluetooth_connected := true |}
              Hin eq_refl eq_refl)
    as (w' & Hexec & _ & _ & _ & Hb & _ & _ & Hst & _).
  exists w'. split.
  - rewrite run_app, Hrun. cbn [run]. rewrite Hexec. reflexivity.
  - split; [rewrite Hst; reflexivity | rewrite Hb; exact Hbt].
Defined.
(** X12 (one guard per control).  A pending toggle of one control does not
    hold back another: with [k] pending and [k'] free, a click on [k']
    makes its call, flips its tile and takes its own key, while [k] stays
    pending with its boolean and tile as they were. *)
Theorem guards_are_per_control (k k' : Kind) (w : World) :
  pending k w →
  ¬ pending k' w →
  let w' := dispatch (click k') w in
  trace w' = trace w ++ [toggle_call k' w]
  ∧ pending k' w'
  ∧ tile k' (els w') = negb (stored k' (state w))
  ∧ pending k w'
  ∧ stored k (state w') = stored k (state w)
  ∧ tile k (els w') = tile k (els w).
Proof.
  intros Hp Hfree. cbv zeta.
  destruct (calm_dispatch k (click k') w Hp) as (Hs & Ht & Hkeep & _).
  split; [rewrite (toggle_free k' w Hfree), await_invoke_trace; reflexivity|].
  split; [exact (toggle_sets_pending k' w Hfree)|].
  split; [rewrite (toggle_free k' w Hfree), await_invoke_tiles; destruct k'; reflexivity|].
  split; [exact (Hkeep Hp)|]. split; assumption.
Qed.

Lemma guards_are_per_control_witness :
  pending WiFi (dispatch ClickBluetooth (dispatch ClickWifi (boot (TauriV2 None))))
  ∧ pending Bluetooth (dispatch ClickBluetooth (dispatch ClickWifi (boot (TauriV2 None)))).
Proof.
  assert (Hp : pending WiFi (dispatch ClickWifi (boot (TauriV2 None)))).
  { apply (bool_decide_eq_true_1 _). vm_compute. reflexivity. }
  assert (Hfree : ¬ pending Bluetooth (dispatch ClickWifi (boot (TauriV2 None)))).
  { apply (bool_decide_eq_false_1 (pending Bluetooth _)). vm_compute. reflexivity. }
  destruct (guards_are_per_control WiFi Bluetooth _ Hp Hfree) as (_ & Hb & _ & Hw & _).
  split; [exact Hw | exact Hb].
Defined.


(** ** With a working bridge *)

(** With a working bridge [await invoke] hands the call over and parks the
    caller, and does nothing else. *)
Lemma await_invoke_working command args k w :
  working (bridge w) →
  await_invoke command args k w
  = put_inflight (<[nextCall w := {| p_command := command; p_promise := AwaitsBackend;
                                     p_cont := k |}]> (inflight w))
      (Pos.succ (nextCall w)) (delegate command args w).
Proof. intros [Hb|Hb]; unfold await_invoke, invoke, invoke_body; rewrite Hb; reflexivity. Qed.

(** The synchronous part of a toggle on a free control. *)
Lemma click_parks k w :
  working (bridge w) →
  ¬ pending k w →
  inflight (dispatch (click k) w) !! nextCall w
  = Some {| p_command := mutation k; p_promise := AwaitsBackend;
            p_cont := rest_of_toggle k (negb (stored k (state w))) |}
  ∧ nextCall (dispatch (click k) w) = Pos.succ (nextCall w)
  ∧ bridge (dispatch (click k) w) = bridge w
  ∧ clock (dispatch (click k) w) = clock w
  ∧ trace (dispatch (click k) w) = trace w ++ [toggle_call k w]
  ∧ stored k (state (dispatch (click k) w)) = stored k (state w)
  ∧ tile k (els (dispatch (click k) w)) = negb (stored k (state w))
  ∧ pendingOperations (state (dispatch (click k) w))
    = {[pending_key k]} ∪ pendingOperations (state w).
Proof.
  intros Hb Hfree. rewrite (toggle_free k w Hfree), await_invoke_working.
  - cbn. rewrite lookup_insert_eq. destruct k; repeat split.
  - exact Hb.
Qed.

(** The rest of a toggle whose call resolved. *)
Lemma settle_toggle_resolved k newState w call p v :
  inflight w !! call = Some p →
  p_cont p = rest_of_toggle k newState →
  delivers (p_promise p) (Resolved v) = true →
  ∃ w', exec (Settle call (Resolved v)) w = Some w'
        ∧ stored k (state w') = newState
        ∧ (tile k (els w) = newState → tile k (els w') = newState)
        ∧ pendingOperations (state w') = pendingOperations (state w) ∖ {[pending_key k]}
        ∧ nextCall w' = nextCall w
        ∧ bridge w' = bridge w
        ∧ clock w' = clock w
        ∧ trace w' = trace w.
Proof.
  intros Hp Hk Hd.
  destruct (exec_settle call (Resolved v) w p Hp Hd) as (w1 & -> & Hrest).
  do 8 destruct Hrest as [_ Hrest]. rewrite (Hrest v eq_refl), Hk.
  destruct k; cbn [rest_of_toggle resume]; eexists; (split; [reflexivity|]);
    repeat split; auto.
Qed.

Lemma released k (P : gset string) :
  pending_key k ∉ P → ({[pending_key k]} ∪ P) ∖ {[pending_key k]} = P.
Proof.
  intros Hfree. apply set_eq. intros x.
  rewrite elem_of_difference, elem_of_union, elem_of_singleton. split.
  - intros [[Hx|Hx] Hn]; [contradiction | exact Hx].
  - intros Hx. split; [right; exact Hx | intros ->; exact (Hfree Hx)].
Qed.

(** X13 (toggling twice).  With a working bridge and the control free: the
    tile is clicked, the call resolves, the tile is clicked again and that
    call resolves too.  The store holds the control's boolean from before
    the first click and the tile shows it; the pending keys are as before;
    and two calls were made, the first asking for the negation and the second
    for the value from before. *)
Theorem toggle_twice_restores (k : Kind) (w : World) (v1 v2 : Value) :
  working (bridge w) →
  ¬ pending k w →
  ∃ w', run [Ui (click k); Settle (nextCall w) (Resolved v1);
             Ui (click k); Settle (Pos.succ (nextCall w)) (Resolved v2)] w = Some w'
        ∧ stored k (state w') = stored k (state w)
        ∧ tile k (els w') = stored k (state w)
        ∧ pendingOperations (state w') = pendingOperations (state w)
        ∧ trace w'
          = trace w
            ++ [ {| c_time := clock w; c_command := mutation k;
                    c_args := ArgEnabled (negb (stored k (state w))) |};
                 {| c_time := clock w; c_command := mutation k;
                    c_args := ArgEnabled (stored k (state w)) |} ].
Proof.
  intros Hb Hfree.
  destruct (click_parks k w Hb Hfree) as (Hpark & Hn1 & Hb1 & Hc1 & Htr1 & Hs1 & Ht1 & Hp1).
  destruct (settle_toggle_resolved k _ _ _ _ v1 Hpark eq_refl eq_refl)
    as (w2 & Hexec2 & Hs2 & Ht2 & Hp2 & Hn2 & Hb2 & Hc2 & Htr2).
  rewrite Hp1, released in Hp2 by exact Hfree.
  assert (Hfree2 : ¬ pending k w2) by (unfold pending; rewrite Hp2; exact Hfree).
  assert (Hw2 : working (bridge w2)) by (rewrite Hb2, Hb1; exact Hb).
  destruct (click_parks k w2 Hw2 Hfree2)
    as (Hpark3 & Hn3 & Hb3 & Hc3 & Htr3 & Hs3 & Ht3 & Hp3).
  destruct (settle_toggle_resolved k _ _ _ _ v2 Hpark3 eq_refl eq_refl)
    as (w4 & Hexec4 & Hs4 & Ht4 & Hp4 & Hn4 & Hb4 & Hc4 & Htr4).
  rewrite Hn2, Hn1 in Hexec4.
  exists w4. split.
  { cbn -[dispatch exec]. change (exec (Ui (click k)) w) with (Some (dispatch (click k) w)).
    cbn -[dispatch exec]. rewrite Hexec2.
    change (exec (Ui (click k)) w2) with (Some (dispatch (click k) w2)).
    cbn -[dispatch exec]. rewrite Hexec4. reflexivity. }
  rewrite Hs2, negb_involutive in Hs4, Ht4.
  split; [exact Hs4|].
  split; [apply Ht4; rewrite Ht3, Hs2; apply negb_involutive|].
  split.
  { rewrite Hp4, Hp3, released by exact Hfree2. exact Hp2. }
  rewrite Htr4, Htr3, Htr2, Htr1, <- app_assoc. unfold toggle_call.
  rewrite Hs2, Hc2, Hc1, negb_involutive. reflexivity.
Qed.

Lemma toggle_twice_restores_witness :
  ∃ w', run [Ui ClickNightLight; Settle 1 (Resolved VNull);
             Ui ClickNightLight; Settle 2 (Resolved VNull)] (boot (TauriV2 None)) = Some w'
        ∧ nightLightEnabled (state w') = false
        ∧ nightLightTile_enabled (els w') = false.
Proof.
  assert (Hb : working (bridge (boot (TauriV2 None)))) by (left; reflexivity).
  assert (Hfree : ¬ pending NightLight (boot (TauriV2 None))).
  { apply (bool_decide_eq_false_1 (pending NightLight _)). vm_compute. reflexivity. }
  destruct (toggle_twice_restores NightLight (boot (TauriV2 None)) VNull VNull Hb Hfree)
    as (w' & Hrun & Hs & Ht & _).
  exists w'. split; [exact Hrun|]. split; [exact Hs | exact Ht].
Defined.

(** ** Loading *)

(** The 'window-shown' listener with a working bridge. *)
Lemma window_shown_parks w :
  working (bridge w) →
  inflight (dispatch WindowShown w)
  = <[nextCall w := {| p_command := get_all_states; p_promise := AwaitsBackend;
                       p_cont := in_loadInitialState |}]> (inflight w)
  ∧ nextCall (dispatch WindowShown w) = Pos.succ (nextCall w)
  ∧ bridge (dispatch WindowShown w) = bridge w
  ∧ clock (dispatch WindowShown w) = clock w
  ∧ trace (dispatch WindowShown w)
    = trace w ++ [{| c_time := clock w; c_command := get_all_states; c_args := NoArgs |}]
  ∧ isLoading (state (dispatch WindowShown w)) = true
  ∧ (∀ h, loadingOverlay_hidden (els w) = Some h →
          loadingOverlay_hidden (els (dispatch WindowShown w)) = Some false).
Proof.
  intros Hb.
  assert (Hshown : dispatch WindowShown w
                   = loadInitialState (console_log "Window shown, refreshing state" w)).
  { cbn. destruct Hb as [-> | ->]; reflexivity. }
  rewrite Hshown. unfold loadInitialState. rewrite await_invoke_working.
  - unfold showLoading. cbn.
    destruct (loadingOverlay_hidden (els w)); repeat split; intros; congruence.
  - unfold showLoading. cbn. destruct (loadingOverlay_hidden (els w)); exact Hb.
Qed.

Lemma hideLoading_overlay w h :
  loadingOverlay_hidden (els w) = Some h →
  loadingOverlay_hidden (els (hideLoading w)) = Some true.
Proof. intros H. unfold hideLoading. cbn. rewrite H. reflexivity. Qed.

Lemma updateAllUI_overlay w :
  loadingOverlay_hidden (els (updateAllUI w)) = loadingOverlay_hidden (els w).
Proof. open_updateAllUI w; reflexivity. Qed.

(** X14 (the loading flag is no counter).  With a working bridge the window
    is shown twice before the first fetch has settled: two [get_all_states]
    calls are made.  When the first of them resolves, [state.isLoading] is
    cleared and the overlay is hidden although the second fetch is still in
    flight. *)
Theorem loading_cleared_by_first_fetch (w : World) (a : AllStates) :
  working (bridge w) →
  ∃ w', run [Ui WindowShown; Ui WindowShown;
             Settle (nextCall w) (Resolved (VAllStates a))] w = Some w'
        ∧ isLoading (state w') = false
        ∧ (∀ h, loadingOverlay_hidden (els w) = Some h →
                loadingOverlay_hidden (els w') = Some true)
        ∧ inflight w' !! Pos.succ (nextCall w)
          = Some {| p_command := get_all_states; p_promise := AwaitsBackend;
                    p_cont := in_loadInitialState |}
        ∧ trace w'
          = trace w
            ++ [ {| c_time := clock w; c_command := get_all_states; c_args := NoArgs |};
                 {| c_time := clock w; c_command := get_all_states; c_args := NoArgs |} ].
Proof.
  intros Hb.
  destruct (window_shown_parks w Hb) as (Hi1 & Hn1 & Hb1 & Hc1 & Htr1 & _ & Ho1).
  remember (dispatch WindowShown w) as w1 eqn:E1.
  assert (Hw1 : working (bridge w1)) by (rewrite Hb1; exact Hb).
  destruct (window_shown_parks w1 Hw1) as (Hi2 & Hn2 & Hb2 & Hc2 & Htr2 & _ & Ho2).
  remember (dispatch WindowShown w1) as w2 eqn:E2.
  assert (Hfirst : inflight w2 !! nextCall w
                   = Some {| p_command := get_all_states; p_promise := AwaitsBackend;
                             p_cont := in_loadInitialState |}).
  { rewrite Hi2, Hn1, lookup_insert_ne by lia. rewrite Hi1. apply lookup_insert_eq. }
  pose proof (exec_settle_resolved _ (VAllStates a) _ _ Hfirst eq_refl) as Hexec.
  cbn [p_cont resume] in Hexec.
  eexists. split.
  { cbn -[dispatch exec]. change (exec (Ui WindowShown) w) with (Some (dispatch WindowShown w)).
    rewrite <- E1. cbn -[dispatch exec].
    change (exec (Ui WindowShown) w1) with (Some (dispatch WindowShown w1)).
    rewrite <- E2. cbn -[dispatch exec]. rewrite Hexec. reflexivity. }
  split; [rewrite hideLoading_state; reflexivity|].
  split.
  { intros h Hh. apply (hideLoading_overlay _ false). rewrite updateAllUI_overlay.
    exact (Ho2 false (Ho1 h Hh)). }
  split.
  { rewrite hideLoading_inflight, updateAllUI_inflight. cbn.
    rewrite lookup_delete_ne by lia. rewrite Hi2, Hn1. apply lookup_insert_eq. }
  assert (Htrace : ∀ x, trace (hideLoading (updateAllUI x)) = trace x).
  { intros x. pose proof (view_hideLoading (updateAllUI x)) as H1.
    pose proof (view_updateAllUI x) as H2. unfold timer_view in H1, H2.
    congruence. }
  rewrite Htrace. cbn. rewrite Htr2, Htr1, Hc1, <- app_assoc. reflexivity.
Qed.

Lemma loading_cleared_by_first_fetch_witness :
  ∃ w', run [Ui WindowShown; Ui WindowShown;
             Settle 1 (Resolved (VAllStates
               {| all_volume := 30; all_muted := true; all_brightness := 80;
                  all_max_brightness := 100; all_network := mock_network;
                  all_night_light_enabled := false |}))]
            (boot (TauriV2 None)) = Some w'
        ∧ isLoading (state w') = false
        ∧ inflight w' !! 2%positive
          = Some {| p_command := get_all_states; p_promise := AwaitsBackend;
                    p_cont := in_loadInitialState |}.
Proof.
  assert (Hb : working (bridge (boot (TauriV2 None)))) by (left; reflexivity).
  destruct (loading_cleared_by_first_fetch (boot (TauriV2 None))
              {| all_volume := 30; all_muted := true; all_brightness := 80;
                 all_max_brightness := 100; all_network := mock_network;
                 all_night_light_enabled := false |} Hb)
    as (w' & Hrun & Hl & _ & Hi & _).
  exists w'. split; [exact Hrun|]. split; [exact Hl | exact Hi].
Defined.

(** ** Timers *)

(** A timer that is alive and due runs; one that is not yet due cannot. *)
Lemma timer_fires id t d w :
  timers w !! id = Some t →
  (due t ≤ clock w + d)%nat →
  run [Wait d; Timeout id] w
  = Some (run_task (task t) (clearTimeout id (put_clock (clock w + d) w))).
Proof.
  intros Ht Hdue. cbn -[run_task clearTimeout]. rewrite Ht.
  rewrite decide_True by exact Hdue. reflexivity.
Qed.

Lemma timer_not_due id t d w :
  timers w !! id = Some t →
  (clock w + d < due t)%nat →
  run [Wait d; Timeout id] w = None.
Proof.
  intros Ht Hdue. cbn -[run_task clearTimeout]. rewrite Ht.
  rewrite decide_False by lia. reflexivity.
Qed.

Lemma timer_gone id d w :
  timers w !! id = None → run [Wait d; Timeout id] w = None.
Proof. intros Ht. cbn -[run_task clearTimeout]. rewrite Ht. reflexivity. Qed.

(** ** Suspend *)

(** X15 (suspend goes ahead whatever closing did).  When the
    [close_window] call of [suspendSystem] settles, resolved or rejected, a
    timer is started that is due 100 later; it cannot run before, and when
    it runs it makes the [suspend_system] call.  Until then no call is made.
    So a window that failed to close does not stop the suspend. *)
Theorem suspend_follows_close (w : World) (call : positive) (p : Pending) (r : Result) :
  inflight w !! call = Some p →
  p_cont p = in_closeWindow ThenSuspend →
  delivers (p_promise p) r = true →
  ∃ w1 id,
    exec (Settle call r) w = Some w1
    ∧ timers w1 !! id = Some {| due := (clock w + 100)%nat; task := Suspend |}
    ∧ trace w1 = trace w
    ∧ unhandled w1 = unhandled w
    ∧ (∀ d, (d < 100)%nat → run [Wait d; Timeout id] w1 = None)
    ∧ (∀ d, (100 ≤ d)%nat →
         ∃ w2, run [Wait d; Timeout id] w1 = Some w2
               ∧ trace w2
                 = trace w ++ [{| c_time := (clock w + d)%nat; c_command := suspend_system;
                                  c_args := NoArgs |}]).
Proof.
  intros Hp Hk Hd.
  destruct (exec_settle call r w p Hp Hd)
    as (w0 & -> & _ & _ & _ & _ & Htr & Hu & Hc & _).
  rewrite Hk. cbn [resume].
  set (w0' := match r with
              | Resolved _ => w0
              | Rejected error => console_log ("Failed to close window: " ++ error) w0
              end).
  assert (H0 : trace w0' = trace w ∧ unhandled w0' = unhandled w ∧ clock w0' = clock w).
  { unfold w0'. destruct r; cbn; auto. }
  destruct H0 as (Htr0 & Hu0 & Hc0).
  exists (snd (setTimeout Suspend 100 w0')), (nextTimer w0').
  assert (Halive : timers (snd (setTimeout Suspend 100 w0')) !! nextTimer w0'
                   = Some {| due := (clock w + 100)%nat; task := Suspend |}).
  { cbn. rewrite lookup_insert_eq, Hc0. reflexivity. }
  split; [reflexivity|]. split; [exact Halive|].
  split; [exact Htr0|]. split; [exact Hu0|].
  split.
  - intros d Hd'. apply (timer_not_due _ _ _ _ Halive). cbn. lia.
  - intros d Hd'. eexists. split.
    + apply (timer_fires _ _ _ _ Halive). cbn. lia.
    + cbn [task run_task]. rewrite await_invoke_trace. cbn. rewrite Htr0, Hc0. reflexivity.
Qed.

Lemma suspend_follows_close_witness :
  ∃ w1 id, exec (Settle 1 (Rejected "stuck")) (dispatch ClickSuspend (boot (TauriV2 None)))
           = Some w1
           ∧ timers w1 !! id = Some {| due := 100; task := Suspend |}.
Proof.
  destruct (suspend_follows_close (dispatch ClickSuspend (boot (TauriV2 None))) 1
              {| p_command := close_window; p_promise := AwaitsBackend;
                 p_cont := in_closeWindow ThenSuspend |} (Rejected "stuck"))
    as (w1 & id & Hexec & Ht & _);
    [vm_compute; reflexivity | reflexivity | reflexivity |].
  exists w1, id. split; [exact Hexec | exact Ht].
Defined.

(** ** Toasts *)

(** X16 (the latest toast wins).  When a toast is shown while another is
    still up, the page shows the text and type of the second; the timer of
    the first is cancelled, so it can never run, and the one timer the
    variable holds is due 2500 after the second call.  When that timer runs
    the toast loses 'show' and keeps its text. *)
Theorem toast_latest_wins (m1 t1 m2 t2 : string) (w : World) (t : Toast) :
  toast (els w) = Some t →
  let w2 := showToast m2 t2 (showToast m1 t1 w) in
  toast (els w2) = Some {| textContent := m2; shown := true; severity := t2 |}
  ∧ toastTimer w2 = Some (Pos.succ (nextTimer w))
  ∧ timers w2 !! Pos.succ (nextTimer w)
    = Some {| due := (clock w + 2500)%nat; task := HideToast |}
  ∧ (∀ d, run [Wait d; Timeout (nextTimer w)] w2 = None)
  ∧ (∀ d, (d < 2500)%nat → run [Wait d; Timeout (Pos.succ (nextTimer w))] w2 = None)
  ∧ (∀ d, (2500 ≤ d)%nat →
       ∃ w3, run [Wait d; Timeout (Pos.succ (nextTimer w))] w2 = Some w3
             ∧ toast (els w3)
               = Some {| textContent := m2; shown := false; severity := t2 |}).
Proof.
  intros Ht. cbv zeta.
  assert (Hshape : ∃ m,
    showToast m2 t2 (showToast m1 t1 w)
    = put_toastTimer (Some (Pos.succ (nextTimer w)))
        (put_timers (<[Pos.succ (nextTimer w)
                       := {| due := (clock w + 2500)%nat; task := HideToast |}]>
                       (delete (nextTimer w) m))
           (Pos.succ (Pos.succ (nextTimer w)))
           (update_els (set_toast (Some {| textContent := m2; shown := true;
                                           severity := t2 |})) w))).
  { unfold showToast, clear_if_set. rewrite Ht. destruct (toastTimer w); cbn;
      eexists; destruct w; reflexivity. }
  destruct Hshape as (m & ->).
  assert (Halive : timers (put_toastTimer (Some (Pos.succ (nextTimer w)))
        (put_timers (<[Pos.succ (nextTimer w)
                       := {| due := (clock w + 2500)%nat; task := HideToast |}]>
                       (delete (nextTimer w) m))
           (Pos.succ (Pos.succ (nextTimer w)))
           (update_els (set_toast (Some {| textContent := m2; shown := true;
                                           severity := t2 |})) w))) !! Pos.succ (nextTimer w)
     = Some {| due := (clock w + 2500)%nat; task := HideToast |}).
  { cbn. apply lookup_insert_eq. }
  split; [reflexivity|]. split; [reflexivity|]. split; [exact Halive|].
  split.
  { intros d. apply timer_gone. cbn.
    rewrite lookup_insert_ne by lia. apply lookup_delete_eq. }
  split.
  - intros d Hd. apply (timer_not_due _ _ _ _ Halive). cbn. lia.
  - intros d Hd. eexists. split.
    + apply (timer_fires _ _ _ _ Halive). cbn. lia.
    + reflexivity.
Qed.

Lemma toast_latest_wins_witness :
  toast (els (showToast "Suspending..." "success"
                (showToast "Error: boom" "error" (boot (TauriV2 None)))))
  = Some {| textContent := "Suspending..."; shown := true; severity := "success" |}.
Proof.
  exact (proj1 (toast_latest_wins "Error: boom" "error" "Suspending..." "success"
                  (boot (TauriV2 None))
                  {| textContent := EmptyString; shown := false; severity := "info" |}
                  eq_refl)).
Defined.

(** ** A slider whose call failed *)





(** ** Mock mode *)

(** Without a bridge [await invoke] parks the caller on a promise that is
    resolved already, with what [mockInvoke] returned. *)
Lemma await_invoke_mock command args k w :
  bridge w = NoTauri →
  inflight (await_invoke command args k w) !! nextCall w
  = Some {| p_command := command;
            p_promise := Settled (Resolved (mockInvoke command args));
            p_cont := k |}
  ∧ state (await_invoke command args k w) = state w
  ∧ els (await_invoke command args k w) = els w
  ∧ unhandled (await_invoke command args k w) = unhandled w.
Proof.
  intros Hb. unfold await_invoke, invoke, invoke_body. rewrite Hb. cbn.
  rewrite lookup_insert_eq. repeat split.
Qed.

Lemma delivers_settled r r0 : delivers (Settled r0) r = true → r = r0.
Proof. cbn. intros H. exact (bool_decide_eq_true_1 _ H). Qed.

(** X19 (toggles in mock mode).  On a page without a bridge a guarded
    toggle cannot fail: the only way its call can settle is resolved with
    the boolean that was asked for.  The store and the tile then hold the
    negation of the value from before the click, the key is released, the
    toast is left alone and nothing is left unhandled. *)
Theorem mock_toggle_succeeds (k : Kind) (w : World) :
  bridge w = NoTauri →
  ¬ pending k w →
  (∀ r w', exec (Settle (nextCall w) r) (dispatch (click k) w) = Some w' →
           r = Resolved (VBool (negb (stored k (state w)))))
  ∧ ∃ w', exec (Settle (nextCall w) (Resolved (VBool (negb (stored k (state w))))))
               (dispatch (click k) w) = Some w'
          ∧ stored k (state w') = negb (stored k (state w))
          ∧ tile k (els w') = negb (stored k (state w))
          ∧ pendingOperations (state w') = pendingOperations (state w)
          ∧ toast (els w') = toast (els w)
          ∧ unhandled w' = unhandled w.
Proof.
  intros Hb Hfree.
  set (ns := negb (stored k (state w))).
  assert (Hpark : inflight (dispatch (click k) w) !! nextCall w
                  = Some {| p_command := mutation k;
                            p_promise := Settled (Resolved (VBool ns));
                            p_cont := rest_of_toggle k ns |}
                  ∧ state (dispatch (click k) w)
                    = add_pending (pending_key k) (state w)
                  ∧ tile k (els (dispatch (click k) w)) = ns
                  ∧ toast (els (dispatch (click k) w)) = toast (els w)
                  ∧ unhandled (dispatch (click k) w) = unhandled w).
  { rewrite (toggle_free k w Hfree). fold ns.
    match goal with
    | |- context [await_invoke ?c ?a ?r ?x] =>
        destruct (await_invoke_mock c a r x Hb) as (Hi & -> & -> & ->)
    end.
    cbn [nextCall update_els update_state put_els put_state] in Hi. rewrite Hi.
    destruct k; repeat split. }
  destruct Hpark as (Hpark & Hs & Ht & Hto & Hu).
  split.
  - intros r w' Hexec. cbn -[dispatch resume] in Hexec. rewrite Hpark in Hexec.
    cbn -[dispatch resume] in Hexec.
    destruct (bool_decide (r = Resolved (VBool ns))) eqn:Hr; [|discriminate].
    exact (bool_decide_eq_true_1 _ Hr).
  - destruct (settle_toggle_resolved k ns _ _ _ (VBool ns) Hpark eq_refl)
      as (w' & Hexec & Hs' & Ht' & Hp' & _).
    { cbn. apply bool_decide_eq_true_2. reflexivity. }
    exists w'. split; [exact Hexec|]. split; [exact Hs'|]. split; [exact (Ht' Ht)|].
    split.
    { rewrite Hp', Hs. cbn. apply released. exact Hfree. }
    revert Hexec. rewrite (exec_settle_resolved _ _ _ _ Hpark).
    + cbn [p_cont]. intros Hres.
      destruct k; cbn [rest_of_toggle resume] in Hres; injection Hres as <-;
        cbn -[dispatch click]; exact (conj Hto Hu).
    + cbn. apply bool_decide_eq_true_2. reflexivity.
Qed.

Lemma mock_toggle_succeeds_witness :
  ∃ w', exec (Settle 1 (Resolved (VBool true))) (dispatch ClickBluetooth (boot NoTauri))
        = Some w'
        ∧ bluetoothEnabled (state w') = true.
Proof.
  assert (Hfree : ¬ pending Bluetooth (boot NoTauri)).
  { apply (bool_decide_eq_false_1 (pending Bluetooth _)). vm_compute. reflexivity. }
  destruct (mock_toggle_succeeds Bluetooth (boot NoTauri) eq_refl Hfree)
    as (_ & w' & Hexec & Hs & _).
  exists w'. split; [exact Hexec | exact Hs].
Defined.

(** X20 (mute in mock mode).  [mockInvoke] builds its state anew on every
    call, so its [toggle_mute] always answers [true].  On a page without a
    bridge a click on the mute button therefore ends muted, whatever the
    store held before: mute can be switched on there and never off. *)
Theorem mock_mute_only_mutes (w : World) :
  bridge w = NoTauri →
  (∀ r w', exec (Settle (nextCall w) r) (dispatch ClickMute w) = Some w' →
           muted (state w') = true ∧ volumeIconBtn_muted (els w') = true)
  ∧ ∃ w', run [Ui ClickMute; Settle (nextCall w) (Resolved (VBool true))] w = Some w'.
Proof.
  intros Hb.
  destruct (await_invoke_mock toggle_mute NoArgs in_toggleMute w Hb) as (Hpark & _).
  change (await_invoke toggle_mute NoArgs in_toggleMute w) with (dispatch ClickMute w)
    in Hpark.
  assert (Hexec : exec (Settle (nextCall w) (Resolved (VBool true))) (dispatch ClickMute w)
                  = resume in_toggleMute (Resolved (VBool true))
                      (put_inflight (delete (nextCall w) (inflight (dispatch ClickMute w)))
                         (nextCall (dispatch ClickMute w)) (dispatch ClickMute w))).
  { rewrite (exec_settle_resolved _ _ _ _ Hpark); [reflexivity|].
    cbn. apply bool_decide_eq_true_2. reflexivity. }
  split.
  - intros r w' Hr.
    assert (r = Resolved (VBool true)) as ->.
    { cbn -[dispatch resume] in Hr. rewrite Hpark in Hr. cbn -[dispatch resume] in Hr.
      destruct (bool_decide (r = Resolved (VBool true))) eqn:E; [|discriminate].
      exact (bool_decide_eq_true_1 _ E). }
    rewrite Hexec in Hr. cbn [resume] in Hr. injection Hr as <-.
    split; reflexivity.
  - eexists. cbn -[dispatch exec].
    change (exec (Ui ClickMute) w) with (Some (dispatch ClickMute w)).
    cbn -[dispatch exec]. rewrite Hexec. reflexivity.
Qed.

Lemma mock_mute_only_mutes_witness :
  ∃ w', run [Ui ClickMute; Settle 1 (Resolved (VBool true))] (boot NoTauri) = Some w'.
Proof. exact (proj2 (mock_mute_only_mutes (boot NoTauri) eq_refl)). Defined.

(** ** One call per guarded control, over the whole event loop *)

Lemma guard_ok_pending_ext k m n (S S' : gset string) :
  (pending_key k ∈ S ↔ pending_key k ∈ S') →
  guard_ok k (m, n, S) → guard_ok k (m, n, S').
Proof.
  intros Hiff [Hfresh Hg]. split; [exact Hfresh|]. cbn in *.
  destruct (decide (pending_key k ∈ S)) as [Hin|Hout].
  - rewrite decide_True by (apply Hiff, Hin). exact Hg.
  - rewrite decide_False by (intros H; apply Hout, Hiff, H). exact Hg.
Qed.

Lemma guard_ok_parked k P v :
  is_toggle k (p_cont P) = false → guard_ok k v → guard_ok k (parked P v).
Proof.
  destruct v as [[m n] S]. intros Hno [Hfresh Hg]. cbn in *.
  assert (Hsame : awaited k (<[n := P]> m) = awaited k m).
  { unfold awaited. rewrite map_filter_insert_False by (cbn; congruence).
    rewrite delete_id; [reflexivity|]. apply Hfresh. lia. }
  split; cbn.
  - intros id Hid. rewrite lookup_insert_ne by lia. apply Hfresh. lia.
  - rewrite Hsame. exact Hg.
Qed.

Lemma guard_ok_parked_toggle k P m n (S : gset string) :
  is_toggle k (p_cont P) = true →
  p_command P = mutation k →
  pending_key k ∉ S →
  guard_ok k (m, n, S) →
  guard_ok k (<[n := P]> m, Pos.succ n, {[pending_key k]} ∪ S).
Proof.
  intros Hyes Hcmd Hfree [Hfresh Hg]. cbn in *.
  rewrite decide_False in Hg by exact Hfree.
  split; cbn.
  - intros id Hid. rewrite lookup_insert_ne by lia. apply Hfresh. lia.
  - rewrite decide_True by (apply elem_of_union_l, elem_of_singleton; reflexivity).
    exists n, P. split; [|exact Hcmd].
    unfold awaited in *. rewrite map_filter_insert_True by exact Hyes.
    rewrite Hg. apply insert_empty.
Qed.

Lemma guard_ok_settled k call p m n (S : gset string) :
  m !! call = Some p →
  guard_ok k (m, n, S) →
  guard_ok k (delete call m, n,
              if is_toggle k (p_cont p) then S ∖ {[pending_key k]} else S).
Proof.
  intros Hp [Hfresh Hg]. cbn in *.
  split; cbn.
  { intros id Hid. destruct (decide (id = call)) as [->|Hne].
    - apply lookup_delete_eq.
    - rewrite lookup_delete_ne by congruence. apply Hfresh, Hid. }
  unfold awaited in *. rewrite map_filter_delete.
  destruct (is_toggle k (p_cont p)) eqn:Hk.
  - rewrite decide_False
      by (rewrite elem_of_difference, elem_of_singleton; tauto).
    assert (Hin : filter (λ ip, is_toggle k (p_cont ip.2) = true) m !! call = Some p).
    { apply map_lookup_filter_Some_2; [exact Hp | exact Hk]. }
    destruct (decide (pending_key k ∈ S)).
    + destruct Hg as (c & p' & Heq & _). rewrite Heq in Hin |- *.
      apply lookup_singleton_Some in Hin as [-> _]. apply delete_singleton_eq.
    + rewrite Hg in Hin. rewrite lookup_empty in Hin. discriminate.
  - assert (Hout : filter (λ ip, is_toggle k (p_cont ip.2) = true) m !! call = None).
    { apply map_lookup_filter_None_2. right. intros x Hx.
      rewrite Hp in Hx. injection Hx as <-. cbn. rewrite Hk. discriminate. }
    rewrite delete_id by exact Hout. exact Hg.
Qed.

Lemma is_toggle_rest k k' b : is_toggle k (rest_of_toggle k' b) = bool_decide (k = k').
Proof. destruct k, k'; reflexivity. Qed.

Lemma cont_cases c :
  (∃ k b, c = rest_of_toggle k b) ∨ (∀ k, is_toggle k c = false).
Proof.
  destruct c;
    try (right; intros k; destruct k; reflexivity).
  - left. exists WiFi, newState. reflexivity.
  - left. exists Bluetooth, newState. reflexivity.
  - left. exists NightLight, newState. reflexivity.
Qed.

(** *** What each piece of the script does to the calls and the keys *)

Lemma cv_await_invoke command args k w :
  ∃ p, calls_view (await_invoke command args k w)
       = parked {| p_command := command; p_promise := p; p_cont := k |} (calls_view w).
Proof.
  unfold calls_view, parked. rewrite await_invoke_state, await_invoke_nextCall.
  by_bridge w; unfold invoke_catch;
    try (destruct (showToast_inflight ("Error: " ++ error) "error"
                     (console_log
                        ("Command " ++ command_name command ++ " failed: " ++ error)
                        (delegate command args w))) as [-> ->]);
    eexists; reflexivity.
Qed.

Lemma cv_showToast message type w : calls_view (showToast message type w) = calls_view w.
Proof. open_toast w; reflexivity. Qed.

Lemma cv_showLoading w : calls_view (showLoading w) = calls_view w.
Proof. unfold showLoading. cbn. destruct (loadingOverlay_hidden (els w)); reflexivity. Qed.

Lemma cv_hideLoading w : calls_view (hideLoading w) = calls_view w.
Proof. unfold hideLoading. cbn. destruct (loadingOverlay_hidden (els w)); reflexivity. Qed.

Lemma cv_hide_toast w : calls_view (hide_toast w) = calls_view w.
Proof. unfold hide_toast. destruct (toast (els w)); reflexivity. Qed.

Lemma cv_updateVolumeUI w : calls_view (updateVolumeUI w) = calls_view w.
Proof. unfold updateVolumeUI. cbn. destruct (muted (state w)); reflexivity. Qed.

Lemma cv_updateWifiUI w : calls_view (updateWifiUI w) = calls_view w.
Proof.
  unfold calls_view. rewrite updateWifiUI_state, updateWifiUI_inflight.
  unfold updateWifiUI. cbn.
  destruct (wifiEnabled (state w) && wifiConnected (state w) && truthy (wifiSsid (state w)));
    [|destruct (wifiEnabled (state w))]; reflexivity.
Qed.

Lemma cv_updateAllUI w : calls_view (updateAllUI w) = calls_view w.
Proof. open_updateAllUI w; reflexivity. Qed.

Lemma cv_handleVolumeChange v w : calls_view (handleVolumeChange v w) = calls_view w.
Proof.
  unfold handleVolumeChange, clear_if_set. destruct (volumeDebounceTimer w); reflexivity.
Qed.

Lemma cv_handleBrightnessChange v w : calls_view (handleBrightnessChange v w) = calls_view w.
Proof.
  unfold handleBrightnessChange, clear_if_set.
  destruct (brightnessDebounceTimer w); reflexivity.
Qed.

Lemma cv_invoke_settled command r w : calls_view (invoke_settled command r w) = calls_view w.
Proof.
  destruct r; [reflexivity|]. unfold invoke_settled, invoke_catch.
  rewrite cv_showToast. reflexivity.
Qed.


Lemma plain_step_await command args k w0 w :
  calls_view w = calls_view w0 →
  (∀ kind, is_toggle kind k = false) →
  plain_step w0 (await_invoke command args k w).
Proof.
  intros Hv Hk. right. destruct (cv_await_invoke command args k w) as [p Hp].
  eexists. split; [|rewrite Hp, Hv; reflexivity]. exact Hk.
Qed.

Ltac no_toggle := intros kind; destruct kind; reflexivity.

Lemma plain_dispatch e w : (∀ k, e ≠ click k) → plain_step w (dispatch e w).
Proof.
  intros Hne.
  destruct e; cbn [dispatch];
    try solve [ exfalso; apply (Hne WiFi); reflexivity
              | exfalso; apply (Hne Bluetooth); reflexivity
              | exfalso; apply (Hne NightLight); reflexivity ].
  - unfold suspendSystem, closeWindow.
    apply plain_step_await; [apply cv_showToast | no_toggle].
  - unfold toggleMute. apply plain_step_await; [reflexivity | no_toggle].
  - unfold closeWindow. apply plain_step_await; [reflexivity | no_toggle].
  - left. reflexivity.
  - left. rewrite cv_handleVolumeChange. reflexivity.
  - left. reflexivity.
  - left. rewrite cv_handleBrightnessChange. reflexivity.
  - destruct key, active; cbn [handleKeyDown];
      try (left; reflexivity);
      try (unfold closeWindow; apply plain_step_await; [reflexivity | no_toggle]);
      left; unfold key_adjust_volume, key_adjust_brightness; cbv zeta;
      rewrite ?cv_handleVolumeChange, ?cv_handleBrightnessChange; reflexivity.
  - destruct (bridge w); try (left; reflexivity);
      unfold loadInitialState;
      (apply plain_step_await; [rewrite cv_showLoading; reflexivity | no_toggle]).
Qed.

Lemma plain_run_task t w0 w :
  calls_view w = calls_view w0 → plain_step w0 (run_task t w).
Proof.
  intros Hv. destruct t; cbn [run_task];
    try (apply plain_step_await; [exact Hv | no_toggle]).
  left. rewrite cv_hide_toast. exact Hv.
Qed.

Lemma plain_resume c r w w' :
  (∀ k, is_toggle k c = false) → resume c r w = Some w' → plain_step w w'.
Proof.
  intros Hno.
  destruct c;
    try (specialize (Hno WiFi); discriminate Hno);
    try (specialize (Hno Bluetooth); discriminate Hno);
    try (specialize (Hno NightLight); discriminate Hno);
    destruct r as [[| | | |]|]; cbn [resume]; try discriminate;
    try destruct after;
    refine (from_Some (plain_step w) _ _ _);
    unfold refreshVolume, refreshBrightness;
    try (apply plain_step_await; [reflexivity | no_toggle]);
    left;
    rewrite ?cv_hideLoading, ?cv_updateAllUI, ?cv_showToast, ?cv_updateVolumeUI,
      ?cv_updateWifiUI;
    reflexivity.
Qed.

Lemma guarded_plain k w w' : plain_step w w' → guarded k w → guarded k w'.
Proof.
  unfold guarded. intros [Hv | (P & Hno & Hv)] Hg; rewrite Hv.
  - exact Hg.
  - apply guard_ok_parked; [apply Hno | exact Hg].
Qed.

(** A click on a free control parks the rest of its toggle and takes its
    key. *)
Lemma cv_click k w :
  ¬ pending k w →
  ∃ p, calls_view (dispatch (click k) w)
       = (<[nextCall w := {| p_command := mutation k; p_promise := p;
                             p_cont := rest_of_toggle k (negb (stored k (state w))) |}]>
            (inflight w),
          Pos.succ (nextCall w),
          {[pending_key k]} ∪ pendingOperations (state w)).
Proof.
  intros Hfree. rewrite (toggle_free k w Hfree).
  match goal with
  | |- context [await_invoke ?c ?a ?r ?x] =>
      destruct (cv_await_invoke c a r x) as [p Hp]
  end.
  exists p. rewrite Hp. destruct k; reflexivity.
Qed.

(** The rest of a toggle gives its key back and parks nobody. *)
Lemma cv_resume_toggle k b r w w' :
  resume (rest_of_toggle k b) r w = Some w' →
  calls_view w'
  = (inflight w, nextCall w, pendingOperations (state w) ∖ {[pending_key k]}).
Proof.
  destruct k, r; cbn [rest_of_toggle resume];
    refine (from_Some (λ x, calls_view x = _) _ _ _);
    unfold calls_view; cbn -[updateWifiUI];
    rewrite ?updateWifiUI_state, ?updateWifiUI_inflight;
    try reflexivity;
    pose proof (cv_updateWifiUI
                  (update_state (with_wifiEnabled (negb (wifiEnabled (state w)))) w)) as Hv;
    unfold calls_view in Hv; injection Hv as _ Hn _; rewrite Hn; reflexivity.
Qed.

Lemma guarded_click k k' w : guarded k w → guarded k (dispatch (click k') w).
Proof.
  intros Hg. destruct (decide (pending k' w)) as [Hp|Hfree].
  { rewrite toggle_pending_noop by exact Hp. exact Hg. }
  destruct (cv_click k' w Hfree) as [p Hv]. unfold guarded. rewrite Hv.
  destruct (decide (k = k')) as [->|Hne].
  - apply guard_ok_parked_toggle; try assumption.
    + cbn. rewrite is_toggle_rest. apply bool_decide_eq_true_2. reflexivity.
    + reflexivity.
  - apply (guard_ok_pending_ext k _ _ (pendingOperations (state w))).
    { rewrite elem_of_union, elem_of_singleton.
      assert (pending_key k ≠ pending_key k') by (destruct k, k'; cbn; congruence).
      tauto. }
    refine (guard_ok_parked k _ (calls_view w) _ Hg).
    cbn. rewrite is_toggle_rest. apply bool_decide_eq_false_2. exact Hne.
Qed.

Lemma click_or_not e : (∃ k, e = click k) ∨ (∀ k, e ≠ click k).
Proof.
  destruct e;
    try (right; intros k; destruct k; discriminate).
  - left. exists WiFi. reflexivity.
  - left. exists Bluetooth. reflexivity.
  - left. exists NightLight. reflexivity.
Qed.

(** Every step of the event loop keeps the guard of every control. *)
Lemma guarded_exec k a w w' : guarded k w → exec a w = Some w' → guarded k w'.
Proof.
  intros Hg. destruct a as [d|id|e|call r]; cbn -[resume invoke_settled dispatch run_task].
  - intros [= <-]. exact Hg.
  - destruct (timers w !! id) as [t|]; [|discriminate].
    destruct (decide _); [|discriminate].
    refine (from_Some (guarded k) _ _ _).
    refine (guarded_plain k w _ _ Hg). apply plain_run_task. reflexivity.
  - refine (from_Some (guarded k) _ _ _).
    destruct (click_or_not e) as [[k' ->] | Hne].
    + apply guarded_click, Hg.
    + exact (guarded_plain k w _ (plain_dispatch e w Hne) Hg).
  - destruct (inflight w !! call) as [p|] eqn:Hp; [|discriminate].
    destruct (delivers (p_promise p) r); [|discriminate].
    set (w1 := match p_promise p with
               | AwaitsBackend =>
                   invoke_settled (p_command p) r
                     (put_inflight (delete call (inflight w)) (nextCall w) w)
               | Settled _ => put_inflight (delete call (inflight w)) (nextCall w) w
               end).
    assert (Hv1 : calls_view w1
                  = (delete call (inflight w), nextCall w, pendingOperations (state w))).
    { unfold w1. destruct (p_promise p); [rewrite cv_invoke_settled|]; reflexivity. }
    pose proof (guard_ok_settled k call p _ _ _ Hp Hg) as Hg1.
    intros Hres. destruct (cont_cases (p_cont p)) as [(k' & b & Hc) | Hno].
    + rewrite Hc in Hres, Hg1. apply cv_resume_toggle in Hres.
      unfold guarded. rewrite Hres.
      unfold calls_view in Hv1. injection Hv1 as -> -> ->.
      rewrite is_toggle_rest in Hg1.
      destruct (decide (k = k')) as [->|Hne].
      * rewrite bool_decide_eq_true_2 in Hg1 by reflexivity. exact Hg1.
      * rewrite bool_decide_eq_false_2 in Hg1 by exact Hne.
        refine (guard_ok_pending_ext k _ _ _ _ _ Hg1).
        rewrite elem_of_difference, elem_of_singleton.
        assert (pending_key k ≠ pending_key k') by (destruct k, k'; cbn; congruence).
        tauto.
    + rewrite (Hno k) in Hg1.
      refine (guarded_plain k w1 _ (plain_resume _ _ _ _ Hno Hres) _).
      unfold guarded. rewrite Hv1. exact Hg1.
Qed.

Lemma guarded_run k acts : ∀ w w', guarded k w → run acts w = Some w' → guarded k w'.
Proof.
  induction acts as [|a acts IH]; intros w w' Hg Hrun; cbn in Hrun.
  - injection Hrun as <-. exact Hg.
  - destruct (exec a w) as [w1|] eqn:Hexec; [|discriminate].
    exact (IH _ _ (guarded_exec _ _ _ _ Hg Hexec) Hrun).
Qed.

Lemma guarded_boot k b : guarded k (boot b).
Proof.
  split; cbn.
  - intros id _. apply lookup_empty.
  - rewrite decide_False by apply not_elem_of_empty. apply map_filter_empty.
Qed.

Lemma guarded_start k b w : at_start b w → guarded k w.
Proof.
  intros [-> | ->]; [apply guarded_boot|].
  refine (guarded_plain k (boot b) _ _ (guarded_boot k b)).
  unfold loaded, loadInitialState.
  apply plain_step_await; [apply cv_showLoading | no_toggle].
Qed.

(** X21 (one call per control, always).  In every world the event loop
    reaches from start-up (the page as built, or with the first fetch under
    way), whatever the bridge and whatever happened (clicks, drags, keys,
    timers, calls settling in any order and with any outcome), each of WiFi,
    Bluetooth and NightLight has its key in [pendingOperations] exactly when
    a call of its toggle is awaited; never two such calls are awaited at
    once; and the awaited call is the control's own mutation. *)
Theorem one_call_per_control (b : Bridge) (w0 : World) (acts : list Action) (w : World)
    (k : Kind) :
  at_start b w0 →
  run acts w0 = Some w →
  (pending k w ↔ ∃ call p, inflight w !! call = Some p ∧ is_toggle k (p_cont p) = true)
  ∧ (∀ c1 c2 p1 p2,
       inflight w !! c1 = Some p1 → inflight w !! c2 = Some p2 →
       is_toggle k (p_cont p1) = true → is_toggle k (p_cont p2) = true →
       c1 = c2)
  ∧ (∀ call p, inflight w !! call = Some p → is_toggle k (p_cont p) = true →
               p_command p = mutation k).
Proof.
  intros Hstart Hrun.
  destruct (guarded_run k acts _ _ (guarded_start k b w0 Hstart) Hrun) as [_ Hg].
  cbn in Hg. fold (pending k w) in Hg.
  assert (Hin : ∀ c p, inflight w !! c = Some p → is_toggle k (p_cont p) = true →
                       awaited k (inflight w) !! c = Some p).
  { intros c p Hc Hk. apply map_lookup_filter_Some_2; [exact Hc | exact Hk]. }
  destruct (decide (pending k w)) as [Hp|Hfree].
  - destruct Hg as (call & p & Heq & Hcmd).
    split; [split; [intros _|intros _; exact Hp]|].
    { exists call, p.
      apply (map_lookup_filter_Some (λ ip, is_toggle k (p_cont ip.2) = true)).
      fold (awaited k (inflight w)). rewrite Heq. apply lookup_singleton_eq. }
    split.
    + intros c1 c2 p1 p2 H1 H2 Hk1 Hk2.
      pose proof (Hin _ _ H1 Hk1) as Ha1. pose proof (Hin _ _ H2 Hk2) as Ha2.
      rewrite Heq in Ha1, Ha2.
      apply lookup_singleton_Some in Ha1 as [<- _].
      apply lookup_singleton_Some in Ha2 as [<- _]. reflexivity.
    + intros c p' Hc Hk. pose proof (Hin _ _ Hc Hk) as Ha. rewrite Heq in Ha.
      apply lookup_singleton_Some in Ha as [_ <-]. exact Hcmd.
  - assert (Hnone : ∀ c p, inflight w !! c = Some p → is_toggle k (p_cont p) = true → False).
    { intros c p Hc Hk. pose proof (Hin _ _ Hc Hk) as Ha. rewrite Hg in Ha.
      rewrite lookup_empty in Ha. discriminate. }
    split; [split; [intros Hp; contradiction | intros (c & p & Hc & Hk)]|].
    { exfalso. exact (Hnone _ _ Hc Hk). }
    split.
    + intros c1 c2 p1 p2 H1 _ Hk1 _. exfalso. exact (Hnone _ _ H1 Hk1).
    + intros c p Hc Hk. exfalso. exact (Hnone _ _ Hc Hk).
Qed.

Lemma one_call_per_control_witness :
  ∃ w, run [Ui ClickWifi; Ui ClickBluetooth; Ui ClickWifi; Settle 2 (Rejected "no")]
           (boot (TauriV2 None)) = Some w
       ∧ pending WiFi w
       ∧ ¬ pending Bluetooth w.
Proof.
  assert (Hrun : ∃ w, run [Ui ClickWifi; Ui ClickBluetooth; Ui ClickWifi;
                           Settle 2 (Rejected "no")] (boot (TauriV2 None)) = Some w
                      ∧ inflight w !! 1%positive
                        = Some {| p_command := set_wifi_enabled; p_promise := AwaitsBackend;
                                  p_cont := in_toggleWifi true |}
                      ∧ bool_decide (pending Bluetooth w) = false).
  { eexists. split; [vm_compute; reflexivity|]. split; vm_compute; reflexivity. }
  destruct Hrun as (w & Hrun & Hin & Hbt).
  exists w. split; [exact Hrun|]. split.
  - apply (proj1 (one_call_per_control (TauriV2 None) _ _ w WiFi (or_introl eq_refl) Hrun)).
    exact (ex_intro _ 1%positive (ex_intro _ _ (conj Hin eq_refl))).
  - exact (bool_decide_eq_false_1 _ Hbt).
Defined.

(** ** The guard of the tests *)

(** X22 (the toggles follow [canToggle]).  The guard at the head of
    [toggleWifi], [toggleBluetooth] and [toggleNightLight] is the tests'
    [canToggle] on the control's key: the set of pending keys after the
    click is the set [canToggle] leaves; where [canToggle] answers false the
    click changes nothing at all; where it answers true the click makes
    exactly one call.  Once the key is deleted [canToggle] answers true
    again. *)
Theorem toggles_follow_canToggle (k : Kind) (w : World) :
  pendingOperations (state (dispatch (click k) w))
  = snd (canToggle (pending_key k) (pendingOperations (state w)))
  ∧ (fst (canToggle (pending_key k) (pendingOperations (state w))) = false →
     dispatch (click k) w = w)
  ∧ (fst (canToggle (pending_key k) (pendingOperations (state w))) = true →
     trace (dispatch (click k) w) = trace w ++ [toggle_call k w])
  ∧ fst (canToggle (pending_key k)
           (snd (canToggle (pending_key k) (pendingOperations (state w)))
            ∖ {[pending_key k]})) = true.
Proof.
  unfold canToggle.
  destruct (decide (pending_key k ∈ pendingOperations (state w))) as [Hp|Hfree]; cbn [fst snd].
  - rewrite (toggle_pending_noop k w Hp).
    split; [reflexivity|]. split; [reflexivity|]. split; [discriminate|].
    rewrite decide_False; [reflexivity|].
    rewrite elem_of_difference, elem_of_singleton. tauto.
  - rewrite (toggle_free k w Hfree), await_invoke_state, await_invoke_trace.
    split; [destruct k; reflexivity|]. split; [discriminate|].
    split; [destruct k; reflexivity|].
    rewrite decide_False; [reflexivity|].
    rewrite elem_of_difference, elem_of_singleton. tauto.
Qed.

(** ** Deferred calls come after their trigger *)

Lemma triggered_mono d n n' w w' calls :
  trace w' = trace w ++ calls → (n ≤ n')%nat → triggered d n w → triggered d n' w'.
Proof.
  intros Htr Hle (c & Hin & Hc & Ht). exists c.
  rewrite Htr, elem_of_app. repeat split; auto. lia.
Qed.

Lemma ordered_of_view d w w' : order_view w' = order_view w → ordered d w → ordered d w'.
Proof.
  unfold order_view, ordered, triggered. intros [= Hc Htr Hti Hin].
  rewrite Hc, Htr, Hti, Hin. exact id.
Qed.

Lemma ordered_timers d w w' :
  clock w' = clock w → trace w' = trace w → inflight w' = inflight w →
  (∀ id t, timers w' !! id = Some t → is_deferral d (task t) = true →
           timers w !! id = Some t) →
  ordered d w → ordered d w'.
Proof.
  unfold ordered, triggered. intros Hc Htr Hin Hti (Ha & Hb & Hd & He).
  rewrite Hc, Htr, Hin. repeat split; auto.
  intros id t Ht Hk. exact (Hd id t (Hti id t Ht Hk) Hk).
Qed.

Lemma ordered_clearTimeout d id w : ordered d w → ordered d (clearTimeout id w).
Proof.
  apply ordered_timers; try reflexivity.
  intros id' t Ht _. cbn in Ht. apply lookup_delete_Some in Ht as [_ Ht]. exact Ht.
Qed.

Lemma ordered_clear_if_set d var w : ordered d w → ordered d (clear_if_set var w).
Proof. destruct var; [apply ordered_clearTimeout | exact id]. Qed.

Lemma ordered_setTimeout d t delta w :
  is_deferral d t = false → ordered d w → ordered d (snd (setTimeout t delta w)).
Proof.
  intros Hno. apply ordered_timers; try reflexivity.
  intros id t' Ht Hk. cbn in Ht. apply lookup_insert_Some in Ht as [[_ <-] | [_ Ht]].
  - cbn in Hk. congruence.
  - exact Ht.
Qed.

Lemma ordered_setTimeout_deferral d t delta w :
  triggered d (clock w) w → (delay d ≤ delta)%nat →
  ordered d w → ordered d (snd (setTimeout t delta w)).
Proof.
  intros Htrig Hdelay (Ha & Hb & Hd & He).
  unfold ordered, triggered in *. cbn. repeat split; auto.
  intros id t' Ht Hk. apply lookup_insert_Some in Ht as [[_ <-] | [_ Ht]].
  - exists (clock w). split; [exact Htrig | cbn; lia].
  - exact (Hd id t' Ht Hk).
Qed.

Lemma ordered_showToast d message type w : ordered d w → ordered d (showToast message type w).
Proof.
  intros Ho. unfold showToast. destruct (toast (els w)); [|exact Ho]. cbv zeta.
  match goal with
  | |- ordered d (let '(id, w2) := setTimeout ?t ?delta ?w1 in put_toastTimer (Some id) w2) =>
      change (ordered d (put_toastTimer (Some (nextTimer w1)) (snd (setTimeout t delta w1))));
      apply (ordered_of_view d (snd (setTimeout t delta w1))); [reflexivity|];
      apply ordered_setTimeout; [destruct d; reflexivity|];
      apply (ordered_of_view d (clear_if_set (toastTimer w) w)); [reflexivity|];
      apply ordered_clear_if_set, Ho
  end.
Qed.

Lemma ordered_handleVolumeChange d v w : ordered d w → ordered d (handleVolumeChange v w).
Proof.
  intros Ho. unfold handleVolumeChange. cbv zeta.
  match goal with
  | |- ordered d (let '(id, w2) := setTimeout ?t ?delta ?w1 in _) =>
      change (ordered d (put_volumeDebounceTimer (Some (nextTimer w1))
                           (snd (setTimeout t delta w1))));
      apply (ordered_of_view d (snd (setTimeout t delta w1))); [reflexivity|];
      apply ordered_setTimeout; [destruct d; reflexivity|];
      apply ordered_clear_if_set, Ho
  end.
Qed.

Lemma ordered_handleBrightnessChange d v w :
  ordered d w → ordered d (handleBrightnessChange v w).
Proof.
  intros Ho. unfold handleBrightnessChange. cbv zeta.
  match goal with
  | |- ordered d (let '(id, w2) := setTimeout ?t ?delta ?w1 in _) =>
      change (ordered d (put_brightnessDebounceTimer (Some (nextTimer w1))
                           (snd (setTimeout t delta w1))));
      apply (ordered_of_view d (snd (setTimeout t delta w1))); [reflexivity|];
      apply ordered_setTimeout; [destruct d; reflexivity|];
      apply ordered_clear_if_set, Ho
  end.
Qed.

(** A call that is handed over: the trace gains it, stamped with the
    clock. *)
Lemma ordered_delegate d command args w :
  (command = deferred d → ∃ n, triggered d n w ∧ (n + delay d ≤ clock w)%nat) →
  ordered d w → ordered d (delegate command args w).
Proof.
  intros Hcmd (Ha & Hb & Hd & He).
  set (call := {| c_time := clock w; c_command := command; c_args := args |}).
  assert (Hgrow : ∀ n, triggered d n w → triggered d n (delegate command args w)).
  { intros n. apply (triggered_mono d n n w _ [call]); [reflexivity | lia]. }
  unfold ordered. cbn [clock trace timers inflight delegate put_trace].
  split.
  { intros c [Hc | ->%list_elem_of_singleton]%elem_of_app; [apply Ha, Hc | cbn; lia]. }
  split.
  { intros id p Hin Hs. apply Hgrow. exact (Hb id p Hin Hs). }
  split.
  { intros id t Ht Hk. destruct (Hd id t Ht Hk) as (n & Hn & Hle).
    exists n. split; [apply Hgrow, Hn | exact Hle]. }
  intros c [Hc | ->%list_elem_of_singleton]%elem_of_app Hk.
  - destruct (He c Hc Hk) as (n & Hn & Hle). exists n. split; [apply Hgrow, Hn | exact Hle].
  - cbn in Hk. destruct (Hcmd Hk) as (n & Hn & Hle).
    exists n. split; [apply Hgrow, Hn | exact Hle].
Qed.

Lemma triggered_delegate d command args w :
  command = trigger d → triggered d (clock w) (delegate command args w).
Proof.
  intros ->. exists {| c_time := clock w; c_command := trigger d; c_args := args |}.
  split; [|split; [reflexivity | cbn; lia]].
  cbn. apply elem_of_app. right. apply list_elem_of_singleton. reflexivity.
Qed.

Lemma triggered_of_view d n w w' :
  trace w' = trace w → triggered d n w → triggered d n w'.
Proof. unfold triggered. intros ->. exact id. Qed.

(** A caller that is parked. *)
Lemma ordered_park d id p next w :
  (starts d (p_cont p) = true → triggered d (clock w) w) →
  ordered d w → ordered d (put_inflight (<[id := p]> (inflight w)) next w).
Proof.
  intros Hstart (Ha & Hb & Hd & He). unfold ordered, triggered in *. cbn.
  repeat split; auto.
  intros id' p' [[_ <-] | [_ Hin]]%lookup_insert_Some Hs.
  - exact (Hstart Hs).
  - exact (Hb id' p' Hin Hs).
Qed.

Lemma ordered_invoke d command args w :
  (command = deferred d → ∃ n, triggered d n w ∧ (n + delay d ≤ clock w)%nat) →
  ordered d w →
  ordered d (snd (invoke command args w))
  ∧ (command = trigger d →
     triggered d (clock (snd (invoke command args w))) (snd (invoke command args w))).
Proof.
  intros Hcmd Ho. unfold invoke, invoke_body, async.
  destruct (bridge w) as [[error|]|[error|]|]; cbn [snd]; unfold invoke_catch;
    rewrite ?showToast_clock;
    (split;
     [ try apply ordered_showToast;
       try (apply (ordered_of_view d (delegate command args w)); [reflexivity|]);
       try (apply ordered_delegate; [exact Hcmd|]);
       try exact Ho
     | intros Heq;
       try (apply (triggered_of_view d _ _ _ (showToast_trace _ _ _)));
       try exact (triggered_delegate d command args _ Heq) ]).
Qed.

Lemma ordered_await_invoke d command args k w :
  (command = deferred d → ∃ n, triggered d n w ∧ (n + delay d ≤ clock w)%nat) →
  (starts d k = true → command = trigger d) →
  ordered d w → ordered d (await_invoke command args k w).
Proof.
  intros Hcmd Hstart Ho. unfold await_invoke.
  destruct (ordered_invoke d command args w Hcmd Ho) as [Hx Htrig].
  destruct (invoke command args w) as [p x]. cbn [snd] in Hx, Htrig.
  apply ordered_park; [|exact Hx]. cbn. intros Hs. exact (Htrig (Hstart Hs)).
Qed.

Lemma ov_showLoading w : order_view (showLoading w) = order_view w.
Proof. unfold showLoading. cbn. destruct (loadingOverlay_hidden (els w)); reflexivity. Qed.

Lemma ov_hideLoading w : order_view (hideLoading w) = order_view w.
Proof. unfold hideLoading. cbn. destruct (loadingOverlay_hidden (els w)); reflexivity. Qed.

Lemma ov_hide_toast w : order_view (hide_toast w) = order_view w.
Proof. unfold hide_toast. destruct (toast (els w)); reflexivity. Qed.

Lemma ov_updateVolumeUI w : order_view (updateVolumeUI w) = order_view w.
Proof. unfold updateVolumeUI. cbn. destruct (muted (state w)); reflexivity. Qed.

Lemma ov_updateWifiUI w : order_view (updateWifiUI w) = order_view w.
Proof.
  unfold updateWifiUI. cbn.
  destruct (wifiEnabled (state w) && wifiConnected (state w) && truthy (wifiSsid (state w)));
    [|destruct (wifiEnabled (state w))]; reflexivity.
Qed.

Lemma ov_updateAllUI w : order_view (updateAllUI w) = order_view w.
Proof. open_updateAllUI w; reflexivity. Qed.

(** Chaining the lemmas along the way a handler is written.  A call that
    is not the deferred one and a caller that does not start the timer go
    through by computation. *)
Ltac ordered_side d :=
  first
    [ reflexivity
    | solve [ intros H; destruct d; first [ discriminate H | reflexivity ] ] ].

Ltac ordered_chain d :=
  lazymatch goal with
  | H : ordered d ?w |- ordered d ?w => exact H
  | |- ordered d (update_state ?f ?w1) =>
      apply (ordered_of_view d w1); [reflexivity | ordered_chain d]
  | |- ordered d (update_els ?f ?w1) =>
      apply (ordered_of_view d w1); [reflexivity | ordered_chain d]
  | |- ordered d (console_log ?m ?w1) =>
      apply (ordered_of_view d w1); [reflexivity | ordered_chain d]
  | |- ordered d (unhandled_rejection ?m ?w1) =>
      apply (ordered_of_view d w1); [reflexivity | ordered_chain d]
  | |- ordered d (showLoading ?w1) =>
      apply (ordered_of_view d w1); [apply ov_showLoading | ordered_chain d]
  | |- ordered d (hideLoading ?w1) =>
      apply (ordered_of_view d w1); [apply ov_hideLoading | ordered_chain d]
  | |- ordered d (hide_toast ?w1) =>
      apply (ordered_of_view d w1); [apply ov_hide_toast | ordered_chain d]
  | |- ordered d (updateVolumeUI ?w1) =>
      apply (ordered_of_view d w1); [apply ov_updateVolumeUI | ordered_chain d]
  | |- ordered d (updateBrightnessUI ?w1) =>
      apply (ordered_of_view d w1); [reflexivity | ordered_chain d]
  | |- ordered d (updateWifiUI ?w1) =>
      apply (ordered_of_view d w1); [apply ov_updateWifiUI | ordered_chain d]
  | |- ordered d (updateBluetoothUI ?w1) =>
      apply (ordered_of_view d w1); [reflexivity | ordered_chain d]
  | |- ordered d (updateNightLightUI ?w1) =>
      apply (ordered_of_view d w1); [reflexivity | ordered_chain d]
  | |- ordered d (updateAllUI ?w1) =>
      apply (ordered_of_view d w1); [apply ov_updateAllUI | ordered_chain d]
  | |- ordered d (handleVolumeInput ?v ?w1) =>
      apply (ordered_of_view d w1); [reflexivity | ordered_chain d]
  | |- ordered d (handleBrightnessInput ?v ?w1) =>
      apply (ordered_of_view d w1); [reflexivity | ordered_chain d]
  | |- ordered d (showToast ?m ?t ?w1) => apply ordered_showToast; ordered_chain d
  | |- ordered d (handleVolumeChange ?v ?w1) =>
      apply ordered_handleVolumeChange; ordered_chain d
  | |- ordered d (handleBrightnessChange ?v ?w1) =>
      apply ordered_handleBrightnessChange; ordered_chain d
  | |- ordered d (await_invoke ?c ?a ?k ?w1) =>
      apply ordered_await_invoke; [ordered_side d | ordered_side d | ordered_chain d]
  end.

Ltac ordered_go := lazymatch goal with |- ordered ?d _ => ordered_chain d end.

(** Every listener keeps the order. *)
Lemma ordered_dispatch d e w : ordered d w → ordered d (dispatch e w).
Proof.
  intros Ho.
  destruct e; cbn [dispatch];
    try (destruct key, active; cbn [handleKeyDown]);
    unfold toggleWifi, toggleBluetooth, toggleNightLight, suspendSystem, toggleMute,
      closeWindow, loadInitialState, key_adjust_volume, key_adjust_brightness;
    cbv zeta;
    repeat match goal with
      | |- context [decide ?P] => destruct (decide P)
      | |- context [bridge w] => destruct (bridge w)
      end;
    ordered_chain d.
Qed.

(** A timer that runs keeps the order: the deferred call it may make comes
    late enough. *)
Lemma ordered_timeout d id t w :
  timers w !! id = Some t →
  (due t ≤ clock w)%nat →
  ordered d w → ordered d (run_task (task t) (clearTimeout id w)).
Proof.
  intros Ht Hdue Ho.
  pose proof (ordered_clearTimeout d id w Ho) as Ho1.
  assert (Hlate : is_deferral d (task t) = true →
                  ∃ n, triggered d n (clearTimeout id w)
                       ∧ (n + delay d ≤ clock (clearTimeout id w))%nat).
  { intros Hk. destruct Ho as (_ & _ & Hd & _).
    destruct (Hd id t Ht Hk) as (n & Hn & Hle). exists n. split; [exact Hn | cbn; lia]. }
  destruct (task t); cbn [run_task];
    try (apply ordered_await_invoke;
         [ intros H; destruct d; first [ discriminate H | exact (Hlate eq_refl) ]
         | ordered_side d
         | exact Ho1 ]).
  ordered_chain d.
Qed.

(** The rest of every async function keeps the order: the timer it may
    start is due late enough, its trigger having been called before the
    await. *)
Lemma ordered_resume d c r w w' :
  (starts d c = true → triggered d (clock w) w) →
  ordered d w → resume c r w = Some w' → ordered d w'.
Proof.
  intros Htrig Ho.
  destruct c, r as [[| | | |]|]; cbn [resume]; try discriminate;
    try destruct after;
    refine (from_Some (ordered d) _ _ _);
    unfold refreshVolume, refreshBrightness; cbv zeta;
    try (ordered_chain d).
  all: try (apply (ordered_of_view d (snd (setTimeout WifiRefresh 1000
                     (update_state (with_wifiEnabled newState) w)))); [reflexivity|]).
  all: destruct d;
    first [ apply ordered_setTimeout; [reflexivity | ordered_go]
          | apply ordered_setTimeout_deferral;
            [ apply (triggered_of_view _ _ w); [reflexivity | exact (Htrig eq_refl)]
            | cbn; lia
            | ordered_go ] ].
Qed.

Lemma ordered_invoke_settled d command r w :
  ordered d w → ordered d (invoke_settled command r w).
Proof.
  intros Ho. destruct r; [exact Ho|]. unfold invoke_settled, invoke_catch.
  ordered_chain d.
Qed.

(** Every step of the event loop keeps the order. *)
Lemma ordered_exec d a w w' : ordered d w → exec a w = Some w' → ordered d w'.
Proof.
  intros Ho. destruct a as [n|id|e|call r]; cbn -[resume invoke_settled dispatch run_task].
  - intros [= <-]. destruct Ho as (Ha & Hb & Hd & He).
    unfold ordered, triggered in *. cbn. repeat split; auto.
    + intros c Hc. pose proof (Ha c Hc). lia.
    + intros id p Hin Hs. destruct (Hb id p Hin Hs) as (c & Hc & Hk & Hle).
      exists c. repeat split; auto. lia.
  - destruct (timers w !! id) as [t|] eqn:Ht; [|discriminate].
    destruct (decide _) as [Hdue|]; [|discriminate].
    refine (from_Some (ordered d) _ _ _). exact (ordered_timeout d id t w Ht Hdue Ho).
  - refine (from_Some (ordered d) _ _ _). apply ordered_dispatch, Ho.
  - destruct (inflight w !! call) as [p|] eqn:Hp; [|discriminate].
    destruct (delivers (p_promise p) r); [|discriminate].
    assert (Htrig : starts d (p_cont p) = true → triggered d (clock w) w).
    { destruct Ho as (_ & Hb & _). exact (Hb call p Hp). }
    assert (Ho1 : ordered d (put_inflight (delete call (inflight w)) (nextCall w) w)).
    { destruct Ho as (Ha & Hb & Hd & He). unfold ordered, triggered in *. cbn.
      repeat split; auto.
      intros id p' [_ Hin]%lookup_delete_Some Hs. exact (Hb id p' Hin Hs). }
    apply ordered_resume.
    + intros Hs. destruct (p_promise p).
      * destruct r; [exact (Htrig Hs)|].
        unfold invoke_settled, invoke_catch. rewrite showToast_clock.
        apply (triggered_of_view d _ w); [rewrite showToast_trace; reflexivity|].
        exact (Htrig Hs).
      * exact (Htrig Hs).
    + destruct (p_promise p); [apply ordered_invoke_settled|]; exact Ho1.
Qed.

Lemma ordered_run d acts : ∀ w w', ordered d w → run acts w = Some w' → ordered d w'.
Proof.
  induction acts as [|a acts IH]; intros w w' Ho Hrun; cbn in Hrun.
  - injection Hrun as <-. exact Ho.
  - destruct (exec a w) as [w1|] eqn:Hexec; [|discriminate].
    exact (IH _ _ (ordered_exec _ _ _ _ Ho Hexec) Hrun).
Qed.

Lemma ordered_boot d b : ordered d (boot b).
Proof.
  unfold ordered, triggered. cbn. repeat split.
  - intros c Hc. apply elem_of_nil in Hc. contradiction.
  - intros id p Hin. rewrite lookup_empty in Hin. discriminate.
  - intros id t Hin. rewrite lookup_empty in Hin. discriminate.
  - intros c Hc. apply elem_of_nil in Hc. contradiction.
Qed.

Lemma ordered_start d b w : at_start b w → ordered d w.
Proof.
  pose proof (ordered_boot d b) as Hboot.
  intros [-> | ->]; [exact Hboot|].
  unfold loaded, loadInitialState. ordered_chain d.
Qed.

(** X23 (deferred calls come after their trigger).  In every world the
    event loop reaches from start-up (the page as built, or with the first
    fetch under way), whatever the bridge and whatever happened: every
    [suspend_system] call in the trace was made at least 100 after a
    [close_window] call, and every [get_wifi_status] call at least 1000
    after a [set_wifi_enabled] call.  So the machine is never suspended
    unless the window was asked to close first, and the WiFi status is only
    fetched for a toggle. *)
Theorem deferred_calls_follow_trigger (b : Bridge) (w0 : World) (acts : list Action)
    (w : World) (d : Deferral) (c : Call) :
  at_start b w0 →
  run acts w0 = Some w →
  c ∈ trace w →
  c_command c = deferred d →
  ∃ c', c' ∈ trace w
        ∧ c_command c' = trigger d
        ∧ (c_time c' + delay d ≤ c_time c)%nat.
Proof.
  intros Hstart Hrun Hc Hk.
  destruct (ordered_run d acts _ _ (ordered_start d b w0 Hstart) Hrun) as (_ & _ & _ & He).
  destruct (He c Hc Hk) as (n & (c' & Hc' & Hk' & Hle) & Hn).
  exists c'. repeat split; auto. lia.
Qed.

Lemma deferred_calls_follow_trigger_witness :
  ∃ w c', run [Ui ClickSuspend; Wait 7; Settle 1 (Rejected "stuck"); Wait 100; Timeout 3]
              (boot (TauriV2 None)) = Some w
          ∧ c' ∈ trace w
          ∧ c_command c' = close_window
          ∧ (c_time c' + 100 ≤ 107)%nat.
Proof.
  assert (Hrun : ∃ w, run [Ui ClickSuspend; Wait 7; Settle 1 (Rejected "stuck"); Wait 100;
                           Timeout 3] (boot (TauriV2 None)) = Some w
                      ∧ trace w = [ {| c_time := 0; c_command := close_window;
                                       c_args := NoArgs |};
                                    {| c_time := 107; c_command := suspend_system;
                                       c_args := NoArgs |} ]).
  { eexists. split; vm_compute; reflexivity. }
  destruct Hrun as (w & Hrun & Htr).
  destruct (deferred_calls_follow_trigger (TauriV2 None) _ _ w SuspendAfterClose
              {| c_time := 107; c_command := suspend_system; c_args := NoArgs |}
              (or_introl eq_refl) Hrun)
    as (c' & Hc' & Hk' & Hle).
  - rewrite Htr. apply elem_of_cons. right. apply list_elem_of_singleton. reflexivity.
  - reflexivity.
  - exists w, c'. split; [exact Hrun|]. split; [exact Hc'|]. split; [exact Hk' | exact Hle].
Defined.

(** ** Nothing fails without a bridge *)

Lemma mock_ok_of_view w w' : mock_view w' = mock_view w → mock_ok w → mock_ok w'.
Proof.
  unfold mock_view, mock_ok. intros [= Hb Hi Hu Ht]. rewrite Hb, Hi, Hu, Ht. exact id.
Qed.

Lemma mock_ok_showToast message type w :
  type ≠ "error"%string → mock_ok w → mock_ok (showToast message type w).
Proof.
  intros Hty (Hb & Hi & Hu & Ht). unfold mock_ok.
  rewrite showToast_bridge, unhandled_showToast, (proj1 (showToast_inflight _ _ _)).
  repeat split; auto.
  intros t. destruct (toast (els w)) as [t0|] eqn:Ht0.
  - rewrite (showToast_toast message type w t0 Ht0). intros [= <-]. exact Hty.
  - unfold showToast. rewrite Ht0. intros H. congruence.
Qed.

Lemma mock_ok_hide_toast w : mock_ok w → mock_ok (hide_toast w).
Proof.
  intros (Hb & Hi & Hu & Ht). unfold hide_toast.
  destruct (toast (els w)) as [t0|] eqn:Ht0.
  - unfold mock_ok. cbn. repeat split; auto.
    intros t [= <-]. cbn. exact (Ht t0 eq_refl).
  - unfold mock_ok. rewrite Ht0. repeat split; auto; intros t H; discriminate H.
Qed.

Lemma mock_ok_await_invoke command args k w :
  mock_ok w → mock_ok (await_invoke command args k w).
Proof.
  intros (Hb & Hi & Hu & Ht). unfold await_invoke, invoke, invoke_body. rewrite Hb.
  unfold mock_ok. cbn. repeat split; auto.
  intros id p [[_ <-] | [_ Hin]]%lookup_insert_Some.
  - eexists. reflexivity.
  - exact (Hi id p Hin).
Qed.

Lemma mv_showLoading w : mock_view (showLoading w) = mock_view w.
Proof. unfold showLoading. cbn. destruct (loadingOverlay_hidden (els w)); reflexivity. Qed.

Lemma mv_hideLoading w : mock_view (hideLoading w) = mock_view w.
Proof. unfold hideLoading. cbn. destruct (loadingOverlay_hidden (els w)); reflexivity. Qed.

Lemma mv_updateVolumeUI w : mock_view (updateVolumeUI w) = mock_view w.
Proof. unfold updateVolumeUI. cbn. destruct (muted (state w)); reflexivity. Qed.

Lemma mv_updateWifiUI w : mock_view (updateWifiUI w) = mock_view w.
Proof.
  unfold updateWifiUI. cbn.
  destruct (wifiEnabled (state w) && wifiConnected (state w) && truthy (wifiSsid (state w)));
    [|destruct (wifiEnabled (state w))]; reflexivity.
Qed.

Lemma mv_updateAllUI w : mock_view (updateAllUI w) = mock_view w.
Proof. open_updateAllUI w; reflexivity. Qed.

Lemma mv_handleVolumeChange v w : mock_view (handleVolumeChange v w) = mock_view w.
Proof.
  unfold handleVolumeChange, clear_if_set. destruct (volumeDebounceTimer w); reflexivity.
Qed.

Lemma mv_handleBrightnessChange v w : mock_view (handleBrightnessChange v w) = mock_view w.
Proof.
  unfold handleBrightnessChange, clear_if_set.
  destruct (brightnessDebounceTimer w); reflexivity.
Qed.

Ltac mock_chain :=
  lazymatch goal with
  | H : mock_ok ?w |- mock_ok ?w => exact H
  | |- mock_ok (update_state ?f ?w1) =>
      apply (mock_ok_of_view w1); [reflexivity | mock_chain]
  | |- mock_ok (update_els ?f ?w1) =>
      apply (mock_ok_of_view w1); [reflexivity | mock_chain]
  | |- mock_ok (console_log ?m ?w1) =>
      apply (mock_ok_of_view w1); [reflexivity | mock_chain]
  | |- mock_ok (snd (setTimeout ?t ?delta ?w1)) =>
      apply (mock_ok_of_view w1); [reflexivity | mock_chain]
  | |- mock_ok (clearTimeout ?id ?w1) =>
      apply (mock_ok_of_view w1); [reflexivity | mock_chain]
  | |- mock_ok (showLoading ?w1) =>
      apply (mock_ok_of_view w1); [apply mv_showLoading | mock_chain]
  | |- mock_ok (hideLoading ?w1) =>
      apply (mock_ok_of_view w1); [apply mv_hideLoading | mock_chain]
  | |- mock_ok (hide_toast ?w1) => apply mock_ok_hide_toast; mock_chain
  | |- mock_ok (updateVolumeUI ?w1) =>
      apply (mock_ok_of_view w1); [apply mv_updateVolumeUI | mock_chain]
  | |- mock_ok (updateBrightnessUI ?w1) =>
      apply (mock_ok_of_view w1); [reflexivity | mock_chain]
  | |- mock_ok (updateWifiUI ?w1) =>
      apply (mock_ok_of_view w1); [apply mv_updateWifiUI | mock_chain]
  | |- mock_ok (updateBluetoothUI ?w1) =>
      apply (mock_ok_of_view w1); [reflexivity | mock_chain]
  | |- mock_ok (updateNightLightUI ?w1) =>
      apply (mock_ok_of_view w1); [reflexivity | mock_chain]
  | |- mock_ok (updateAllUI ?w1) =>
      apply (mock_ok_of_view w1); [apply mv_updateAllUI | mock_chain]
  | |- mock_ok (handleVolumeInput ?v ?w1) =>
      apply (mock_ok_of_view w1); [reflexivity | mock_chain]
  | |- mock_ok (handleBrightnessInput ?v ?w1) =>
      apply (mock_ok_of_view w1); [reflexivity | mock_chain]
  | |- mock_ok (handleVolumeChange ?v ?w1) =>
      apply (mock_ok_of_view w1); [apply mv_handleVolumeChange | mock_chain]
  | |- mock_ok (handleBrightnessChange ?v ?w1) =>
      apply (mock_ok_of_view w1); [apply mv_handleBrightnessChange | mock_chain]
  | |- mock_ok (showToast ?m ?t ?w1) =>
      apply mock_ok_showToast; [discriminate | mock_chain]
  | |- mock_ok (await_invoke ?c ?a ?k ?w1) => apply mock_ok_await_invoke; mock_chain
  end.

Lemma mock_ok_dispatch e w : mock_ok w → mock_ok (dispatch e w).
Proof.
  intros Ho.
  destruct e; cbn [dispatch];
    try (destruct key, active; cbn [handleKeyDown]);
    unfold toggleWifi, toggleBluetooth, toggleNightLight, suspendSystem, toggleMute,
      closeWindow, loadInitialState, key_adjust_volume, key_adjust_brightness;
    cbv zeta;
    repeat match goal with
      | |- context [decide ?P] => destruct (decide P)
      | |- context [bridge w] => destruct (bridge w)
      end;
    mock_chain.
Qed.

Lemma mock_ok_run_task t w : mock_ok w → mock_ok (run_task t w).
Proof. intros Ho. destruct t; cbn [run_task]; mock_chain. Qed.

Lemma mock_ok_resume c v w w' :
  mock_ok w → resume c (Resolved v) w = Some w' → mock_ok w'.
Proof.
  intros Ho.
  destruct c, v; cbn [resume]; try discriminate;
    try destruct after;
    refine (from_Some mock_ok _ _ _);
    unfold refreshVolume, refreshBrightness; cbv zeta;
    mock_chain.
Qed.

(** On a page without a bridge a call settles in one way only: resolved. *)
Lemma mock_settles_resolved call r w w' :
  mock_ok w → exec (Settle call r) w = Some w' → ∃ v, r = Resolved v.
Proof.
  intros (_ & Hi & _). cbn -[resume invoke_settled].
  destruct (inflight w !! call) as [p|] eqn:Hp; [|discriminate].
  destruct (Hi call p Hp) as [v Hv]. rewrite Hv. cbn -[resume].
  destruct (bool_decide (r = Resolved v)) eqn:Hr; [|discriminate].
  intros _. exists v. exact (bool_decide_eq_true_1 _ Hr).
Qed.

Lemma mock_ok_exec a w w' : mock_ok w → exec a w = Some w' → mock_ok w'.
Proof.
  intros Ho. destruct a as [n|id|e|call r].
  - cbn. intros [= <-]. revert Ho. apply mock_ok_of_view. reflexivity.
  - cbn -[run_task]. destruct (timers w !! id) as [t|]; [|discriminate].
    destruct (decide _); [|discriminate].
    refine (from_Some mock_ok _ _ _). apply mock_ok_run_task.
    revert Ho. apply mock_ok_of_view. reflexivity.
  - cbn -[dispatch]. refine (from_Some mock_ok _ _ _). apply mock_ok_dispatch, Ho.
  - intros Hexec. destruct (mock_settles_resolved call r w w' Ho Hexec) as [v ->].
    revert Hexec. cbn -[resume invoke_settled].
    destruct (inflight w !! call) as [p|] eqn:Hp; [|discriminate].
    destruct (delivers (p_promise p) (Resolved v)); [|discriminate].
    assert (Ho1 : mock_ok (put_inflight (delete call (inflight w)) (nextCall w) w)).
    { destruct Ho as (Hb & Hi & Hu & Ht). unfold mock_ok. cbn. repeat split; auto.
      intros id p' [_ Hin]%lookup_delete_Some. exact (Hi id p' Hin). }
    destruct (p_promise p); apply mock_ok_resume; exact Ho1.
Qed.

Lemma mock_ok_run acts : ∀ w w', mock_ok w → run acts w = Some w' → mock_ok w'.
Proof.
  induction acts as [|a acts IH]; intros w w' Ho Hrun; cbn in Hrun.
  - injection Hrun as <-. exact Ho.
  - destruct (exec a w) as [w1|] eqn:Hexec; [|discriminate].
    exact (IH _ _ (mock_ok_exec _ _ _ Ho Hexec) Hrun).
Qed.

Lemma mock_ok_boot : mock_ok (boot NoTauri).
Proof.
  unfold mock_ok. cbn. repeat split.
  - intros id p Hin. rewrite lookup_empty in Hin. discriminate.
  - intros t [= <-]. discriminate.
Qed.

Lemma mock_ok_start w : at_start NoTauri w → mock_ok w.
Proof.
  pose proof mock_ok_boot as Hboot.
  intros [-> | ->]; [exact Hboot|].
  unfold loaded, loadInitialState. mock_chain.
Qed.

(** X24 (nothing fails without a bridge).  On a page without a bridge,
    whatever is clicked, dragged or typed and whichever timers run, in every
    world the event loop reaches from start-up (the page as built, or with
    the first fetch under way): no rejection is unhandled, the toast never
    shows an error, every awaited promise is resolved already, and an
    awaited call can settle in one way only, resolved. *)
Theorem mock_mode_never_fails (w0 : World) (acts : list Action) (w : World) :
  at_start NoTauri w0 →
  run acts w0 = Some w →
  unhandled w = []
  ∧ (∀ t, toast (els w) = Some t → severity t ≠ "error"%string)
  ∧ (∀ call p, inflight w !! call = Some p → ∃ v, p_promise p = Settled (Resolved v))
  ∧ (∀ call r w', exec (Settle call r) w = Some w' → ∃ v, r = Resolved v).
Proof.
  intros Hstart Hrun.
  pose proof (mock_ok_run acts _ _ (mock_ok_start w0 Hstart) Hrun) as Ho.
  destruct Ho as (Hb & Hi & Hu & Ht).
  split; [exact Hu|]. split; [exact Ht|]. split; [exact Hi|].
  intros call r w'. apply mock_settles_resolved. repeat split; assumption.
Qed.

Lemma mock_mode_never_fails_witness :
  ∃ w, run [Ui ClickSuspend; Settle 2 (Resolved VNull); Wait 100; Timeout 2;
            Settle 3 (Resolved VNull)] (loaded NoTauri) = Some w
       ∧ unhandled w = [].
Proof.
  assert (Hrun : ∃ w, run [Ui ClickSuspend; Settle 2 (Resolved VNull); Wait 100; Timeout 2;
                           Settle 3 (Resolved VNull)] (loaded NoTauri) = Some w).
  { eexists. vm_compute. reflexivity. }
  destruct Hrun as (w & Hrun).
  exists w. split; [exact Hrun|].
  exact (proj1 (mock_mode_never_fails _ _ w (or_intror eq_refl) Hrun)).
Defined.

(** ** One debounce timer per slider, over the whole event loop *)

Lemma single_keeps s w w' : keeps s w w' → single_timer s w → single_timer s w'.
Proof.
  intros (Hwf' & _ & Hvar & _ & Htimers) (_ & Hone). split; [exact Hwf'|].
  intros id t Ht Hk. rewrite Hvar. apply (Hone id t); [|exact Hk].
  apply Htimers; assumption.
Qed.

Lemma single_idle s w : wf w → idle s w → single_timer s w.
Proof.
  intros Hwf Hidle. split; [exact Hwf|].
  intros id t Ht Hk. rewrite (Hidle id t Ht) in Hk. discriminate.
Qed.

Lemma is_commit_task s t : is_commit s t = true → ∃ v, t = commit_task s v.
Proof. destruct s, t; try discriminate; intros _; eexists; reflexivity. Qed.

(** Every step of the event loop keeps a slider to one timer. *)
Lemma single_exec s a w w' : single_timer s w → exec a w = Some w' → single_timer s w'.
Proof.
  intros [Hwf Hone].
  destruct a as [d|id|e|call r]; cbn -[resume invoke_settled dispatch run_task].
  - intros [= <-]. split; [exact Hwf | exact Hone].
  - destruct (timers w !! id) as [t|] eqn:Ht; [|discriminate].
    destruct (decide _); [|discriminate].
    refine (from_Some (single_timer s) _ _ _).
    pose proof (wf_clearTimeout id w Hwf) as Hwf1.
    destruct (is_commit s (task t)) eqn:Hk.
    + destruct (is_commit_task s _ Hk) as [v ->].
      assert (Hidle : idle s (clearTimeout id w)).
      { intros id' t' Ht' . destruct (is_commit s (task t')) eqn:Hk'; [|reflexivity].
        cbn in Ht'. apply lookup_delete_Some in Ht' as [Hne Ht'].
        pose proof (Hone id' t' Ht' Hk') as H1. pose proof (Hone id t Ht Hk) as H2.
        congruence. }
      destruct (commit_task_runs s v _ Hwf1 Hidle) as (Hwf2 & Hidle2 & _).
      apply single_idle; assumption.
    + apply (single_keeps s (clearTimeout id w)).
      * apply keeps_run_task; assumption.
      * apply (single_keeps s w); [|split; assumption].
        apply keeps_clearTimeout; [|exact Hwf].
        intros t0 Ht0. rewrite Ht in Ht0. injection Ht0 as <-. exact Hk.
  - refine (from_Some (single_timer s) _ _ _).
    destruct (commit_of s e w) as [v|] eqn:Hcommit.
    + destruct (commit_shape _ _ _ _ Hcommit) as (w1 & Hview & ->).
      pose proof (wf_of_view _ _ Hview Hwf) as Hwf1.
      assert (Hone1 : ∀ id t, timers w1 !! id = Some t → is_commit s (task t) = true →
                              debounceTimer s w1 = Some id).
      { rewrite (debounceTimer_of_view s _ _ Hview).
        unfold timer_view in Hview. injection Hview as -> _ _ _ _ _ _. exact Hone. }
      destruct (change_rearms s v w1 Hwf1 Hone1) as (Hwf2 & (id & t & Hvar & _ & _ & _ & Huniq) & _).
      split; [exact Hwf2|]. intros id' t' Ht' Hk'. rewrite Hvar.
      f_equal. symmetry. exact (Huniq id' t' Ht' Hk').
    + apply (single_keeps s w); [|split; assumption].
      apply keeps_dispatch; assumption.
  - destruct (inflight w !! call) as [p|]; [|discriminate].
    destruct (delivers (p_promise p) r); [|discriminate].
    intros Hres.
    set (w0 := put_inflight (delete call (inflight w)) (nextCall w) w).
    assert (H0 : keeps s w w0) by (apply keeps_of_view; [reflexivity | exact Hwf]).
    assert (H1 : ∃ w1, resume (p_cont p) r w1 = Some w' ∧ keeps s w w1).
    { destruct (p_promise p).
      - eexists. split; [exact Hres|].
        apply (keeps_trans s w w0); [exact H0|].
        apply keeps_invoke_settled. exact (keeps_wf _ _ _ H0).
      - eexists. split; [exact Hres | exact H0]. }
    destruct H1 as (w1 & Hres1 & Hk1).
    apply (single_keeps s w1).
    + exact (keeps_resume s _ _ _ _ (keeps_wf _ _ _ Hk1) Hres1).
    + apply (single_keeps s w); [exact Hk1 | split; assumption].
Qed.

Lemma single_run s acts : ∀ w w', single_timer s w → run acts w = Some w' → single_timer s w'.
Proof.
  induction acts as [|a acts IH]; intros w w' Hs Hrun; cbn in Hrun.
  - injection Hrun as <-. exact Hs.
  - destruct (exec a w) as [w1|] eqn:Hexec; [|discriminate].
    exact (IH _ _ (single_exec _ _ _ _ Hs Hexec) Hrun).
Qed.

Lemma single_start s b w : at_start b w → single_timer s w.
Proof.
  pose proof (wf_boot b) as Hwf.
  pose proof (single_idle s _ Hwf (idle_boot s b)) as Hboot.
  intros [-> | ->]; [exact Hboot|].
  refine (single_keeps s (boot b) _ _ Hboot).
  unfold loaded, loadInitialState. destruct s; keeps_chain.
Qed.

(** X25 (one debounce timer per slider, always).  In every world the event
    loop reaches from start-up (the page as built, or with the first fetch
    under way), whatever the bridge and whatever happened, each slider has
    at most one debounce timer alive, and it is the one its timer variable
    holds: a 'change' event always cancels the timer of the event before, so
    two commits of one slider are never waiting at once. *)
Theorem one_timer_per_slider (b : Bridge) (w0 : World) (acts : list Action) (w : World)
    (s : Slider) :
  at_start b w0 →
  run acts w0 = Some w →
  (∀ id t, timers w !! id = Some t → is_commit s (task t) = true →
           debounceTimer s w = Some id)
  ∧ (∀ id1 id2 t1 t2,
       timers w !! id1 = Some t1 → timers w !! id2 = Some t2 →
       is_commit s (task t1) = true → is_commit s (task t2) = true →
       id1 = id2).
Proof.
  intros Hstart Hrun.
  destruct (single_run s acts _ _ (single_start s b w0 Hstart) Hrun) as [_ Hone].
  split; [exact Hone|].
  intros id1 id2 t1 t2 H1 H2 Hk1 Hk2.
  pose proof (Hone id1 t1 H1 Hk1) as E1. pose proof (Hone id2 t2 H2 Hk2) as E2.
  congruence.
Qed.

Lemma one_timer_per_slider_witness :
  ∃ w, run [Ui (VolumeChange 10); Wait 60; Ui (VolumeChange 20); Ui (BrightnessChange 5);
            Wait 10; Ui (KeyDown ArrowUp OnVolumeSlider)] (boot (TauriV2 None)) = Some w
       ∧ volumeDebounceTimer w = Some 4%positive.
Proof.
  assert (Hrun : ∃ w, run [Ui (VolumeChange 10); Wait 60; Ui (VolumeChange 20);
                           Ui (BrightnessChange 5); Wait 10;
                           Ui (KeyDown ArrowUp OnVolumeSlider)] (boot (TauriV2 None)) = Some w
                      ∧ timers w !! 4%positive
                        = Some {| due := 120; task := VolumeCommit 25 |}).
  { eexists. split; vm_compute; reflexivity. }
  destruct Hrun as (w & Hrun & Ht).
  exists w. split; [exact Hrun|].
  exact (proj1 (one_timer_per_slider (TauriV2 None) _ _ w Volume (or_introl eq_refl) Hrun)
           4%positive _ Ht eq_refl).
Defined.

(** ** The messages of the tests *)

(** X26 (the gateway shows the raw error).  When a call is rejected,
    [invoke] shows 'Error: ' followed by the error, whatever the error
    says.  That is the message the tests' [formatError] gives exactly for
    the errors it does not recognise: for an error that contains 'Command
    not found' or 'Permission denied' the page shows the raw error and not
    the friendly text of [formatError]. *)
Theorem gateway_shows_raw_error (command : Command) (error : string) (w : World) (t : Toast) :
  toast (els w) = Some t →
  let shown := textContent <$> toast (els (invoke_settled command (Rejected error) w)) in
  shown = Some ("Error: " ++ error)%string
  ∧ (shown = Some (formatError error)
     ↔ includes "Command not found" error = false
       ∧ includes "Permission denied" error = false).
Proof.
  intros Ht. cbv zeta. unfold invoke_settled, invoke_catch.
  rewrite (showToast_toast _ _ _ t) by exact Ht. cbn [fmap option_fmap option_map textContent].
  split; [reflexivity|].
  unfold formatError.
  destruct (includes "Command not found" error), (includes "Permission denied" error);
    split; try (intros [H1 H2]; discriminate); try (intros H; discriminate H);
    try (intros _; split; reflexivity); intros _; reflexivity.
Qed.

Lemma gateway_shows_raw_error_witness :
  textContent <$> toast (els (invoke_settled set_volume (Rejected "Command not found: pactl")
                                (boot (TauriV2 None))))
  = Some "Error: Command not found: pactl"%string
  ∧ formatError "Command not found: pactl" = "Required tool not installed"%string.
Proof.
  split; [|reflexivity].
  exact (proj1 (gateway_shows_raw_error set_volume "Command not found: pactl"
                  (boot (TauriV2 None))
                  {| textContent := EmptyString; shown := false; severity := "info" |}
                  eq_refl)).
Defined.

(** ** No mutation without its event *)

Lemma clean_of_view m w w' : order_view w' = order_view w → clean m w → clean m w'.
Proof.
  unfold order_view, clean. intros [= _ Htr Hti Hin]. rewrite Htr, Hti, Hin. exact id.
Qed.

Lemma clean_timers m w w' :
  trace w' = trace w → inflight w' = inflight w →
  (∀ id t, timers w' !! id = Some t → timers w !! id = Some t ∨ task_sends (task t) m = false) →
  clean m w → clean m w'.
Proof.
  unfold clean. intros Htr Hin Hti (Ha & Hb & Hc). rewrite Htr, Hin.
  repeat split; auto.
  intros id t Ht. destruct (Hti id t Ht) as [Hold | Hnew]; [exact (Hb id t Hold) | exact Hnew].
Qed.

Lemma clean_clearTimeout m id w : clean m w → clean m (clearTimeout id w).
Proof.
  apply clean_timers; try reflexivity.
  intros id' t Ht. left. cbn in Ht. apply lookup_delete_Some in Ht as [_ Ht]. exact Ht.
Qed.

Lemma clean_clear_if_set m var w : clean m w → clean m (clear_if_set var w).
Proof. destruct var; [apply clean_clearTimeout | exact id]. Qed.

Lemma clean_setTimeout m t delta w :
  task_sends t m = false → clean m w → clean m (snd (setTimeout t delta w)).
Proof.
  intros Hno. apply clean_timers; try reflexivity.
  intros id t' Ht. cbn in Ht. apply lookup_insert_Some in Ht as [[_ <-] | [_ Ht]].
  - right. exact Hno.
  - left. exact Ht.
Qed.

Lemma clean_showToast m message type w : clean m w → clean m (showToast message type w).
Proof.
  intros Ho. unfold showToast. destruct (toast (els w)); [|exact Ho]. cbv zeta.
  match goal with
  | |- clean m (let '(id, w2) := setTimeout ?t ?delta ?w1 in put_toastTimer (Some id) w2) =>
      change (clean m (put_toastTimer (Some (nextTimer w1)) (snd (setTimeout t delta w1))));
      apply (clean_of_view m (snd (setTimeout t delta w1))); [reflexivity|];
      apply clean_setTimeout; [destruct m; reflexivity|];
      apply (clean_of_view m (clear_if_set (toastTimer w) w)); [reflexivity|];
      apply clean_clear_if_set, Ho
  end.
Qed.

Lemma clean_handleVolumeChange m v w :
  m ≠ set_volume → clean m w → clean m (handleVolumeChange v w).
Proof.
  intros Hm Ho. unfold handleVolumeChange. cbv zeta.
  match goal with
  | |- clean m (let '(id, w2) := setTimeout ?t ?delta ?w1 in _) =>
      change (clean m (put_volumeDebounceTimer (Some (nextTimer w1))
                         (snd (setTimeout t delta w1))));
      apply (clean_of_view m (snd (setTimeout t delta w1))); [reflexivity|];
      apply clean_setTimeout; [destruct m; first [reflexivity | congruence]|];
      apply clean_clear_if_set, Ho
  end.
Qed.

Lemma clean_handleBrightnessChange m v w :
  m ≠ set_brightness → clean m w → clean m (handleBrightnessChange v w).
Proof.
  intros Hm Ho. unfold handleBrightnessChange. cbv zeta.
  match goal with
  | |- clean m (let '(id, w2) := setTimeout ?t ?delta ?w1 in _) =>
      change (clean m (put_brightnessDebounceTimer (Some (nextTimer w1))
                         (snd (setTimeout t delta w1))));
      apply (clean_of_view m (snd (setTimeout t delta w1))); [reflexivity|];
      apply clean_setTimeout; [destruct m; first [reflexivity | congruence]|];
      apply clean_clear_if_set, Ho
  end.
Qed.

Lemma clean_delegate m command args w :
  command ≠ m → clean m w → clean m (delegate command args w).
Proof.
  intros Hcmd (Ha & Hb & Hc). unfold clean. cbn. repeat split; auto.
  intros c [Hin | ->%list_elem_of_singleton]%elem_of_app; [exact (Ha c Hin) | exact Hcmd].
Qed.

Lemma clean_park m id p next w :
  cont_sends (p_cont p) m = false →
  clean m w → clean m (put_inflight (<[id := p]> (inflight w)) next w).
Proof.
  intros Hk (Ha & Hb & Hc). unfold clean. cbn. repeat split; auto.
  intros id' p' [[_ <-] | [_ Hin]]%lookup_insert_Some; [exact Hk | exact (Hc id' p' Hin)].
Qed.

Lemma clean_invoke m command args w :
  command ≠ m → clean m w → clean m (snd (invoke command args w)).
Proof.
  intros Hcmd Ho. unfold invoke, invoke_body, async.
  destruct (bridge w) as [[error|]|[error|]|]; cbn [snd]; unfold invoke_catch;
    try apply clean_showToast;
    try (apply (clean_of_view m (delegate command args w)); [reflexivity|]);
    apply clean_delegate; try exact Hcmd; try exact Ho.
Qed.

Lemma clean_await_invoke m command args k w :
  command ≠ m → cont_sends k m = false →
  clean m w → clean m (await_invoke command args k w).
Proof.
  intros Hcmd Hk Ho. unfold await_invoke.
  pose proof (clean_invoke m command args w Hcmd Ho) as Hx.
  destruct (invoke command args w) as [p x]. cbn [snd] in Hx.
  apply clean_park; [exact Hk | exact Hx].
Qed.

(** Chaining the lemmas along the way a handler is written; [Hm] says that
    [m] is a mutation and [Hc] what is known to rule [m] out. *)
Ltac clean_side m Hm Hc :=
  first
    [ reflexivity
    | solve [ intros <-; first [ discriminate Hm | discriminate Hc ] ]
    | solve [ intros ->; first [ discriminate Hm | discriminate Hc ] ]
    | solve [ destruct m; first [ reflexivity | discriminate Hm | discriminate Hc ] ] ].

Ltac clean_chain m Hm Hc :=
  lazymatch goal with
  | H : clean m ?w |- clean m ?w => exact H
  | |- clean m (update_state ?f ?w1) =>
      apply (clean_of_view m w1); [reflexivity | clean_chain m Hm Hc]
  | |- clean m (update_els ?f ?w1) =>
      apply (clean_of_view m w1); [reflexivity | clean_chain m Hm Hc]
  | |- clean m (console_log ?msg ?w1) =>
      apply (clean_of_view m w1); [reflexivity | clean_chain m Hm Hc]
  | |- clean m (unhandled_rejection ?msg ?w1) =>
      apply (clean_of_view m w1); [reflexivity | clean_chain m Hm Hc]
  | |- clean m (showLoading ?w1) =>
      apply (clean_of_view m w1); [apply ov_showLoading | clean_chain m Hm Hc]
  | |- clean m (hideLoading ?w1) =>
      apply (clean_of_view m w1); [apply ov_hideLoading | clean_chain m Hm Hc]
  | |- clean m (hide_toast ?w1) =>
      apply (clean_of_view m w1); [apply ov_hide_toast | clean_chain m Hm Hc]
  | |- clean m (updateVolumeUI ?w1) =>
      apply (clean_of_view m w1); [apply ov_updateVolumeUI | clean_chain m Hm Hc]
  | |- clean m (updateBrightnessUI ?w1) =>
      apply (clean_of_view m w1); [reflexivity | clean_chain m Hm Hc]
  | |- clean m (updateWifiUI ?w1) =>
      apply (clean_of_view m w1); [apply ov_updateWifiUI | clean_chain m Hm Hc]
  | |- clean m (updateBluetoothUI ?w1) =>
      apply (clean_of_view m w1); [reflexivity | clean_chain m Hm Hc]
  | |- clean m (updateNightLightUI ?w1) =>
      apply (clean_of_view m w1); [reflexivity | clean_chain m Hm Hc]
  | |- clean m (updateAllUI ?w1) =>
      apply (clean_of_view m w1); [apply ov_updateAllUI | clean_chain m Hm Hc]
  | |- clean m (handleVolumeInput ?v ?w1) =>
      apply (clean_of_view m w1); [reflexivity | clean_chain m Hm Hc]
  | |- clean m (handleBrightnessInput ?v ?w1) =>
      apply (clean_of_view m w1); [reflexivity | clean_chain m Hm Hc]
  | |- clean m (showToast ?msg ?t ?w1) => apply clean_showToast; clean_chain m Hm Hc
  | |- clean m (snd (setTimeout ?t ?delta ?w1)) =>
      apply clean_setTimeout; [clean_side m Hm Hc | clean_chain m Hm Hc]
  | |- clean m (handleVolumeChange ?v ?w1) =>
      apply clean_handleVolumeChange; [clean_side m Hm Hc | clean_chain m Hm Hc]
  | |- clean m (handleBrightnessChange ?v ?w1) =>
      apply clean_handleBrightnessChange; [clean_side m Hm Hc | clean_chain m Hm Hc]
  | |- clean m (await_invoke ?c ?a ?k ?w1) =>
      apply clean_await_invoke;
      [clean_side m Hm Hc | clean_side m Hm Hc | clean_chain m Hm Hc]
  end.

(** A listener that cannot lead to [m] leaves nothing of [m] behind. *)
Lemma clean_dispatch m e w :
  is_mutation m = true → causes e m = false → clean m w → clean m (dispatch e w).
Proof.
  intros Hm Hc Ho.
  destruct e; cbn [dispatch];
    try (destruct key, active; cbn [handleKeyDown]);
    unfold toggleWifi, toggleBluetooth, toggleNightLight, suspendSystem, toggleMute,
      closeWindow, loadInitialState, key_adjust_volume, key_adjust_brightness;
    cbv zeta;
    repeat match goal with
      | |- context [decide ?P] => destruct (decide P)
      | |- context [bridge w] => destruct (bridge w)
      end;
    clean_chain m Hm Hc.
Qed.

Lemma clean_timeout m id t w :
  is_mutation m = true →
  timers w !! id = Some t →
  clean m w → clean m (run_task (task t) (clearTimeout id w)).
Proof.
  intros Hm Ht Ho.
  assert (Hc : task_sends (task t) m = false).
  { destruct Ho as (_ & Hb & _). exact (Hb id t Ht). }
  pose proof (clean_clearTimeout m id w Ho) as Ho1.
  destruct (task t); cbn [run_task]; clean_chain m Hm Hc.
Qed.

Lemma clean_resume m c r w w' :
  is_mutation m = true →
  cont_sends c m = false →
  clean m w → resume c r w = Some w' → clean m w'.
Proof.
  intros Hm Hc Ho.
  destruct c, r as [[| | | |]|]; cbn [resume]; try discriminate;
    try destruct after;
    refine (from_Some (clean m) _ _ _);
    unfold refreshVolume, refreshBrightness; cbv zeta;
    clean_chain m Hm Hc.
Qed.

Lemma clean_invoke_settled m command r w : clean m w → clean m (invoke_settled command r w).
Proof.
  intros Ho. destruct r; [exact Ho|]. unfold invoke_settled, invoke_catch.
  apply clean_showToast. apply (clean_of_view m w); [reflexivity | exact Ho].
Qed.

Lemma clean_exec m a w w' :
  is_mutation m = true →
  (∀ e, a = Ui e → causes e m = false) →
  clean m w → exec a w = Some w' → clean m w'.
Proof.
  intros Hm Hno Ho.
  destruct a as [n|id|e|call r]; cbn -[resume invoke_settled dispatch run_task].
  - intros [= <-]. exact Ho.
  - destruct (timers w !! id) as [t|] eqn:Ht; [|discriminate].
    destruct (decide _); [|discriminate].
    refine (from_Some (clean m) _ _ _). exact (clean_timeout m id t w Hm Ht Ho).
  - refine (from_Some (clean m) _ _ _). exact (clean_dispatch m e w Hm (Hno e eq_refl) Ho).
  - destruct (inflight w !! call) as [p|] eqn:Hp; [|discriminate].
    destruct (delivers (p_promise p) r); [|discriminate].
    assert (Hc : cont_sends (p_cont p) m = false).
    { destruct Ho as (_ & _ & Hin). exact (Hin call p Hp). }
    assert (Ho1 : clean m (put_inflight (delete call (inflight w)) (nextCall w) w)).
    { destruct Ho as (Ha & Hb & Hin). unfold clean. cbn. repeat split; auto.
      intros id p' [_ Hp']%lookup_delete_Some. exact (Hin id p' Hp'). }
    apply (clean_resume m _ _ _ _ Hm Hc).
    destruct (p_promise p); [apply clean_invoke_settled|]; exact Ho1.
Qed.

Lemma asked_for_cons m a acts :
  asked_for m (a :: acts) = false →
  (∀ e, a = Ui e → causes e m = false) ∧ asked_for m acts = false.
Proof.
  unfold asked_for. cbn. intros [Ha Hrest]%orb_false_elim.
  split; [|exact Hrest]. intros e ->. exact Ha.
Qed.

Lemma clean_run m acts : ∀ w w',
  is_mutation m = true → asked_for m acts = false →
  clean m w → run acts w = Some w' → clean m w'.
Proof.
  induction acts as [|a acts IH]; intros w w' Hm Hno Ho Hrun; cbn in Hrun.
  - injection Hrun as <-. exact Ho.
  - destruct (asked_for_cons m a acts Hno) as [Ha Hrest].
    destruct (exec a w) as [w1|] eqn:Hexec; [|discriminate].
    exact (IH _ _ Hm Hrest (clean_exec m a w w1 Hm Ha Ho Hexec) Hrun).
Qed.

Lemma clean_start m b w : is_mutation m = true → at_start b w → clean m w.
Proof.
  intros Hm Hstart.
  assert (Hboot : clean m (boot b)).
  { unfold clean. cbn. repeat split.
    - intros c Hc. apply elem_of_nil in Hc. contradiction.
    - intros id t Hin. rewrite lookup_empty in Hin. discriminate.
    - intros id p Hin. rewrite lookup_empty in Hin. discriminate. }
  destruct Hstart as [-> | ->]; [exact Hboot|].
  unfold loaded, loadInitialState. clean_chain m Hm Hm.
Qed.

(** X27 (no mutation without its event).  In every world the event loop
    reaches from start-up (the page as built, or with the first fetch under
    way), whatever the bridge and whatever happened: when a call that
    changes the system is in the trace, an event whose listener leads to
    that command is among the events that were delivered.  [suspend_system]
    needs a click on the suspend tile; [set_wifi_enabled],
    [set_bluetooth_enabled], [set_night_light_enabled] and [toggle_mute] a
    click on their control; [set_volume] and [set_brightness] a 'change'
    event or an arrow key on their slider; [close_window] the close button,
    Escape or the suspend tile.  No timer, no settling call and no other
    listener sends a mutation on its own. *)
Theorem mutations_have_a_cause (b : Bridge) (w0 : World) (acts : list Action) (w : World)
    (c : Call) :
  at_start b w0 →
  run acts w0 = Some w →
  c ∈ trace w →
  is_mutation (c_command c) = true →
  ∃ e, Ui e ∈ acts ∧ causes e (c_command c) = true.
Proof.
  intros Hstart Hrun Hc Hm.
  destruct (asked_for (c_command c) acts) eqn:Hasked.
  - unfold asked_for in Hasked. apply existsb_exists in Hasked as (a & Hin & Ha).
    destruct a as [| |e|]; try discriminate Ha.
    exists e. split; [|exact Ha]. apply list_elem_of_In. exact Hin.
  - exfalso.
    destruct (clean_run _ acts _ _ Hm Hasked (clean_start _ b w0 Hm Hstart) Hrun)
      as (Hnone & _).
    exact (Hnone c Hc eq_refl).
Qed.

Lemma mutations_have_a_cause_witness :
  ∃ w e, run [Ui (KeyDown Escape Elsewhere); Settle 2 (Resolved VNull); Ui ClickSuspend;
              Settle 3 (Resolved VNull); Wait 100; Timeout 2] (loaded (TauriV2 None)) = Some w
         ∧ Ui e ∈ [Ui (KeyDown Escape Elsewhere); Settle 2 (Resolved VNull); Ui ClickSuspend;
                   Settle 3 (Resolved VNull); Wait 100; Timeout 2]
         ∧ causes e suspend_system = true.
Proof.
  assert (Hrun : ∃ w, run [Ui (KeyDown Escape Elsewhere); Settle 2 (Resolved VNull);
                           Ui ClickSuspend; Settle 3 (Resolved VNull); Wait 100; Timeout 2]
                          (loaded (TauriV2 None)) = Some w
                      ∧ last (trace w)
                        = Some {| c_time := 100; c_command := suspend_system;
                                  c_args := NoArgs |}).
  { eexists. split; vm_compute; reflexivity. }
  destruct Hrun as (w & Hrun & Hlast).
  destruct (mutations_have_a_cause (TauriV2 None) _ _ w
              {| c_time := 100; c_command := suspend_system; c_args := NoArgs |}
              (or_intror eq_refl) Hrun) as (e & He & Hcause).
  - exact (last_Some_elem_of _ _ Hlast).
  - reflexivity.
  - exists w, e. split; [exact Hrun|]. split; [exact He | exact Hcause].
Defined.

(** ** A pending control can always be released *)

(** X28 (the guard cannot get stuck).  In every world the event loop
    reaches from start-up (the page as built, or with the first fetch under
    way), whatever the bridge and whatever happened: when a control is
    pending, a call is awaited that can settle, and once it settles the
    control is free again.  No key is ever left in [pendingOperations]
    with nothing in flight to take it out. *)
Theorem pending_can_be_released (b : Bridge) (w0 : World) (acts : list Action) (w : World)
    (k : Kind) :
  at_start b w0 →
  run acts w0 = Some w →
  pending k w →
  ∃ call r w', exec (Settle call r) w = Some w' ∧ ¬ pending k w'.
Proof.
  intros Hstart Hrun Hp.
  destruct (guarded_run k acts _ _ (guarded_start k b w0 Hstart) Hrun) as [_ Hg].
  cbn in Hg. fold (pending k w) in Hg. rewrite decide_True in Hg by exact Hp.
  destruct Hg as (call & p & Heq & _).
  assert (Hin : awaited k (inflight w) !! call = Some p).
  { rewrite Heq. apply lookup_singleton_eq. }
  apply (map_lookup_filter_Some (λ ip, is_toggle k (p_cont ip.2) = true)) in Hin
    as [Hin Hk].
  cbn in Hk.
  assert (Hcont : ∃ newState, p_cont p = rest_of_toggle k newState).
  { destruct k, (p_cont p); try discriminate Hk; eexists; reflexivity. }
  destruct Hcont as [newState Hcont].
  set (r := match p_promise p with
            | AwaitsBackend => Resolved VNull
            | Settled r0 => r0
            end).
  assert (Hd : delivers (p_promise p) r = true).
  { unfold r. destruct (p_promise p); [reflexivity|]. cbn.
    apply bool_decide_eq_true_2. reflexivity. }
  destruct (exec_settle call r w p Hin Hd) as (w1 & Hexec & Hs & _).
  rewrite Hcont in Hexec.
  destruct (rest_of_toggle_releases k newState r w1) as (w' & Hres & Hpend & _).
  exists call, r, w'. split; [rewrite Hexec; exact Hres|].
  unfold pending. rewrite Hpend, elem_of_difference, elem_of_singleton. tauto.
Qed.

Lemma pending_can_be_released_witness :
  ∃ call r w',
    exec (Settle call r) (dispatch ClickWifi (loaded (TauriV2 (Some "down"%string)))) = Some w'
    ∧ ¬ pending WiFi w'.
Proof.
  assert (Hrun : run [Ui ClickWifi] (loaded (TauriV2 (Some "down"%string)))
                 = Some (dispatch ClickWifi (loaded (TauriV2 (Some "down"%string)))))
    by reflexivity.
  assert (Hp : pending WiFi (dispatch ClickWifi (loaded (TauriV2 (Some "down"%string))))).
  { apply (bool_decide_eq_true_1 _). vm_compute. reflexivity. }
  exact (pending_can_be_released (TauriV2 (Some "down"%string)) _ _ _ WiFi
           (or_intror eq_refl) Hrun Hp).
Defined.

(** ** At most one call per event *)

Section filtered_size.
Context {A : Type} (f : A → bool).

Let P : positive * A → Prop := λ ix, f ix.2 = true.

Lemma size_filter_insert i x (mp : gmap positive A) :
  (size (filter P (<[i := x]> mp)) ≤ size (filter P mp) + Nat.b2n (f x))%nat.
Proof.
  rewrite map_filter_insert. unfold P at 1. cbn. case_decide as Hx.
  - rewrite Hx, map_size_insert. cbn. destruct (filter P mp !! i); cbn; lia.
  - rewrite map_filter_delete, map_size_delete. destruct (filter P mp !! i); cbn; lia.
Qed.

Lemma size_filter_delete i (mp : gmap positive A) :
  (size (filter P (delete i mp)) ≤ size (filter P mp))%nat.
Proof.
  rewrite map_filter_delete, map_size_delete. destruct (filter P mp !! i); cbn; lia.
Qed.

Lemma size_filter_delete_alive i x (mp : gmap positive A) :
  mp !! i = Some x →
  (size (filter P (delete i mp)) + Nat.b2n (f x) = size (filter P mp))%nat.
Proof.
  intros Hi. rewrite map_filter_delete, map_size_delete.
  destruct (f x) eqn:Hx; cbn.
  - assert (Hin : filter P mp !! i = Some x)
      by (apply map_lookup_filter_Some_2; [exact Hi | exact Hx]).
    rewrite Hin. cbn.
    assert (size (filter P mp) ≠ 0%nat)
      by (apply (map_size_ne_0_lookup_2 _ i); rewrite Hin; eexists; reflexivity).
    lia.
  - assert (Hout : filter P mp !! i = None).
    { apply map_lookup_filter_None_2. right. intros y Hy. rewrite Hi in Hy.
      injection Hy as <-. unfold P. cbn. rewrite Hx. discriminate. }
    rewrite Hout. cbn. lia.
Qed.
End filtered_size.

Lemma owed_view m w w' : order_view w' = order_view w → owed m w' = owed m w.
Proof.
  unfold order_view, owed, calls_of, timers_for, waiting_for.
  intros [= _ -> -> ->]. reflexivity.
Qed.

Lemma owed_clearTimeout m id w : (owed m (clearTimeout id w) ≤ owed m w)%nat.
Proof.
  unfold owed, calls_of, timers_for, waiting_for. cbn.
  pose proof (size_filter_delete (λ t, task_sends (task t) m) id (timers w)). lia.
Qed.

Lemma owed_clearTimeout_alive m id t w :
  timers w !! id = Some t →
  (owed m (clearTimeout id w) + Nat.b2n (task_sends (task t) m) = owed m w)%nat.
Proof.
  intros Ht. unfold owed, calls_of, timers_for, waiting_for. cbn.
  pose proof (size_filter_delete_alive (λ t, task_sends (task t) m) id t (timers w) Ht). lia.
Qed.

Lemma owed_clear_if_set m var w : (owed m (clear_if_set var w) ≤ owed m w)%nat.
Proof. destruct var; [apply owed_clearTimeout | cbn; lia]. Qed.

Lemma owed_setTimeout m t delta w :
  (owed m (snd (setTimeout t delta w)) ≤ owed m w + Nat.b2n (task_sends t m))%nat.
Proof.
  unfold owed, calls_of, timers_for, waiting_for. cbn.
  pose proof (size_filter_insert (λ t, task_sends (task t) m) (nextTimer w)
                {| due := (clock w + delta)%nat; task := t |} (timers w)) as H.
  cbn in H. lia.
Qed.

Lemma task_sends_HideToast m : task_sends HideToast m = false.
Proof. destruct m; reflexivity. Qed.

Lemma owed_showToast m message type w : (owed m (showToast message type w) ≤ owed m w)%nat.
Proof.
  unfold showToast. destruct (toast (els w)); [|lia]. cbv zeta.
  match goal with
  | |- (owed m (let '(id, w2) := setTimeout ?t ?delta ?w1 in put_toastTimer (Some id) w2)
        ≤ _)%nat =>
      change (owed m (put_toastTimer (Some (nextTimer w1)) (snd (setTimeout t delta w1)))
              ≤ owed m w)%nat;
      rewrite (owed_view m (snd (setTimeout t delta w1))
                 (put_toastTimer (Some (nextTimer w1)) (snd (setTimeout t delta w1)))
                 eq_refl);
      pose proof (owed_setTimeout m t delta w1) as H1;
      assert (H2 : owed m w1 = owed m (clear_if_set (toastTimer w) w))
        by (apply owed_view; reflexivity)
  end.
  pose proof (owed_clear_if_set m (toastTimer w) w) as H3.
  rewrite task_sends_HideToast in H1. cbn [Nat.b2n] in H1. lia.
Qed.

Lemma owed_handleVolumeChange m v w :
  (owed m (handleVolumeChange v w) ≤ owed m w + Nat.b2n (task_sends (VolumeCommit v) m))%nat.
Proof.
  unfold handleVolumeChange. cbv zeta.
  match goal with
  | |- (owed m (let '(id, w2) := setTimeout ?t ?delta ?w1 in _) ≤ _)%nat =>
      change (owed m (put_volumeDebounceTimer (Some (nextTimer w1))
                        (snd (setTimeout t delta w1)))
              ≤ owed m w + Nat.b2n (task_sends (VolumeCommit v) m))%nat;
      rewrite (owed_view m (snd (setTimeout t delta w1))
                 (put_volumeDebounceTimer (Some (nextTimer w1))
                    (snd (setTimeout t delta w1))) eq_refl);
      pose proof (owed_setTimeout m t delta w1) as H1
  end.
  pose proof (owed_clear_if_set m (volumeDebounceTimer w) w) as H2. lia.
Qed.

Lemma owed_handleBrightnessChange m v w :
  (owed m (handleBrightnessChange v w)
   ≤ owed m w + Nat.b2n (task_sends (BrightnessCommit v) m))%nat.
Proof.
  unfold handleBrightnessChange. cbv zeta.
  match goal with
  | |- (owed m (let '(id, w2) := setTimeout ?t ?delta ?w1 in _) ≤ _)%nat =>
      change (owed m (put_brightnessDebounceTimer (Some (nextTimer w1))
                        (snd (setTimeout t delta w1)))
              ≤ owed m w + Nat.b2n (task_sends (BrightnessCommit v) m))%nat;
      rewrite (owed_view m (snd (setTimeout t delta w1))
                 (put_brightnessDebounceTimer (Some (nextTimer w1))
                    (snd (setTimeout t delta w1))) eq_refl);
      pose proof (owed_setTimeout m t delta w1) as H1
  end.
  pose proof (owed_clear_if_set m (brightnessDebounceTimer w) w) as H2. lia.
Qed.

Lemma owed_delegate m command args w :
  owed m (delegate command args w)
  = (owed m w + Nat.b2n (bool_decide (command = m)))%nat.
Proof.
  unfold owed, calls_of, timers_for, waiting_for. cbn.
  rewrite filter_app, length_app. cbn.
  destruct (decide (command = m)) as [Hc|Hc].
  - rewrite bool_decide_eq_true_2 by exact Hc. cbn. lia.
  - rewrite bool_decide_eq_false_2 by exact Hc. cbn. lia.
Qed.

Lemma owed_park m id p next w :
  (owed m (put_inflight (<[id := p]> (inflight w)) next w)
   ≤ owed m w + Nat.b2n (cont_sends (p_cont p) m))%nat.
Proof.
  unfold owed, calls_of, timers_for, waiting_for. cbn.
  pose proof (size_filter_insert (λ p, cont_sends (p_cont p) m) id p (inflight w)). lia.
Qed.

Lemma owed_unpark m call p next w :
  inflight w !! call = Some p →
  (owed m (put_inflight (delete call (inflight w)) next w)
   + Nat.b2n (cont_sends (p_cont p) m) = owed m w)%nat.
Proof.
  intros Hp. unfold owed, calls_of, timers_for, waiting_for. cbn.
  pose proof (size_filter_delete_alive (λ p, cont_sends (p_cont p) m) call p (inflight w) Hp).
  lia.
Qed.

Lemma owed_invoke m command args w :
  (owed m (snd (invoke command args w))
   ≤ owed m w + Nat.b2n (bool_decide (command = m)))%nat.
Proof.
  unfold invoke, invoke_body, async.
  destruct (bridge w) as [[error|]|[error|]|]; cbn [snd]; unfold invoke_catch.
  - match goal with
    | |- (owed m (showToast ?msg ?t ?x) ≤ _)%nat =>
        pose proof (owed_showToast m msg t x) as H1;
        rewrite (owed_view m (delegate command args w) x eq_refl), owed_delegate in H1
    end.
    exact H1.
  - rewrite owed_delegate. lia.
  - match goal with
    | |- (owed m (showToast ?msg ?t ?x) ≤ _)%nat =>
        pose proof (owed_showToast m msg t x) as H1;
        rewrite (owed_view m (delegate command args w) x eq_refl), owed_delegate in H1
    end.
    exact H1.
  - rewrite owed_delegate. lia.
  - rewrite owed_delegate.
    match goal with
    | |- (owed m ?x + _ ≤ _)%nat => rewrite (owed_view m w x eq_refl)
    end.
    lia.
Qed.

Lemma owed_await_invoke m command args k w :
  (owed m (await_invoke command args k w)
   ≤ owed m w + (Nat.b2n (bool_decide (command = m)) + Nat.b2n (cont_sends k m)))%nat.
Proof.
  unfold await_invoke. pose proof (owed_invoke m command args w) as Hx.
  destruct (invoke command args w) as [p x]. cbn [snd] in Hx.
  pose proof (owed_park m (nextCall x)
                {| p_command := command; p_promise := p; p_cont := k |}
                (Pos.succ (nextCall x)) x) as Hp.
  cbn [p_cont] in Hp. lia.
Qed.

Lemma owed_base m w : (owed m w ≤ owed m w + 0)%nat.
Proof. lia. Qed.

Lemma owed_after m (f : World → World) delta :
  (∀ w, owed m (f w) ≤ owed m w + delta)%nat →
  ∀ w0 w1 n, (owed m w1 ≤ owed m w0 + n)%nat → (owed m (f w1) ≤ owed m w0 + (n + delta))%nat.
Proof. intros Hf w0 w1 n H. pose proof (Hf w1). lia. Qed.

Lemma owed_after_view m (f : World → World) :
  (∀ w, order_view (f w) = order_view w) →
  ∀ w0 w1 n, (owed m w1 ≤ owed m w0 + n)%nat → (owed m (f w1) ≤ owed m w0 + n)%nat.
Proof. intros Hf w0 w1 n H. rewrite (owed_view m w1 (f w1) (Hf w1)). exact H. Qed.

Lemma owed_bound m w w' n k :
  (owed m w' ≤ owed m w + n)%nat → (n ≤ k)%nat → (owed m w' ≤ owed m w + k)%nat.
Proof. lia. Qed.

(** Chaining the lemmas along the way a handler is written, adding up what
    each piece may owe. *)
Ltac owed_chain :=
  lazymatch goal with
  | |- (owed ?m ?w ≤ owed ?m ?w + _)%nat => exact (owed_base m w)
  | |- (owed ?m (update_state ?f ?w1) ≤ owed ?m ?w0 + _)%nat =>
      refine (owed_after_view m (update_state f) (λ w, eq_refl) w0 w1 _ _); owed_chain
  | |- (owed ?m (update_els ?f ?w1) ≤ owed ?m ?w0 + _)%nat =>
      refine (owed_after_view m (update_els f) (λ w, eq_refl) w0 w1 _ _); owed_chain
  | |- (owed ?m (console_log ?msg ?w1) ≤ owed ?m ?w0 + _)%nat =>
      refine (owed_after_view m (console_log msg) (λ w, eq_refl) w0 w1 _ _); owed_chain
  | |- (owed ?m (unhandled_rejection ?msg ?w1) ≤ owed ?m ?w0 + _)%nat =>
      refine (owed_after_view m (unhandled_rejection msg) (λ w, eq_refl) w0 w1 _ _);
      owed_chain
  | |- (owed ?m (showLoading ?w1) ≤ owed ?m ?w0 + _)%nat =>
      refine (owed_after_view m showLoading ov_showLoading w0 w1 _ _); owed_chain
  | |- (owed ?m (hideLoading ?w1) ≤ owed ?m ?w0 + _)%nat =>
      refine (owed_after_view m hideLoading ov_hideLoading w0 w1 _ _); owed_chain
  | |- (owed ?m (hide_toast ?w1) ≤ owed ?m ?w0 + _)%nat =>
      refine (owed_after_view m hide_toast ov_hide_toast w0 w1 _ _); owed_chain
  | |- (owed ?m (updateVolumeUI ?w1) ≤ owed ?m ?w0 + _)%nat =>
      refine (owed_after_view m updateVolumeUI ov_updateVolumeUI w0 w1 _ _); owed_chain
  | |- (owed ?m (updateBrightnessUI ?w1) ≤ owed ?m ?w0 + _)%nat =>
      refine (owed_after_view m updateBrightnessUI (λ w, eq_refl) w0 w1 _ _); owed_chain
  | |- (owed ?m (updateWifiUI ?w1) ≤ owed ?m ?w0 + _)%nat =>
      refine (owed_after_view m updateWifiUI ov_updateWifiUI w0 w1 _ _); owed_chain
  | |- (owed ?m (updateBluetoothUI ?w1) ≤ owed ?m ?w0 + _)%nat =>
      refine (owed_after_view m updateBluetoothUI (λ w, eq_refl) w0 w1 _ _); owed_chain
  | |- (owed ?m (updateNightLightUI ?w1) ≤ owed ?m ?w0 + _)%nat =>
      refine (owed_after_view m updateNightLightUI (λ w, eq_refl) w0 w1 _ _); owed_chain
  | |- (owed ?m (updateAllUI ?w1) ≤ owed ?m ?w0 + _)%nat =>
      refine (owed_after_view m updateAllUI ov_updateAllUI w0 w1 _ _); owed_chain
  | |- (owed ?m (handleVolumeInput ?v ?w1) ≤ owed ?m ?w0 + _)%nat =>
      refine (owed_after_view m (handleVolumeInput v) (λ w, eq_refl) w0 w1 _ _); owed_chain
  | |- (owed ?m (handleBrightnessInput ?v ?w1) ≤ owed ?m ?w0 + _)%nat =>
      refine (owed_after_view m (handleBrightnessInput v) (λ w, eq_refl) w0 w1 _ _);
      owed_chain
  | |- (owed ?m (showToast ?msg ?t ?w1) ≤ owed ?m ?w0 + _)%nat =>
      refine (owed_after m (showToast msg t) 0
                (λ w, eq_ind_r (λ x, (_ ≤ x)%nat) (owed_showToast m msg t w)
                        (Nat.add_0_r (owed m w))) w0 w1 _ _);
      owed_chain
  | |- (owed ?m (snd (setTimeout ?t ?delta ?w1)) ≤ owed ?m ?w0 + _)%nat =>
      refine (owed_after m (λ w, snd (setTimeout t delta w)) _
                (owed_setTimeout m t delta) w0 w1 _ _);
      owed_chain
  | |- (owed ?m (handleVolumeChange ?v ?w1) ≤ owed ?m ?w0 + _)%nat =>
      refine (owed_after m (handleVolumeChange v) _ (owed_handleVolumeChange m v) w0 w1 _ _);
      owed_chain
  | |- (owed ?m (handleBrightnessChange ?v ?w1) ≤ owed ?m ?w0 + _)%nat =>
      refine (owed_after m (handleBrightnessChange v) _ (owed_handleBrightnessChange m v)
                w0 w1 _ _);
      owed_chain
  | |- (owed ?m (await_invoke ?c ?a ?k ?w1) ≤ owed ?m ?w0 + _)%nat =>
      refine (owed_after m (await_invoke c a k) _ (owed_await_invoke m c a k) w0 w1 _ _);
      owed_chain
  end.

(** What is left to show once the pieces are added up, [m] being a
    mutation. *)
Ltac owed_side m Hm :=
  destruct m; try discriminate Hm;
  cbn [Nat.b2n task_sends cont_sends causes asks_for];
  repeat case_bool_decide; try congruence; cbn [Nat.b2n]; lia.

(** A listener owes at most one call of [m], and only if it can lead to
    [m]. *)
Lemma owed_dispatch m e w :
  is_mutation m = true →
  (owed m (dispatch e w) ≤ owed m w + Nat.b2n (causes e m))%nat.
Proof.
  intros Hm.
  destruct e; cbn [dispatch];
    try (destruct key, active; cbn [handleKeyDown]);
    unfold toggleWifi, toggleBluetooth, toggleNightLight, suspendSystem, toggleMute,
      closeWindow, loadInitialState, key_adjust_volume, key_adjust_brightness;
    cbv zeta;
    repeat match goal with
      | |- context [decide ?P] => destruct (decide P)
      | |- context [bridge w] => destruct (bridge w)
      end;
    (eapply owed_bound; [owed_chain | owed_side m Hm]).
Qed.

(** A timer that runs sends what it was counted for and nothing more. *)
Lemma owed_timeout m id t w :
  is_mutation m = true →
  timers w !! id = Some t →
  (owed m (run_task (task t) (clearTimeout id w)) ≤ owed m w)%nat.
Proof.
  intros Hm Ht.
  pose proof (owed_clearTimeout_alive m id t w Ht) as Halive.
  assert (Hrun : (owed m (run_task (task t) (clearTimeout id w))
                  ≤ owed m (clearTimeout id w) + Nat.b2n (task_sends (task t) m))%nat).
  { destruct (task t); cbn [run_task];
      (eapply owed_bound; [owed_chain | owed_side m Hm]). }
  lia.
Qed.

(** The rest of an async function sends or queues what it was counted for
    and nothing more. *)
Lemma owed_resume m c r w w' :
  is_mutation m = true →
  resume c r w = Some w' →
  (owed m w' ≤ owed m w + Nat.b2n (cont_sends c m))%nat.
Proof.
  intros Hm.
  destruct c, r as [[| | | |]|]; cbn [resume]; try discriminate;
    try destruct after;
    refine (from_Some (λ x, (owed m x ≤ _)%nat) _ _ _);
    unfold refreshVolume, refreshBrightness; cbv zeta;
    (eapply owed_bound; [owed_chain | owed_side m Hm]).
Qed.

Lemma owed_invoke_settled m command r w :
  (owed m (invoke_settled command r w) ≤ owed m w)%nat.
Proof.
  destruct r; [cbn; lia|]. unfold invoke_settled, invoke_catch.
  match goal with
  | |- (owed m (showToast ?msg ?t ?x) ≤ _)%nat =>
      pose proof (owed_showToast m msg t x) as H1;
      rewrite (owed_view m w x eq_refl) in H1
  end.
  exact H1.
Qed.

(** Every step of the event loop: what is owed of [m] grows by one at
    most, and only with an event that can lead to [m]. *)
Lemma owed_exec m a w w' :
  is_mutation m = true →
  exec a w = Some w' →
  (owed m w' ≤ owed m w + Nat.b2n (asks_for m a))%nat.
Proof.
  intros Hm.
  destruct a as [n|id|e|call r]; cbn -[resume invoke_settled dispatch run_task].
  - intros [= <-]. change (owed m (put_clock (clock w + n) w)) with (owed m w). lia.
  - destruct (timers w !! id) as [t|] eqn:Ht; [|discriminate].
    destruct (decide _); [|discriminate].
    refine (from_Some (λ x, (owed m x ≤ _)%nat) _ _ _).
    pose proof (owed_timeout m id t w Hm Ht). lia.
  - refine (from_Some (λ x, (owed m x ≤ _)%nat) _ _ _). apply owed_dispatch, Hm.
  - destruct (inflight w !! call) as [p|] eqn:Hp; [|discriminate].
    destruct (delivers (p_promise p) r); [|discriminate].
    pose proof (owed_unpark m call p (nextCall w) w Hp) as Hun.
    intros Hres. apply (owed_resume m _ _ _ _ Hm) in Hres.
    destruct (p_promise p).
    + pose proof (owed_invoke_settled m (p_command p) r
                    (put_inflight (delete call (inflight w)) (nextCall w) w)). lia.
    + lia.
Qed.

Lemma owed_run m acts : ∀ w w',
  is_mutation m = true →
  run acts w = Some w' →
  (owed m w' ≤ owed m w + asks m acts)%nat.
Proof.
  induction acts as [|a acts IH]; intros w w' Hm Hrun; cbn in Hrun.
  - injection Hrun as <-. cbn. lia.
  - destruct (exec a w) as [w1|] eqn:Hexec; [|discriminate].
    pose proof (owed_exec m a w w1 Hm Hexec) as H1.
    pose proof (IH w1 w' Hm Hrun) as H2.
    unfold asks in *. rewrite filter_cons.
    destruct (asks_for m a); [rewrite decide_True by reflexivity
                             | rewrite decide_False by discriminate];
      cbn [Nat.b2n length] in *; lia.
Qed.

Lemma owed_start m b w : is_mutation m = true → at_start b w → owed m w = 0%nat.
Proof.
  intros Hm Hstart.
  assert (Hboot : owed m (boot b) = 0%nat).
  { unfold owed, calls_of, timers_for, waiting_for. cbn.
    rewrite !map_filter_empty, !map_size_empty. reflexivity. }
  destruct Hstart as [-> | ->]; [exact Hboot|].
  assert (H : (owed m (loaded b) ≤ owed m (boot b) + 0)%nat).
  { unfold loaded, loadInitialState.
    eapply owed_bound; [owed_chain | owed_side m Hm]. }
  lia.
Qed.

(** X29 (at most one call per event).  In every world the event loop
    reaches from start-up (the page as built, or with the first fetch under
    way), whatever the bridge and whatever happened: of each command that
    changes the system, no more calls have been made than events were
    delivered whose listener leads to that command, and what is still
    queued in timers or waiting behind an awaited call counts too.  A click
    on the suspend tile suspends once at most; nothing is retried and
    nothing is sent twice. *)
Theorem at_most_one_call_per_event (b : Bridge) (w0 : World) (acts : list Action)
    (w : World) (m : Command) :
  at_start b w0 →
  run acts w0 = Some w →
  is_mutation m = true →
  (calls_of m w + timers_for m w + waiting_for m w ≤ asks m acts)%nat.
Proof.
  intros Hstart Hrun Hm.
  pose proof (owed_run m acts w0 w Hm Hrun) as H.
  rewrite (owed_start m b w0 Hm Hstart) in H. exact H.
Qed.

Lemma at_most_one_call_per_event_witness :
  ∃ w, run [Ui ClickSuspend; Ui ClickSuspend; Settle 1 (Resolved VNull);
            Settle 2 (Rejected "busy"); Wait 100; Timeout 3; Timeout 5]
           (boot (TauriV2 None)) = Some w
       ∧ calls_of suspend_system w = 2%nat.
Proof.
  assert (Hrun : ∃ w, run [Ui ClickSuspend; Ui ClickSuspend; Settle 1 (Resolved VNull);
                           Settle 2 (Rejected "busy"); Wait 100; Timeout 3; Timeout 5]
                          (boot (TauriV2 None)) = Some w
                      ∧ (2 ≤ calls_of suspend_system w)%nat).
  { eexists. split; [vm_compute; reflexivity|]. vm_compute. repeat constructor. }
  destruct Hrun as (w & Hrun & Hge).
  exists w. split; [exact Hrun|].
  pose proof (at_most_one_call_per_event (TauriV2 None) _ _ w suspend_system
                (or_introl eq_refl) Hrun eq_refl) as Hle.
  change (asks suspend_system _) with 2%nat in Hle. lia.
Defined.
